(** * nofx: decision validation, execution ordering and position risk state

    A shallow embedding of the trading core of the repository:

    - [decision/engine.go] (package [decision]): [validateDecision],
      [validateDecisions], [parseFullDecisionResponse], [GetFullDecision];
    - [trader/auto_trader.go] (package [trader]): [runCycle],
      [checkStopLossTriggered], [checkTrailingStopAndPartialTP],
      [executeTrailingStop], [executePartialTakeProfit],
      [buildTradingContext], [executeDecisionWithRecord] and the four
      [execute...WithRecord] functions, [sortDecisionsByPriority],
      [NewAutoTrader];
    - the second copy of package [trader], below the shell script of
      [tradingview/test_curl.sh]: its [sortDecisionsByPriority] and its two
      open functions;
    - [decision/engine.go]: [findMatchingBracket];
    - [market/data.go] (package [market]): [calculateEMA], [calculateRSI],
      [calculateATR].

    Conventions of the embedding.

    - A finite Go [float64] is a rational ([Q]); the comparisons of the
      source are the boolean comparisons [fle], [flt], [fge], [fgt] below,
      which are exact.  Where the source computes a value that it then
      compares with a threshold or cuts to an integer (the risk:reward
      ratio and the notional ceiling of [validateDecision], the profit
      percentage and the thresholds of the trailing stop, the targets of the
      partial take-profit, the 5% band of the loss classification, the
      length of a backoff, the price deviation of the second trader), every
      operation is rounded as IEEE-754 binary64 does ([fadd], [fsub],
      [fmul], [fdiv]: the exact result, then [round64], to nearest with ties
      to even, one operation at a time, with no fused multiply-add), and a
      decimal constant such as [1.05] is the nearest [float64]
      ([round64 1.05]).  A value that is only passed along (a quantity, a
      margin, the equity) and the indicators of [market/data.go] are exact.
      Infinities and NaN are outside the model, and so is a division by zero
      (an infinity or NaN in Go, [0] in [Q]).
    - Go [int] is [Z]; [time.Time] is a [Z] count of nanoseconds, the zero
      [time.Time] being [0].
    - Go strings are [string]; action names stay strings, as in the source.
    - Go maps are [gmap]; a missing key reads as [None] where Go reads the
      zero value ([nil] for the [*PnLTracking] pointers).
    - The exchange client ([Trader] interface), [market.Get], the coin pool,
      the AI client, the clock and the decision logger are external: they are
      the operations of an abstract world (class [External]).  Every call to
      them is recorded in a call trace, so that "no venue call is made" is a
      statement about that trace.
    - Errors are values, as in Go: a function returning [error] returns
      [option Error], [None] being [nil].
    - [log.Printf] output, the text of the execution log, [time.Sleep] and
      the time stamps of the log records are not modelled. *)

From Stdlib Require SpecFloat FloatOps PrimFloat.
From Stdlib Require Import QArith Qabs Qpower Qminmax Lqa ZArith Lia
  Permutation Sorted Morphisms.
From Stdlib Require Import Ascii String.
From stdpp Require Import gmap strings list fin_maps.

Open Scope Z_scope.
Open Scope string_scope.

(** ** Numbers *)

Module F64.

Definition float64 := Q.

Definition fle (x y : Q) : bool := Qle_bool x y.
Definition fge (x y : Q) : bool := Qle_bool y x.
Definition flt (x y : Q) : bool := negb (Qle_bool y x).
Definition fgt (x y : Q) : bool := negb (Qle_bool x y).

(** [int(x)] for a [float64] [x]: truncation toward zero. *)
Definition truncZ (x : Q) : Z := Z.quot (Qnum x) (Z.pos (Qden x)).

(** [float64(n)] for an [int] [n]; exact up to [2^53], and the integers of
    the source (leverage, minutes, periods) are far below. *)
Definition ofZ (n : Z) : Q := inject_Z n.

(** An integer as the unrounded pair (mantissa, exponent 0) that the
    division of [SpecFloat] takes. *)
Definition toSF (n : Z) : SpecFloat.spec_float :=
  match n with
  | Z0 => SpecFloat.S754_zero false
  | Zpos m => SpecFloat.S754_finite false m 0
  | Zneg m => SpecFloat.S754_finite true m 0
  end.

(** The rational a finite [spec_float] stands for; [otherwise] for an
    infinity or NaN. *)
Definition ofSF (f : SpecFloat.spec_float) (otherwise : Q) : Q :=
  match f with
  | SpecFloat.S754_zero _ => 0%Q
  | SpecFloat.S754_finite s m e =>
      (inject_Z (if s then Z.neg m else Z.pos m) * 2 ^ e)%Q
  | SpecFloat.S754_infinity _ | SpecFloat.S754_nan => otherwise
  end.

(** The [float64] nearest to a rational, ties to even: the quotient of the
    numerator by the denominator as the binary64 division of the Standard
    Library's specification of IEEE-754 rounds it (53 bits of precision,
    exponents up to 1024, gradual underflow).  A rational beyond the largest
    finite [float64] (an infinity in Go) is left as it is. *)
Definition round64 (x : Q) : Q :=
  let y := Qred x in
  ofSF (SpecFloat.SFdiv FloatOps.prec FloatOps.emax
          (toSF (Qnum y)) (toSF (Z.pos (Qden y)))) y.

(** The four operations of [float64]: the exact result, rounded. *)
Definition fadd (x y : Q) : Q := round64 (x + y).
Definition fsub (x y : Q) : Q := round64 (x - y).
Definition fmul (x y : Q) : Q := round64 (x * y).
Definition fdiv (x y : Q) : Q := round64 (x / y).

(** The sign given to [binary_round_aux] only marks its result. *)
Definition withSign (s : bool) (f : SpecFloat.spec_float)
    : SpecFloat.spec_float :=
  match f with
  | SpecFloat.S754_zero _ => SpecFloat.S754_zero s
  | SpecFloat.S754_finite _ m e => SpecFloat.S754_finite s m e
  | SpecFloat.S754_infinity _ => SpecFloat.S754_infinity s
  | SpecFloat.S754_nan => SpecFloat.S754_nan
  end.

(** The rational of a primitive float of the kernel. *)
Definition ofFloat (f : PrimFloat.float) : Q := ofSF (FloatOps.Prim2SF f) 0.

End F64.
Import F64.

(** ** Strings *)

Module Strings.

Definition byteOf (c : ascii) : N := N_of_ascii c.

(** The white space of [unicode.IsSpace] that fits one byte of UTF-8:
    tab, line feed, vertical tab, form feed, carriage return, space. *)
Definition isSpace1 (c : ascii) : bool :=
  let n := byteOf c in
  ((9 <=? n) && (n <=? 13) || (n =? 32))%N.

(** Two bytes: U+0085 (C2 85) and U+00A0 (C2 A0). *)
Definition isSpace2 (c1 c2 : ascii) : bool :=
  ((byteOf c1 =? 194) && ((byteOf c2 =? 133) || (byteOf c2 =? 160)))%N.

(** Three bytes: U+1680, U+2000..U+200A, U+2028, U+2029, U+202F, U+205F,
    U+3000. *)
Definition isSpace3 (c1 c2 c3 : ascii) : bool :=
  let a := byteOf c1 in
  let b := byteOf c2 in
  let c := byteOf c3 in
  ((a =? 225) && (b =? 154) && (c =? 128)
   || (a =? 226) && (b =? 128)
        && ((128 <=? c) && (c <=? 138) || (c =? 168) || (c =? 169)
            || (c =? 175))
   || (a =? 226) && (b =? 129) && (c =? 159)
   || (a =? 227) && (b =? 128) && (c =? 128))%N.

(** [strings.TrimSpace(s) == ""]: every rune of [s] is white space. *)
Fixpoint trimsToEmpty (s : string) : bool :=
  match s with
  | EmptyString => true
  | String c1 s1 =>
      if isSpace1 c1 then trimsToEmpty s1
      else
        match s1 with
        | EmptyString => false
        | String c2 s2 =>
            if isSpace2 c1 c2 then trimsToEmpty s2
            else
              match s2 with
              | EmptyString => false
              | String c3 s3 =>
                  if isSpace3 c1 c2 c3 then trimsToEmpty s3 else false
              end
        end
  end.

(** [strings.Split(s, "_")]: the pieces of [s] between underscores. *)
Fixpoint splitUnderscore (s : string) : list string :=
  match s with
  | EmptyString => [EmptyString]
  | String c s' =>
      if Ascii.eqb c "_"%char then EmptyString :: splitUnderscore s'
      else
        match splitUnderscore s' with
        | [] => [String c EmptyString]
        | p :: ps => String c p :: ps
        end
  end.

End Strings.
Import Strings.

(** ** The decision package: data *)

(** [decision.Decision]. *)
Record Decision := mkDecision {
  Symbol : string;
  Action : string;
  Leverage : Z;
  PositionSizeUSD : Q;
  EntryPrice : Q;
  StopLoss : Q;
  TakeProfit : Q;
  Confidence : Z;
  RiskUSD : Q;
  Reasoning : string;
  InvalidationCondition : string
}.

(** The rejection reasons of [validateDecision], one per [fmt.Errorf]. *)
Inductive ValidationError :=
| InvalidAction (action : string)
| LeverageOutOfRange (maxLeverage leverage : Z)
| PositionSizeNotPositive (size : Q)
| PositionValueTooLarge (btcEth : bool) (maxPositionValue size : Q)
| EntryPriceNotPositive (entry : Q)
| StopOrTargetNotPositive
| MissingInvalidationCondition (increase : bool)
| LongStopNotBelowEntry (stop entry : Q)
| LongTargetNotAboveEntry (target entry : Q)
| ShortStopNotAboveEntry (stop entry : Q)
| ShortTargetNotBelowEntry (target entry : Q)
| RiskRewardTooLow (ratio entry stop target risk reward : Q)
| DecreaseSizeNotPositive (size : Q)
| DecreaseMissingReasoning
| UpdateStopOrTargetNotPositive
| UpdateMissingReasoning.

Definition validActions : list string :=
  [ "open_long"; "open_short"; "close_long"; "close_short";
    "increase_long"; "increase_short"; "decrease_long"; "decrease_short";
    "hold"; "wait"; "update_loss_profit" ].

Definition isValidAction (a : string) : bool :=
  existsb (String.eqb a) validActions.

Definition isOpenOrIncrease (a : string) : bool :=
  String.eqb a "open_long" || String.eqb a "open_short"
  || String.eqb a "increase_long" || String.eqb a "increase_short".

Definition isLongEntry (a : string) : bool :=
  String.eqb a "open_long" || String.eqb a "increase_long".

Definition isShortEntry (a : string) : bool :=
  String.eqb a "open_short" || String.eqb a "increase_short".

Definition isIncrease (a : string) : bool :=
  String.eqb a "increase_long" || String.eqb a "increase_short".

Definition isBtcEth (symbol : string) : bool :=
  String.eqb symbol "BTCUSDT" || String.eqb symbol "ETHUSDT".

(** [validateDecision]: [None] is acceptance. *)
Definition validateDecision (d : Decision) (accountEquity : Q)
    (btcEthLeverage altcoinLeverage : Z) : option ValidationError :=
  if negb (isValidAction (Action d)) then Some (InvalidAction (Action d))
  else
    let entryChecks : option ValidationError :=
      if isOpenOrIncrease (Action d) then
        let maxLeverage :=
          if isBtcEth (Symbol d) then btcEthLeverage else altcoinLeverage in
        let maxPositionValue :=
          if isBtcEth (Symbol d) then fmul accountEquity 10
          else fmul accountEquity 5 in
        if ((Leverage d <=? 0) || (Leverage d >? maxLeverage))%Z then
          Some (LeverageOutOfRange maxLeverage (Leverage d))
        else if fle (PositionSizeUSD d) 0 then
          Some (PositionSizeNotPositive (PositionSizeUSD d))
        else
          let tolerance := fmul maxPositionValue (round64 0.01) in
          if fgt (PositionSizeUSD d) (fadd maxPositionValue tolerance) then
            Some (PositionValueTooLarge (isBtcEth (Symbol d))
                    maxPositionValue (PositionSizeUSD d))
          else if fle (EntryPrice d) 0 then
            Some (EntryPriceNotPositive (EntryPrice d))
          else if fle (StopLoss d) 0 || fle (TakeProfit d) 0 then
            Some StopOrTargetNotPositive
          else if trimsToEmpty (InvalidationCondition d) then
            Some (MissingInvalidationCondition (isIncrease (Action d)))
          else
            let direction : option ValidationError :=
              if isLongEntry (Action d) then
                if fge (StopLoss d) (EntryPrice d) then
                  Some (LongStopNotBelowEntry (StopLoss d) (EntryPrice d))
                else if fle (TakeProfit d) (EntryPrice d) then
                  Some (LongTargetNotAboveEntry (TakeProfit d) (EntryPrice d))
                else None
              else if isShortEntry (Action d) then
                if fle (StopLoss d) (EntryPrice d) then
                  Some (ShortStopNotAboveEntry (StopLoss d) (EntryPrice d))
                else if fge (TakeProfit d) (EntryPrice d) then
                  Some (ShortTargetNotBelowEntry (TakeProfit d) (EntryPrice d))
                else None
              else None in
            match direction with
            | Some e => Some e
            | None =>
                let '(riskPercent, rewardPercent, riskRewardRatio) :=
                  if isLongEntry (Action d) then
                    let risk :=
                      fmul (fdiv (fsub (EntryPrice d) (StopLoss d))
                              (EntryPrice d)) 100 in
                    let reward :=
                      fmul (fdiv (fsub (TakeProfit d) (EntryPrice d))
                              (EntryPrice d)) 100 in
                    (risk, reward,
                     if fgt risk 0 then fdiv reward risk else 0%Q)
                  else if isShortEntry (Action d) then
                    let risk :=
                      fmul (fdiv (fsub (StopLoss d) (EntryPrice d))
                              (EntryPrice d)) 100 in
                    let reward :=
                      fmul (fdiv (fsub (EntryPrice d) (TakeProfit d))
                              (EntryPrice d)) 100 in
                    (risk, reward,
                     if fgt risk 0 then fdiv reward risk else 0%Q)
                  else (0%Q, 0%Q, 0%Q) in
                if flt riskRewardRatio 2.0 then
                  Some (RiskRewardTooLow riskRewardRatio (EntryPrice d)
                          (StopLoss d) (TakeProfit d) riskPercent rewardPercent)
                else None
            end
      else None in
    match entryChecks with
    | Some e => Some e
    | None =>
        let decreaseChecks : option ValidationError :=
          if String.eqb (Action d) "decrease_long"
             || String.eqb (Action d) "decrease_short" then
            if fle (PositionSizeUSD d) 0 then
              Some (DecreaseSizeNotPositive (PositionSizeUSD d))
            else if trimsToEmpty (Reasoning d) then
              Some DecreaseMissingReasoning
            else None
          else None in
        match decreaseChecks with
        | Some e => Some e
        | None =>
            if String.eqb (Action d) "update_loss_profit" then
              if fle (StopLoss d) 0 || fle (TakeProfit d) 0 then
                Some UpdateStopOrTargetNotPositive
              else if trimsToEmpty (Reasoning d) then
                Some UpdateMissingReasoning
              else None
            else None
        end
    end.

(** [validateDecisions]: the first failing decision, with its index from 1. *)
Fixpoint validateDecisionsFrom (i : nat) (decisions : list Decision)
    (accountEquity : Q) (btcEthLeverage altcoinLeverage : Z)
    : option (nat * ValidationError) :=
  match decisions with
  | [] => None
  | d :: rest =>
      match validateDecision d accountEquity btcEthLeverage altcoinLeverage with
      | Some e => Some (S i, e)
      | None =>
          validateDecisionsFrom (S i) rest accountEquity btcEthLeverage
            altcoinLeverage
      end
  end.

Definition validateDecisions (decisions : list Decision) (accountEquity : Q)
    (btcEthLeverage altcoinLeverage : Z) : option (nat * ValidationError) :=
  validateDecisionsFrom 0 decisions accountEquity btcEthLeverage
    altcoinLeverage.

(** ** The trader package: ordering of a batch

    [sortDecisionsByPriority] is in the source twice, in [unnamed/part_011]
    and in the trader of [tradingview/test_curl.sh] (section "The second
    trader" below): the same text but for the closure [getActionPriority].
    What stands below the closure is modelled once, over the closure. *)

(** [sorted[i], sorted[j] = sorted[j], sorted[i]]. *)
Definition swap (sorted : list Decision) (i j : nat) : list Decision :=
  match sorted !! i, sorted !! j with
  | Some x, Some y => <[j:=x]> (<[i:=y]> sorted)
  | _, _ => sorted
  end.

Section ExchangeSort.

Variable getActionPriority : string -> Z.

(** One test of the inner loop at indices [i] and [j]. *)
Definition compareSwap (sorted : list Decision) (i j : nat) : list Decision :=
  match sorted !! i, sorted !! j with
  | Some x, Some y =>
      if (getActionPriority (Action x) >? getActionPriority (Action y))%Z
      then swap sorted i j
      else sorted
  | _, _ => sorted
  end.

(** [for j := ...; j < len(sorted); j++], with [n] iterations left. *)
Fixpoint innerLoop (n i j : nat) (sorted : list Decision) : list Decision :=
  match n with
  | O => sorted
  | S n' => innerLoop n' i (S j) (compareSwap sorted i j)
  end.

(** [for i := ...; i < len(sorted)-1; i++], with [n] iterations left. *)
Fixpoint outerLoop (n i : nat) (sorted : list Decision) : list Decision :=
  match n with
  | O => sorted
  | S n' =>
      outerLoop n' (S i) (innerLoop (length sorted - S i) i (S i) sorted)
  end.

(** The early return, the copy and the two loops. *)
Definition exchangeSort (decisions : list Decision) : list Decision :=
  if (length decisions <=? 1)%nat then decisions
  else outerLoop (length decisions - 1) 0 decisions.

End ExchangeSort.

(** The closure [getActionPriority] of [unnamed/part_011]. *)
Definition getActionPriority (action : string) : Z :=
  if String.eqb action "close_long" || String.eqb action "close_short" then 1
  else if String.eqb action "open_long" || String.eqb action "open_short"
  then 2
  else if String.eqb action "hold" || String.eqb action "wait" then 3
  else 999.

Definition sortDecisionsByPriority (decisions : list Decision)
    : list Decision :=
  exchangeSort getActionPriority decisions.

(** ** External collaborators *)

Definition Time := Z.

Definition nanosPerMinute : Z := 60000000000.
Definition nanosPerHour : Z := 3600000000000.
Definition nanosPerMilli : Z := 1000000.

(** A Go pair [(value, error)]. *)
Inductive result (A : Type) :=
| Ok (a : A)
| Err (msg : string).
Arguments Ok {A} a.
Arguments Err {A} msg.

(** One element of [Trader.GetPositions()]: the keys the source reads.
    [leverage] is read with the two-valued type assertion, the others with
    the panicking one. *)
Record RawPosition := mkRawPosition {
  rp_symbol : string;
  rp_side : string;
  rp_entryPrice : Q;
  rp_markPrice : Q;
  rp_positionAmt : Q;
  rp_unRealizedProfit : Q;
  rp_liquidationPrice : Q;
  rp_leverage : option Q
}.

(** The result of [Trader.GetBalance()]: the three keys the source reads,
    each with the two-valued type assertion. *)
Record RawBalance := mkRawBalance {
  rb_totalWalletBalance : option Q;
  rb_totalUnrealizedProfit : option Q;
  rb_availableBalance : option Q
}.

(** [decision.PositionInfo]. *)
Record PositionInfo := mkPositionInfo {
  pi_Symbol : string;
  pi_Side : string;
  pi_EntryPrice : Q;
  pi_MarkPrice : Q;
  pi_Quantity : Q;
  pi_Leverage : Z;
  pi_UnrealizedPnL : Q;
  pi_UnrealizedPnLPct : Q;
  pi_LiquidationPrice : Q;
  pi_MarginUsed : Q;
  pi_UpdateTime : Z;
  pi_InvalidationCondition : string;
  pi_Reasoning : string;
  pi_MaxProfitPct : Q;
  pi_MaxLossPct : Q;
  pi_DrawdownFromPeakPct : Q;
  pi_StopLossPrice : Q;
  pi_TakeProfitPrice : Q
}.

(** [decision.AccountInfo]. *)
Record AccountInfo := mkAccountInfo {
  TotalEquity : Q;
  AvailableBalance : Q;
  TotalPnL : Q;
  TotalPnLPct : Q;
  MarginUsed : Q;
  MarginUsedPct : Q;
  PositionCount : Z
}.

(** [decision.Context], without the fields that only feed the prompt text
    ([CurrentTime], [RuntimeMinutes], [Performance], the market data maps). *)
Record Context := mkContext {
  ctx_CallCount : Z;
  ctx_Account : AccountInfo;
  ctx_Positions : list PositionInfo;
  ctx_CandidateCoins : list string;
  ctx_BTCETHLeverage : Z;
  ctx_AltcoinLeverage : Z;
  ctx_ScanIntervalMinutes : Z
}.

(** The errors of the trader package, one constructor per error the source
    builds or passes on; [remaining] is the [time.Duration] left of a pause,
    in nanoseconds.  [ErrPriceDrift] is built by the second trader only. *)
Inductive Error :=
| ErrExternal (msg : string)
| ErrAlreadyLong (symbol : string)
| ErrAlreadyShort (symbol : string)
| ErrUnknownAction (action : string)
| ErrGetBalance (msg : string)
| ErrGetPositions (msg : string)
| ErrCoinPool (msg : string)
| ErrBuildContext (e : Error)
| ErrRebuildContext (e : Error)
| ErrCallAI (msg : string)
| ErrValidation (index : nat) (e : ValidationError)
| ErrGetDecision (e : Error)
| ErrBackoffPause (stopLossCount : Z) (remaining : Z)
| ErrRiskPause (remaining : Z)
| ErrPriceDrift (priceDiff : Q).

(** [logger.DecisionAction], without the time stamp. *)
Record DecisionAction := mkDecisionAction {
  da_Action : string;
  da_Symbol : string;
  da_Quantity : Q;
  da_Leverage : Z;
  da_Price : Q;
  da_OrderID : Z;
  da_Success : bool;
  da_Error : option Error
}.

(** [logger.DecisionRecord]: the fields the control flow writes. *)
Record DecisionRecord := mkDecisionRecord {
  rec_Success : bool;
  rec_ErrorMessage : option Error;
  rec_Decisions : list DecisionAction;
  rec_ExecutionLog : list (string * string * bool)
}.

(** The calls made to the collaborators, in the order they are made.
    [CallAI] stands for the whole AI step of [GetFullDecision]: the reads
    of market data and open interest for the prompt, the optional chart
    screenshot and the call of the model are one entry of the trace, not
    one each. *)
Inductive Call :=
| CallGetBalance
| CallGetPositions
| CallOpenLong (symbol : string) (quantity : Q) (leverage : Z)
| CallOpenShort (symbol : string) (quantity : Q) (leverage : Z)
| CallCloseLong (symbol : string) (quantity : Q)
| CallCloseShort (symbol : string) (quantity : Q)
| CallSetStopLoss (symbol side : string) (quantity price : Q)
| CallSetTakeProfit (symbol side : string) (quantity price : Q)
| CallMarketGet (symbol : string) (interval : Z)
| CallCoinPool (limit : Z)
| CallAI (ctx : Context)
| CallLogDecision (record : DecisionRecord).

(** The collaborators, as operations on an abstract world [W].
    - [trader_*]: the [Trader] interface; an order result carries the
      [orderId] when it is an [int64];
    - [market_Get]: [market.Get], reduced to [CurrentPrice];
    - [pool_GetMergedCoinPool]: reduced to [AllSymbols];
    - [ai_GetDecisions]: the AI step as one operation, that is
      [GetFullDecision] up to the validation of the batch:
      [fetchMarketDataForContext] (its calls of [market.Get] and of the
      open-interest pool), the two prompts, the optional chart screenshot,
      the call of the model and [extractDecisions]; an error of any of them
      is its error;
    - [time_Now]: the clock;
    - [logger_LogDecision]: the decision logger. *)
Class External (W : Type) := {
  time_Now : W -> Time * W;
  trader_GetBalance : W -> result RawBalance * W;
  trader_GetPositions : W -> result (list RawPosition) * W;
  trader_OpenLong : string -> Q -> Z -> W -> result (option Z) * W;
  trader_OpenShort : string -> Q -> Z -> W -> result (option Z) * W;
  trader_CloseLong : string -> Q -> W -> result (option Z) * W;
  trader_CloseShort : string -> Q -> W -> result (option Z) * W;
  trader_SetStopLoss : string -> string -> Q -> Q -> W -> option string * W;
  trader_SetTakeProfit : string -> string -> Q -> Q -> W -> option string * W;
  market_Get : string -> Z -> W -> result Q * W;
  pool_GetMergedCoinPool : Z -> W -> result (list string) * W;
  ai_GetDecisions : Context -> W -> result (list Decision) * W;
  logger_LogDecision : DecisionRecord -> W -> W
}.

(** ** The trader package: state *)

(** [AutoTraderConfig]: the fields the control flow reads. *)
Record AutoTraderConfig := mkAutoTraderConfig {
  ScanIntervalMinutes : Z;
  BTCETHLeverage : Z;
  AltcoinLeverage : Z;
  EnableTrailingStop : bool;
  TrailingStopDistance : Q;
  TrailingStopActivation : Q;
  EnablePartialTakeProfit : bool;
  EnableExponentialBackoff : bool;
  BackoffBaseMinutes : Z;
  BackoffMultiplier : Q;
  BackoffMaxMinutes : Z;
  BackoffResetHours : Z
}.

(** [PnLTracking]; [TrackedEntryPrice] is its field [EntryPrice]. *)
Record PnLTracking := mkPnLTracking {
  MaxProfitPct : Q;
  MaxLossPct : Q;
  TakeProfitPrice : Q;
  StopLossPrice : Q;
  TrackedEntryPrice : Q;
  PartialTP50Executed : bool;
  PartialTP100Executed : bool;
  TrailingStopActivated : bool
}.

(** [AutoTrader]: the mutable fields and the configuration. *)
Record AutoTrader := mkAutoTrader {
  config : AutoTraderConfig;
  initialBalance : Q;
  dailyPnL : Q;
  lastResetTime : Time;
  stopUntil : Time;
  callCount : Z;
  positionFirstSeenTime : gmap string Z;
  positionInvalidationConditions : gmap string string;
  positionReasonings : gmap string string;
  positionPnLTracking : gmap string PnLTracking;
  stopLossCount : Z;
  lastStopLossTime : Time;
  backoffUntil : Time;
  lastTotalEquity : Q
}.

(** Field updates. *)
Definition withTracking (t : gmap string PnLTracking) (a : AutoTrader)
    : AutoTrader :=
  mkAutoTrader (config a) (initialBalance a) (dailyPnL a) (lastResetTime a)
    (stopUntil a) (callCount a) (positionFirstSeenTime a)
    (positionInvalidationConditions a) (positionReasonings a) t
    (stopLossCount a) (lastStopLossTime a) (backoffUntil a)
    (lastTotalEquity a).

Definition withFirstSeen (m : gmap string Z) (a : AutoTrader) : AutoTrader :=
  mkAutoTrader (config a) (initialBalance a) (dailyPnL a) (lastResetTime a)
    (stopUntil a) (callCount a) m
    (positionInvalidationConditions a) (positionReasonings a)
    (positionPnLTracking a)
    (stopLossCount a) (lastStopLossTime a) (backoffUntil a)
    (lastTotalEquity a).

Definition withInvalidationConditions (m : gmap string string)
    (a : AutoTrader) : AutoTrader :=
  mkAutoTrader (config a) (initialBalance a) (dailyPnL a) (lastResetTime a)
    (stopUntil a) (callCount a) (positionFirstSeenTime a)
    m (positionReasonings a) (positionPnLTracking a)
    (stopLossCount a) (lastStopLossTime a) (backoffUntil a)
    (lastTotalEquity a).

Definition withReasonings (m : gmap string string) (a : AutoTrader)
    : AutoTrader :=
  mkAutoTrader (config a) (initialBalance a) (dailyPnL a) (lastResetTime a)
    (stopUntil a) (callCount a) (positionFirstSeenTime a)
    (positionInvalidationConditions a) m (positionPnLTracking a)
    (stopLossCount a) (lastStopLossTime a) (backoffUntil a)
    (lastTotalEquity a).

Definition withCallCount (n : Z) (a : AutoTrader) : AutoTrader :=
  mkAutoTrader (config a) (initialBalance a) (dailyPnL a) (lastResetTime a)
    (stopUntil a) n (positionFirstSeenTime a)
    (positionInvalidationConditions a) (positionReasonings a)
    (positionPnLTracking a)
    (stopLossCount a) (lastStopLossTime a) (backoffUntil a)
    (lastTotalEquity a).

Definition withStopLossCount (n : Z) (a : AutoTrader) : AutoTrader :=
  mkAutoTrader (config a) (initialBalance a) (dailyPnL a) (lastResetTime a)
    (stopUntil a) (callCount a) (positionFirstSeenTime a)
    (positionInvalidationConditions a) (positionReasonings a)
    (positionPnLTracking a)
    n (lastStopLossTime a) (backoffUntil a)
    (lastTotalEquity a).

Definition withLastStopLossTime (t : Time) (a : AutoTrader) : AutoTrader :=
  mkAutoTrader (config a) (initialBalance a) (dailyPnL a) (lastResetTime a)
    (stopUntil a) (callCount a) (positionFirstSeenTime a)
    (positionInvalidationConditions a) (positionReasonings a)
    (positionPnLTracking a)
    (stopLossCount a) t (backoffUntil a)
    (lastTotalEquity a).

Definition withBackoffUntil (t : Time) (a : AutoTrader) : AutoTrader :=
  mkAutoTrader (config a) (initialBalance a) (dailyPnL a) (lastResetTime a)
    (stopUntil a) (callCount a) (positionFirstSeenTime a)
    (positionInvalidationConditions a) (positionReasonings a)
    (positionPnLTracking a)
    (stopLossCount a) (lastStopLossTime a) t
    (lastTotalEquity a).

Definition withLastTotalEquity (e : Q) (a : AutoTrader) : AutoTrader :=
  mkAutoTrader (config a) (initialBalance a) (dailyPnL a) (lastResetTime a)
    (stopUntil a) (callCount a) (positionFirstSeenTime a)
    (positionInvalidationConditions a) (positionReasonings a)
    (positionPnLTracking a)
    (stopLossCount a) (lastStopLossTime a) (backoffUntil a)
    e.

Definition withDailyReset (t : Time) (a : AutoTrader) : AutoTrader :=
  mkAutoTrader (config a) (initialBalance a) 0%Q t
    (stopUntil a) (callCount a) (positionFirstSeenTime a)
    (positionInvalidationConditions a) (positionReasonings a)
    (positionPnLTracking a)
    (stopLossCount a) (lastStopLossTime a) (backoffUntil a)
    (lastTotalEquity a).

(** ** The system state and its monad *)

(** The state a cycle runs in: the [AutoTrader] object, the world of the
    collaborators, the trace of the calls made so far, and the
    [DecisionRecord] of the running cycle (the object [record] that
    [runCycle] creates and passes by pointer). *)
Record Sys (W : Type) := mkSys {
  trader : AutoTrader;
  world : W;
  calls : list Call;
  record : DecisionRecord
}.
Arguments mkSys {W} trader world calls record.
Arguments trader {W} s.
Arguments world {W} s.
Arguments calls {W} s.
Arguments record {W} s.

Definition M (W A : Type) : Type := Sys W -> A * Sys W.

Definition ret {W A} (a : A) : M W A := fun s => (a, s).

Definition bind {W A B} (m : M W A) (k : A -> M W B) : M W B :=
  fun s => let (a, s') := m s in k a s'.

Notation "'let*' x ':=' m 'in' k" := (bind m (fun x => k))
  (at level 10, x pattern, m at level 100, k at level 200).

Definition getTrader {W} : M W AutoTrader := fun s => (trader s, s).

Definition modifyTrader {W} (f : AutoTrader -> AutoTrader) : M W unit :=
  fun s => (tt, mkSys (f (trader s)) (world s) (calls s) (record s)).

Definition getRecord {W} : M W DecisionRecord := fun s => (record s, s).

Definition modifyRecord {W} (f : DecisionRecord -> DecisionRecord)
    : M W unit :=
  fun s => (tt, mkSys (trader s) (world s) (calls s) (f (record s))).

(** A call to a collaborator: the call is appended to the trace and the
    world answers. *)
Definition external {W A} (c : Call) (op : W -> A * W) : M W A :=
  fun s =>
    let (a, w') := op (world s) in
    (a, mkSys (trader s) w' (calls s ++ [c]) (record s)).

(** [time.Now()] leaves no entry in the trace. *)
Definition now {W} `{External W} : M W Time :=
  fun s =>
    let (t, w') := time_Now (world s) in
    (t, mkSys (trader s) w' (calls s) (record s)).

(** [for _, x := range xs { body }] with a loop-carried value. *)
Fixpoint forEach {W A B} (xs : list A) (body : A -> B -> M W B) (acc : B)
    : M W B :=
  match xs with
  | [] => ret acc
  | x :: rest => let* acc' := body x acc in forEach rest body acc'
  end.

Section Collaborators.

Context {W : Type} `{External W}.

Definition GetBalance : M W (result RawBalance) :=
  external CallGetBalance trader_GetBalance.

Definition GetPositions : M W (result (list RawPosition)) :=
  external CallGetPositions trader_GetPositions.

Definition OpenLong (symbol : string) (quantity : Q) (leverage : Z)
    : M W (result (option Z)) :=
  external (CallOpenLong symbol quantity leverage)
    (trader_OpenLong symbol quantity leverage).

Definition OpenShort (symbol : string) (quantity : Q) (leverage : Z)
    : M W (result (option Z)) :=
  external (CallOpenShort symbol quantity leverage)
    (trader_OpenShort symbol quantity leverage).

Definition CloseLong (symbol : string) (quantity : Q)
    : M W (result (option Z)) :=
  external (CallCloseLong symbol quantity) (trader_CloseLong symbol quantity).

Definition CloseShort (symbol : string) (quantity : Q)
    : M W (result (option Z)) :=
  external (CallCloseShort symbol quantity)
    (trader_CloseShort symbol quantity).

Definition SetStopLoss (symbol side : string) (quantity price : Q)
    : M W (option string) :=
  external (CallSetStopLoss symbol side quantity price)
    (trader_SetStopLoss symbol side quantity price).

Definition SetTakeProfit (symbol side : string) (quantity price : Q)
    : M W (option string) :=
  external (CallSetTakeProfit symbol side quantity price)
    (trader_SetTakeProfit symbol side quantity price).

Definition marketGet (symbol : string) (interval : Z) : M W (result Q) :=
  external (CallMarketGet symbol interval) (market_Get symbol interval).

Definition GetMergedCoinPool (limit : Z) : M W (result (list string)) :=
  external (CallCoinPool limit) (pool_GetMergedCoinPool limit).

Definition LogDecision : M W unit :=
  fun s =>
    (tt, mkSys (trader s) (logger_LogDecision (record s) (world s))
           (calls s ++ [CallLogDecision (record s)]) (record s)).

(** ** The decision package: obtaining a batch *)

(** [GetFullDecision]: on any error the caller receives no decision.  Its
    steps before the validation are the one operation [ai_GetDecisions];
    nothing is stated here of the calls made inside that operation. *)
Definition GetFullDecision (ctx : Context) : M W (Error + list Decision) :=
  let* r := external (CallAI ctx) (ai_GetDecisions ctx) in
  match r with
  | Err msg => ret (inl (ErrCallAI msg))
  | Ok decisions =>
      match validateDecisions decisions (TotalEquity (ctx_Account ctx))
              (ctx_BTCETHLeverage ctx) (ctx_AltcoinLeverage ctx) with
      | Some (i, e) => ret (inl (ErrValidation i e))
      | None => ret (inr decisions)
      end
  end.

End Collaborators.

(** ** The trader package: the per-cycle refresh *)

Definition posKeyOf (symbol side : string) : string :=
  symbol ++ "_" ++ side.

Definition withMaxProfitPct (x : Q) (t : PnLTracking) : PnLTracking :=
  mkPnLTracking x (MaxLossPct t) (TakeProfitPrice t) (StopLossPrice t)
    (TrackedEntryPrice t) (PartialTP50Executed t) (PartialTP100Executed t)
    (TrailingStopActivated t).

Definition withMaxLossPct (x : Q) (t : PnLTracking) : PnLTracking :=
  mkPnLTracking (MaxProfitPct t) x (TakeProfitPrice t) (StopLossPrice t)
    (TrackedEntryPrice t) (PartialTP50Executed t) (PartialTP100Executed t)
    (TrailingStopActivated t).

Definition withPartialTP50Executed (b : bool) (t : PnLTracking)
    : PnLTracking :=
  mkPnLTracking (MaxProfitPct t) (MaxLossPct t) (TakeProfitPrice t)
    (StopLossPrice t) (TrackedEntryPrice t) b (PartialTP100Executed t)
    (TrailingStopActivated t).

Definition withPartialTP100Executed (b : bool) (t : PnLTracking)
    : PnLTracking :=
  mkPnLTracking (MaxProfitPct t) (MaxLossPct t) (TakeProfitPrice t)
    (StopLossPrice t) (TrackedEntryPrice t) (PartialTP50Executed t) b
    (TrailingStopActivated t).

Definition withTrailingStopActivated (b : bool) (t : PnLTracking)
    : PnLTracking :=
  mkPnLTracking (MaxProfitPct t) (MaxLossPct t) (TakeProfitPrice t)
    (StopLossPrice t) (TrackedEntryPrice t) (PartialTP50Executed t)
    (PartialTP100Executed t) b.

(** The values the position loop of [buildTradingContext] carries. *)
Record BuildAcc := mkBuildAcc {
  acc_positionInfos : list PositionInfo;
  acc_totalMarginUsed : Q;
  acc_currentPositionKeys : gset string
}.

(** The leverage-adjusted profit percentage of a live position. *)
Definition pnlPctOf (side : string) (entryPrice markPrice : Q) (leverage : Z)
    : Q :=
  if String.eqb side "long" then
    fmul (fmul (fdiv (fsub markPrice entryPrice) entryPrice) (ofZ leverage))
      100
  else
    fmul (fmul (fdiv (fsub entryPrice markPrice) entryPrice) (ofZ leverage))
      100.

(** The extrema update of [buildTradingContext] on one tracking entry. *)
Definition updateExtrema (pnlPct : Q) (t : PnLTracking) : PnLTracking :=
  let t1 := if fgt pnlPct (MaxProfitPct t) then withMaxProfitPct pnlPct t
            else t in
  if flt pnlPct (MaxLossPct t1) then withMaxLossPct pnlPct t1 else t1.

Section Refresh.

Context {W : Type} `{External W}.

(** The body of [for _, pos := range positions] in [buildTradingContext]. *)
Definition buildPosition (pos : RawPosition) (acc : BuildAcc)
    : M W BuildAcc :=
  let symbol := rp_symbol pos in
  let side := rp_side pos in
  let entryPrice := rp_entryPrice pos in
  let markPrice := rp_markPrice pos in
  let quantity :=
    if flt (rp_positionAmt pos) 0 then (- rp_positionAmt pos)%Q
    else rp_positionAmt pos in
  let leverage :=
    match rp_leverage pos with
    | Some lev => truncZ lev
    | None => 10
    end in
  let marginUsed := (quantity * markPrice / ofZ leverage)%Q in
  let pnlPct := pnlPctOf side entryPrice markPrice leverage in
  let posKey := posKeyOf symbol side in
  let* at0 := getTrader in
  let* _ :=
    match positionFirstSeenTime at0 !! posKey with
    | Some _ => ret tt
    | None =>
        let* t := now in
        modifyTrader (fun a =>
          withFirstSeen
            (<[posKey := (t / nanosPerMilli)%Z]> (positionFirstSeenTime a)) a)
    end in
  let* at1 := getTrader in
  let updateTime := default 0 (positionFirstSeenTime at1 !! posKey) in
  let invalidationCondition :=
    default "" (positionInvalidationConditions at1 !! symbol) in
  let tracking0 :=
    match positionPnLTracking at1 !! posKey with
    | Some t => t
    | None => mkPnLTracking pnlPct pnlPct 0 0 0 false false false
    end in
  let tracking := updateExtrema pnlPct tracking0 in
  let* _ :=
    modifyTrader (fun a =>
      withTracking (<[posKey := tracking]> (positionPnLTracking a)) a) in
  let drawdownFromPeakPct :=
    if fgt (MaxProfitPct tracking) 0 then (MaxProfitPct tracking - pnlPct)%Q
    else 0%Q in
  let openingReason := default "" (positionReasonings at1 !! symbol) in
  ret (mkBuildAcc
         (acc_positionInfos acc ++
          [mkPositionInfo symbol side entryPrice markPrice quantity leverage
             (rp_unRealizedProfit pos) pnlPct (rp_liquidationPrice pos)
             marginUsed updateTime invalidationCondition openingReason
             (MaxProfitPct tracking) (MaxLossPct tracking)
             drawdownFromPeakPct (StopLossPrice tracking)
             (TakeProfitPrice tracking)])
         (acc_totalMarginUsed acc + marginUsed)%Q
         ({[posKey]} ∪ acc_currentPositionKeys acc)).

(** The three clean-up loops of [buildTradingContext]: a key of
    [positionFirstSeenTime] that is no longer live is deleted from it and from
    [positionPnLTracking]; a symbol that is no longer live is deleted from
    the two symbol-keyed maps. *)
Definition cleanUp (currentPositionKeys currentSymbols : gset string)
    (a : AutoTrader) : AutoTrader :=
  let stale (key : string) : Prop :=
    key ∈ dom (positionFirstSeenTime a) ∧ key ∉ currentPositionKeys in
  let firstSeen :=
    filter (fun kv : string * Z => ¬ stale kv.1) (positionFirstSeenTime a) in
  let tracking :=
    filter (fun kv : string * PnLTracking => ¬ stale kv.1)
      (positionPnLTracking a) in
  let conditions :=
    filter (fun kv : string * string => kv.1 ∈ currentSymbols)
      (positionInvalidationConditions a) in
  let reasonings :=
    filter (fun kv : string * string => kv.1 ∈ currentSymbols)
      (positionReasonings a) in
  withReasonings reasonings
    (withInvalidationConditions conditions
       (withTracking tracking (withFirstSeen firstSeen a))).

(** [buildTradingContext].  The performance analysis of the decision logger
    only feeds the prompt and is left out. *)
Definition buildTradingContext : M W (Error + Context) :=
  let* b := GetBalance in
  match b with
  | Err msg => ret (inl (ErrGetBalance msg))
  | Ok balance =>
      let totalWalletBalance := default 0%Q (rb_totalWalletBalance balance) in
      let totalUnrealizedProfit :=
        default 0%Q (rb_totalUnrealizedProfit balance) in
      let availableBalance := default 0%Q (rb_availableBalance balance) in
      let totalEquity := (totalWalletBalance + totalUnrealizedProfit)%Q in
      let* ps := GetPositions in
      match ps with
      | Err msg => ret (inl (ErrGetPositions msg))
      | Ok positions =>
          let* acc :=
            forEach positions buildPosition (mkBuildAcc [] 0%Q ∅) in
          let currentSymbols : gset string :=
            list_to_set (map rp_symbol positions) in
          let* _ :=
            modifyTrader (cleanUp (acc_currentPositionKeys acc)
                            currentSymbols) in
          let* mergedPool := GetMergedCoinPool 20 in
          match mergedPool with
          | Err msg => ret (inl (ErrCoinPool msg))
          | Ok candidateCoins =>
              let* a := getTrader in
              let totalPnL := (totalEquity - initialBalance a)%Q in
              let totalPnLPct :=
                if fgt (initialBalance a) 0 then
                  (totalPnL / initialBalance a * 100)%Q
                else 0%Q in
              let marginUsedPct :=
                if fgt totalEquity 0 then
                  (acc_totalMarginUsed acc / totalEquity * 100)%Q
                else 0%Q in
              ret (inr (mkContext (callCount a)
                          (mkAccountInfo totalEquity availableBalance totalPnL
                             totalPnLPct (acc_totalMarginUsed acc)
                             marginUsedPct
                             (Z.of_nat (length (acc_positionInfos acc))))
                          (acc_positionInfos acc) candidateCoins
                          (BTCETHLeverage (config a))
                          (AltcoinLeverage (config a))
                          (ScanIntervalMinutes (config a))))
          end
      end
  end.

End Refresh.

(** ** The trader package: loss circuit breaker *)

(** The classification of [checkStopLossTriggered] for a vanished position,
    once its market price is known: [isStopLoss] at the end of the loop body
    (a [continue] counts as [false]). *)
Definition classifyStopLoss (equityDecreased : bool) (side : string)
    (currentPrice stopLossPrice entryPrice : Q) : bool :=
  if negb equityDecreased then false
  else if fgt stopLossPrice 0 then
    if String.eqb side "long" then
      fle currentPrice (fmul stopLossPrice (round64 1.05))
    else fge currentPrice (fmul stopLossPrice (round64 0.95))
  else if fgt entryPrice 0 then
    let isProfitable :=
      if String.eqb side "long" then fgt currentPrice entryPrice
      else flt currentPrice entryPrice in
    negb isProfitable
  else true.

(** [backoffMinutes] after the multiplication loop and the cap. *)
Definition backoffMinutesOf (cfg : AutoTraderConfig) (stopLossCount : Z)
    : Q :=
  let grown :=
    Nat.iter (Z.to_nat (stopLossCount - 1))
      (fun m => fmul m (BackoffMultiplier cfg))
      (ofZ (BackoffBaseMinutes cfg)) in
  if fgt grown (ofZ (BackoffMaxMinutes cfg)) then ofZ (BackoffMaxMinutes cfg)
  else grown.

Section CircuitBreaker.

Context {W : Type} `{External W}.

(** The body of [for posKey := range at.positionPnLTracking]. *)
Definition checkStopLossKey (currentPositionKeys : gset string)
    (equityDecreased : bool) (posKey : string) (_ : unit) : M W unit :=
  if decide (posKey ∈ currentPositionKeys) then ret tt
  else
    let* a := getTrader in
    match positionPnLTracking a !! posKey with
    | None => ret tt
    | Some tracking =>
        match splitUnderscore posKey with
        | [symbol; side] =>
            let* md := marketGet symbol 3 in
            match md with
            | Err _ => ret tt
            | Ok currentPrice =>
                if classifyStopLoss equityDecreased side currentPrice
                     (StopLossPrice tracking) (TrackedEntryPrice tracking)
                then
                  let* _ :=
                    modifyTrader (fun a =>
                      withStopLossCount (stopLossCount a + 1) a) in
                  let* t1 := now in
                  let* _ := modifyTrader (withLastStopLossTime t1) in
                  let* a1 := getTrader in
                  let backoffMinutes :=
                    backoffMinutesOf (config a1) (stopLossCount a1) in
                  let* t2 := now in
                  modifyTrader
                    (withBackoffUntil
                       (t2 + truncZ backoffMinutes * nanosPerMinute)%Z)
                else ret tt
            end
        | _ => ret tt
        end
    end.

(** [checkStopLossTriggered].  Go leaves the order of a map range
    unspecified; the keys are visited in the order of [map_to_list]. *)
Definition checkStopLossTriggered (ctx : Context) : M W unit :=
  let* a := getTrader in
  if negb (EnableExponentialBackoff (config a)) then ret tt
  else
    let currentPositionKeys : gset string :=
      list_to_set
        (map (fun pos => posKeyOf (pi_Symbol pos) (pi_Side pos))
           (ctx_Positions ctx)) in
    let currentEquity := TotalEquity (ctx_Account ctx) in
    let equityDecreased :=
      fgt (lastTotalEquity a) 0 && flt currentEquity (lastTotalEquity a) in
    let* _ :=
      forEach (map fst (map_to_list (positionPnLTracking a)))
        (checkStopLossKey currentPositionKeys equityDecreased) tt in
    modifyTrader (withLastTotalEquity currentEquity).

End CircuitBreaker.

(** ** The trader package: automatic profit and loss controller *)

(** The two price targets of the partial take-profit:
    [(target50Price, target100Price)]. *)
Definition partialTargets (side : string) (tracking : PnLTracking) : Q * Q :=
  let entryPrice := TrackedEntryPrice tracking in
  if String.eqb side "long" then
    let priceMove := fsub (TakeProfitPrice tracking) entryPrice in
    (fadd entryPrice (fmul priceMove 0.5), TakeProfitPrice tracking)
  else
    let priceMove := fsub entryPrice (TakeProfitPrice tracking) in
    (fsub entryPrice (fmul priceMove 0.5), TakeProfitPrice tracking).

(** [reachedTarget] of the two target checks. *)
Definition reachedTarget (side : string) (markPrice target : Q) : bool :=
  if String.eqb side "long" && fge markPrice target then true
  else if String.eqb side "short" && fle markPrice target then true
  else false.

Section Controller.

Context {W : Type} `{External W}.

Definition appendAction (r : DecisionAction) : M W unit :=
  modifyRecord (fun rc =>
    mkDecisionRecord (rec_Success rc) (rec_ErrorMessage rc)
      (rec_Decisions rc ++ [r]) (rec_ExecutionLog rc)).

Definition appendLog (symbol what : string) (ok : bool) : M W unit :=
  modifyRecord (fun rc =>
    mkDecisionRecord (rec_Success rc) (rec_ErrorMessage rc)
      (rec_Decisions rc) (rec_ExecutionLog rc ++ [(symbol, what, ok)])).

(** [executeTrailingStop]. *)
Definition executeTrailingStop (pos : PositionInfo) : M W (option Error) :=
  let actionRecord ok err :=
    mkDecisionAction ("trailing_stop_" ++ pi_Side pos) (pi_Symbol pos)
      (pi_Quantity pos) 0 (pi_MarkPrice pos) 0 ok err in
  let* r :=
    if String.eqb (pi_Side pos) "long" then CloseLong (pi_Symbol pos) 0%Q
    else CloseShort (pi_Symbol pos) 0%Q in
  match r with
  | Err msg =>
      let* _ := appendAction (actionRecord false (Some (ErrExternal msg))) in
      ret (Some (ErrExternal msg))
  | Ok _ =>
      let* _ := appendAction (actionRecord true None) in
      let* _ := appendLog (pi_Symbol pos) ("trailing_stop_" ++ pi_Side pos)
                  true in
      ret None
  end.

(** [executePartialTakeProfit]. *)
Definition executePartialTakeProfit (pos : PositionInfo) (closeRatio : Q)
    : M W (option Error) :=
  let closeQuantity := (pi_Quantity pos * closeRatio)%Q in
  let actionRecord ok err :=
    mkDecisionAction ("partial_tp_" ++ pi_Side pos) (pi_Symbol pos)
      closeQuantity 0 (pi_MarkPrice pos) 0 ok err in
  let* r :=
    if String.eqb (pi_Side pos) "long" then
      CloseLong (pi_Symbol pos) closeQuantity
    else CloseShort (pi_Symbol pos) closeQuantity in
  match r with
  | Err msg =>
      let* _ := appendAction (actionRecord false (Some (ErrExternal msg))) in
      ret (Some (ErrExternal msg))
  | Ok _ =>
      let* _ := appendAction (actionRecord true None) in
      let* _ := appendLog (pi_Symbol pos) ("partial_tp_" ++ pi_Side pos)
                  true in
      ret None
  end.

(** A field assignment through the pointer [tracking]. *)
Definition updateTracking (posKey : string)
    (f : PnLTracking -> PnLTracking) : M W unit :=
  modifyTrader (fun a =>
    withTracking (alter f posKey (positionPnLTracking a)) a).

(** Part 1 of the loop body of [checkTrailingStopAndPartialTP]: the trailing
    stop.  The first component of the answer is [true] when the body ends
    with [continue]. *)
Definition checkTrailingStop (pos : PositionInfo) (tracking : PnLTracking)
    (hasExecuted : bool) : M W (bool * bool) :=
  let* a := getTrader in
  let cfg := config a in
  let posKey := posKeyOf (pi_Symbol pos) (pi_Side pos) in
  if negb (EnableTrailingStop cfg) then ret (false, hasExecuted)
  else
    let activate :=
      negb (TrailingStopActivated tracking)
      && fge (pi_UnrealizedPnLPct pos)
           (fmul (TrailingStopActivation cfg) 100) in
    let* _ :=
      if activate then
        updateTracking posKey (withTrailingStopActivated true)
      else ret tt in
    let activated := TrailingStopActivated tracking || activate in
    if activated then
      let drawdownFromPeak :=
        fdiv (fsub (MaxProfitPct tracking) (pi_UnrealizedPnLPct pos)) 100 in
      if fge drawdownFromPeak (TrailingStopDistance cfg) then
        let* e := executeTrailingStop pos in
        match e with
        | Some _ => ret (true, hasExecuted)
        | None => ret (true, true)
        end
      else ret (false, hasExecuted)
    else ret (false, hasExecuted).

(** Part 2 of the loop body: the two partial take-profit targets. *)
Definition checkPartialTP (pos : PositionInfo) (tracking : PnLTracking)
    (hasExecuted : bool) : M W bool :=
  let* a := getTrader in
  let cfg := config a in
  let posKey := posKeyOf (pi_Symbol pos) (pi_Side pos) in
  if EnablePartialTakeProfit cfg && fgt (TakeProfitPrice tracking) 0 then
    let '(target50Price, target100Price) :=
      partialTargets (pi_Side pos) tracking in
    let* hasExecuted1 :=
      if negb (PartialTP50Executed tracking)
         && reachedTarget (pi_Side pos) (pi_MarkPrice pos) target50Price then
        let* e := executePartialTakeProfit pos 0.5%Q in
        match e with
        | Some _ => ret hasExecuted
        | None =>
            let* _ :=
              updateTracking posKey (withPartialTP50Executed true) in
            ret true
        end
      else ret hasExecuted in
    if negb (PartialTP100Executed tracking)
       && reachedTarget (pi_Side pos) (pi_MarkPrice pos) target100Price then
      let* e := executePartialTakeProfit pos 0.5%Q in
      match e with
      | Some _ => ret hasExecuted1
      | None =>
          let* _ := updateTracking posKey (withPartialTP100Executed true) in
          ret true
      end
    else ret hasExecuted1
  else ret hasExecuted.

(** The body of [for _, pos := range ctx.Positions]. *)
Definition checkPosition (pos : PositionInfo) (hasExecuted : bool)
    : M W bool :=
  let* a := getTrader in
  match positionPnLTracking a !! posKeyOf (pi_Symbol pos) (pi_Side pos) with
  | None => ret hasExecuted
  | Some tracking =>
      let* r := checkTrailingStop pos tracking hasExecuted in
      if r.1 then ret r.2
      else checkPartialTP pos tracking r.2
  end.

(** [checkTrailingStopAndPartialTP]; it always returns [nil], the answer
    here is the final value of [*hasExecuted]. *)
Definition checkTrailingStopAndPartialTP (ctx : Context)
    (hasExecuted : bool) : M W bool :=
  forEach (ctx_Positions ctx) checkPosition hasExecuted.

End Controller.

(** ** The trader package: execution dispatcher *)

Definition withQuantityPrice (quantity price : Q) (r : DecisionAction)
    : DecisionAction :=
  mkDecisionAction (da_Action r) (da_Symbol r) quantity (da_Leverage r) price
    (da_OrderID r) (da_Success r) (da_Error r).

Definition withPrice (price : Q) (r : DecisionAction) : DecisionAction :=
  mkDecisionAction (da_Action r) (da_Symbol r) (da_Quantity r)
    (da_Leverage r) price (da_OrderID r) (da_Success r) (da_Error r).

Definition withOrderID (order : option Z) (r : DecisionAction)
    : DecisionAction :=
  match order with
  | Some orderID =>
      mkDecisionAction (da_Action r) (da_Symbol r) (da_Quantity r)
        (da_Leverage r) (da_Price r) orderID (da_Success r) (da_Error r)
  | None => r
  end.

Definition withOutcome (ok : bool) (err : option Error) (r : DecisionAction)
    : DecisionAction :=
  mkDecisionAction (da_Action r) (da_Symbol r) (da_Quantity r)
    (da_Leverage r) (da_Price r) (da_OrderID r) ok err.

(** The [actionRecord] that [runCycle] creates for a decision. *)
Definition newActionRecord (d : Decision) : DecisionAction :=
  mkDecisionAction (Action d) (Symbol d) 0 (Leverage d) 0 0 false None.

(** The anti-stacking scan of the two open functions: some live position has
    the symbol of the decision and the given side. *)
Definition hasPosition (positions : list RawPosition) (symbol side : string)
    : bool :=
  existsb
    (fun pos => String.eqb (rp_symbol pos) symbol
                && String.eqb (rp_side pos) side)
    positions.

(** The tracking entry written on a successful open. *)
Definition freshTracking (d : Decision) (currentPrice : Q) : PnLTracking :=
  mkPnLTracking 0 0 (TakeProfit d) (StopLoss d) currentPrice false false false.

Section Dispatcher.

Context {W : Type} `{External W}.

(** The bookkeeping of a successful open: first-seen time, invalidation
    condition, reasoning and a fresh tracking entry. *)
Definition recordOpen (d : Decision) (posKey : string) (currentPrice : Q)
    : M W unit :=
  let* t := now in
  modifyTrader (fun a =>
    withTracking
      (<[posKey := freshTracking d currentPrice]> (positionPnLTracking a))
      (withReasonings
         (<[Symbol d := Reasoning d]> (positionReasonings a))
         (withInvalidationConditions
            (<[Symbol d := InvalidationCondition d]>
               (positionInvalidationConditions a))
            (withFirstSeen
               (<[posKey := (t / nanosPerMilli)%Z]> (positionFirstSeenTime a))
               a)))).

(** [executeOpenLongWithRecord]; the second component is [*actionRecord]
    on return. *)
Definition executeOpenLongWithRecord (d : Decision)
    (actionRecord : DecisionAction) : M W (option Error * DecisionAction) :=
  let* ps := GetPositions in
  let stacked :=
    match ps with
    | Ok positions => hasPosition positions (Symbol d) "long"
    | Err _ => false
    end in
  if stacked then ret (Some (ErrAlreadyLong (Symbol d)), actionRecord)
  else
    let* md := marketGet (Symbol d) 3 in
    match md with
    | Err msg => ret (Some (ErrExternal msg), actionRecord)
    | Ok currentPrice =>
        let quantity := (PositionSizeUSD d / currentPrice)%Q in
        let actionRecord1 :=
          withQuantityPrice quantity currentPrice actionRecord in
        let* order := OpenLong (Symbol d) quantity (Leverage d) in
        match order with
        | Err msg => ret (Some (ErrExternal msg), actionRecord1)
        | Ok orderID =>
            let actionRecord2 := withOrderID orderID actionRecord1 in
            let* _ := recordOpen d (Symbol d ++ "_long") currentPrice in
            let* _ := SetStopLoss (Symbol d) "LONG" quantity (StopLoss d) in
            let* a := getTrader in
            let* _ :=
              if negb (EnablePartialTakeProfit (config a)) then
                let* _ :=
                  SetTakeProfit (Symbol d) "LONG" quantity (TakeProfit d) in
                ret tt
              else ret tt in
            ret (None, actionRecord2)
        end
    end.

(** [executeOpenShortWithRecord]. *)
Definition executeOpenShortWithRecord (d : Decision)
    (actionRecord : DecisionAction) : M W (option Error * DecisionAction) :=
  let* ps := GetPositions in
  let stacked :=
    match ps with
    | Ok positions => hasPosition positions (Symbol d) "short"
    | Err _ => false
    end in
  if stacked then ret (Some (ErrAlreadyShort (Symbol d)), actionRecord)
  else
    let* md := marketGet (Symbol d) 3 in
    match md with
    | Err msg => ret (Some (ErrExternal msg), actionRecord)
    | Ok currentPrice =>
        let quantity := (PositionSizeUSD d / currentPrice)%Q in
        let actionRecord1 :=
          withQuantityPrice quantity currentPrice actionRecord in
        let* order := OpenShort (Symbol d) quantity (Leverage d) in
        match order with
        | Err msg => ret (Some (ErrExternal msg), actionRecord1)
        | Ok orderID =>
            let actionRecord2 := withOrderID orderID actionRecord1 in
            let* _ := recordOpen d (Symbol d ++ "_short") currentPrice in
            let* _ := SetStopLoss (Symbol d) "SHORT" quantity (StopLoss d) in
            let* a := getTrader in
            let* _ :=
              if negb (EnablePartialTakeProfit (config a)) then
                let* _ :=
                  SetTakeProfit (Symbol d) "SHORT" quantity (TakeProfit d) in
                ret tt
              else ret tt in
            ret (None, actionRecord2)
        end
    end.

(** [executeCloseLongWithRecord]. *)
Definition executeCloseLongWithRecord (d : Decision)
    (actionRecord : DecisionAction) : M W (option Error * DecisionAction) :=
  let* md := marketGet (Symbol d) 3 in
  match md with
  | Err msg => ret (Some (ErrExternal msg), actionRecord)
  | Ok currentPrice =>
      let actionRecord1 := withPrice currentPrice actionRecord in
      let* order := CloseLong (Symbol d) 0%Q in
      match order with
      | Err msg => ret (Some (ErrExternal msg), actionRecord1)
      | Ok orderID => ret (None, withOrderID orderID actionRecord1)
      end
  end.

(** [executeCloseShortWithRecord]. *)
Definition executeCloseShortWithRecord (d : Decision)
    (actionRecord : DecisionAction) : M W (option Error * DecisionAction) :=
  let* md := marketGet (Symbol d) 3 in
  match md with
  | Err msg => ret (Some (ErrExternal msg), actionRecord)
  | Ok currentPrice =>
      let actionRecord1 := withPrice currentPrice actionRecord in
      let* order := CloseShort (Symbol d) 0%Q in
      match order with
      | Err msg => ret (Some (ErrExternal msg), actionRecord1)
      | Ok orderID => ret (None, withOrderID orderID actionRecord1)
      end
  end.

(** [executeDecisionWithRecord]. *)
Definition executeDecisionWithRecord (d : Decision)
    (actionRecord : DecisionAction) : M W (option Error * DecisionAction) :=
  if String.eqb (Action d) "open_long" then
    executeOpenLongWithRecord d actionRecord
  else if String.eqb (Action d) "open_short" then
    executeOpenShortWithRecord d actionRecord
  else if String.eqb (Action d) "close_long" then
    executeCloseLongWithRecord d actionRecord
  else if String.eqb (Action d) "close_short" then
    executeCloseShortWithRecord d actionRecord
  else if String.eqb (Action d) "hold" || String.eqb (Action d) "wait" then
    ret (None, actionRecord)
  else ret (Some (ErrUnknownAction (Action d)), actionRecord).

(** The body of [for _, d := range sortedDecisions] in [runCycle]. *)
Definition dispatchOne (d : Decision) (_ : unit) : M W unit :=
  let* r := executeDecisionWithRecord d (newActionRecord d) in
  match r.1 with
  | Some err =>
      let* _ := appendLog (Symbol d) (Action d) false in
      appendAction (withOutcome false (Some err) r.2)
  | None =>
      let* _ := appendLog (Symbol d) (Action d) true in
      appendAction (withOutcome true None r.2)
  end.

(** ** The trader package: one cycle *)

Definition failRecord (e : Error) : M W unit :=
  modifyRecord (fun rc =>
    mkDecisionRecord false (Some e) (rec_Decisions rc) (rec_ExecutionLog rc)).

(** Steps 9 to 14 of [runCycle]: the batch is requested, ordered and
    dispatched, and the record of the cycle is saved. *)
Definition solicitAndDispatch (ctx : Context) : M W (option Error) :=
  let* r := GetFullDecision ctx in
  match r with
  | inl err =>
      let* _ := failRecord (ErrGetDecision err) in
      let* _ := LogDecision in
      ret (Some (ErrGetDecision err))
  | inr decisions =>
      let sortedDecisions := sortDecisionsByPriority decisions in
      let* _ := forEach sortedDecisions dispatchOne tt in
      let* _ := LogDecision in
      ret None
  end.

(** Steps 5 to 8 of [runCycle]: the context is built, the circuit breaker
    and the profit and loss controller run, and the context is rebuilt when
    the controller closed something. *)
Definition refreshAndProtect : M W (Error + Context) :=
  let* c := buildTradingContext in
  match c with
  | inl err =>
      let* _ := failRecord (ErrBuildContext err) in
      let* _ := LogDecision in
      ret (inl (ErrBuildContext err))
  | inr ctx =>
      let* _ := checkStopLossTriggered ctx in
      let* hasExecutedTP := checkTrailingStopAndPartialTP ctx false in
      if hasExecutedTP then
        let* c2 := buildTradingContext in
        match c2 with
        | inl err =>
            let* _ := failRecord (ErrRebuildContext err) in
            let* _ := LogDecision in
            ret (inl (ErrRebuildContext err))
        | inr ctx2 => ret (inr ctx2)
        end
      else ret (inr ctx)
  end.

(** Steps 3 and 4 of [runCycle]: the stop-loss counter is reset after the
    reset window, the daily profit and loss after a day. *)
Definition resetCounters : M W unit :=
  let* a := getTrader in
  let* _ :=
    if EnableExponentialBackoff (config a)
       && negb (lastStopLossTime a =? 0)%Z then
      let* t := now in
      let hoursSinceLastStopLoss :=
        (ofZ (t - lastStopLossTime a) / ofZ nanosPerHour)%Q in
      if fge hoursSinceLastStopLoss (ofZ (BackoffResetHours (config a)))
         && (stopLossCount a >? 0)%Z then
        modifyTrader (withStopLossCount 0)
      else ret tt
    else ret tt in
  let* t := now in
  let* a1 := getTrader in
  if (t - lastResetTime a1 >? 24 * nanosPerHour)%Z then
    let* t' := now in
    modifyTrader (withDailyReset t')
  else ret tt.

(** [runCycle]. *)
Definition runCycle : M W (option Error) :=
  let* _ := modifyTrader (fun a => withCallCount (callCount a + 1) a) in
  let* _ := modifyRecord (fun _ => mkDecisionRecord true None [] []) in
  let* a := getTrader in
  let* paused :=
    if EnableExponentialBackoff (config a) then
      let* t := now in ret (t <? backoffUntil a)%Z
    else ret false in
  if paused then
    let* t := now in
    let* _ :=
      failRecord (ErrBackoffPause (stopLossCount a) (backoffUntil a - t)%Z)
    in
    let* _ := LogDecision in
    ret None
  else
    let* t := now in
    if (t <? stopUntil a)%Z then
      let* t' := now in
      let* _ := failRecord (ErrRiskPause (stopUntil a - t')%Z) in
      let* _ := LogDecision in
      ret None
    else
      let* _ := resetCounters in
      let* c := refreshAndProtect in
      match c with
      | inl err => ret (Some err)
      | inr ctx => solicitAndDispatch ctx
      end.

End Dispatcher.

(** ** The second trader ([tradingview/test_curl.sh])

    The file [tradingview/test_curl.sh] of the repository holds, below a
    shell script, another [package trader]: a second copy of the
    [AutoTrader].  It has no circuit breaker, no trailing stop and no
    partial take-profit; its dispatcher executes increase, decrease and
    update intents as well, its sequencer knows their classes, and its two
    open functions compare the market price with the entry price of the
    intent.  Its [PnLTracking] has the first five fields of the one above:
    the three flags of the model stay [false]. *)

Module SecondTrader.

(** The closure [getActionPriority] of this copy. *)
Definition getActionPriority (action : string) : Z :=
  if String.eqb action "decrease_long" || String.eqb action "decrease_short"
  then 1
  else if String.eqb action "close_long" || String.eqb action "close_short"
  then 2
  else if String.eqb action "update_loss_profit" then 3
  else if String.eqb action "increase_long"
          || String.eqb action "increase_short"
  then 4
  else if String.eqb action "open_long" || String.eqb action "open_short"
  then 5
  else if String.eqb action "hold" || String.eqb action "wait" then 6
  else 999.

Definition sortDecisionsByPriority (decisions : list Decision)
    : list Decision :=
  exchangeSort getActionPriority decisions.

Section Dispatcher.

Context {W : Type} `{External W}.

(** [executeOpenLongWithRecord] of this copy. *)
Definition executeOpenLongWithRecord (d : Decision)
    (actionRecord : DecisionAction) : M W (option Error * DecisionAction) :=
  let* ps := GetPositions in
  let stacked :=
    match ps with
    | Ok positions => hasPosition positions (Symbol d) "long"
    | Err _ => false
    end in
  if stacked then ret (Some (ErrAlreadyLong (Symbol d)), actionRecord)
  else
    let* md := marketGet (Symbol d) 3 in
    match md with
    | Err msg => ret (Some (ErrExternal msg), actionRecord)
    | Ok currentPrice =>
        let priceDiff :=
          fmul (fdiv (fsub currentPrice (EntryPrice d)) (EntryPrice d)) 100 in
        if fgt priceDiff 3 || flt priceDiff (-3) then
          ret (Some (ErrPriceDrift priceDiff), actionRecord)
        else
          let quantity := (PositionSizeUSD d / currentPrice)%Q in
          let actionRecord1 :=
            withQuantityPrice quantity currentPrice actionRecord in
          let* order := OpenLong (Symbol d) quantity (Leverage d) in
          match order with
          | Err msg => ret (Some (ErrExternal msg), actionRecord1)
          | Ok orderID =>
              let actionRecord2 := withOrderID orderID actionRecord1 in
              let* _ := recordOpen d (Symbol d ++ "_long") currentPrice in
              let* _ :=
                SetStopLoss (Symbol d) "LONG" quantity (StopLoss d) in
              let* _ :=
                SetTakeProfit (Symbol d) "LONG" quantity (TakeProfit d) in
              ret (None, actionRecord2)
          end
    end.

(** [executeOpenShortWithRecord] of this copy. *)
Definition executeOpenShortWithRecord (d : Decision)
    (actionRecord : DecisionAction) : M W (option Error * DecisionAction) :=
  let* ps := GetPositions in
  let stacked :=
    match ps with
    | Ok positions => hasPosition positions (Symbol d) "short"
    | Err _ => false
    end in
  if stacked then ret (Some (ErrAlreadyShort (Symbol d)), actionRecord)
  else
    let* md := marketGet (Symbol d) 3 in
    match md with
    | Err msg => ret (Some (ErrExternal msg), actionRecord)
    | Ok currentPrice =>
        let priceDiff :=
          fmul (fdiv (fsub currentPrice (EntryPrice d)) (EntryPrice d)) 100 in
        if fgt priceDiff 3 || flt priceDiff (-3) then
          ret (Some (ErrPriceDrift priceDiff), actionRecord)
        else
          let quantity := (PositionSizeUSD d / currentPrice)%Q in
          let actionRecord1 :=
            withQuantityPrice quantity currentPrice actionRecord in
          let* order := OpenShort (Symbol d) quantity (Leverage d) in
          match order with
          | Err msg => ret (Some (ErrExternal msg), actionRecord1)
          | Ok orderID =>
              let actionRecord2 := withOrderID orderID actionRecord1 in
              let* _ := recordOpen d (Symbol d ++ "_short") currentPrice in
              let* _ :=
                SetStopLoss (Symbol d) "SHORT" quantity (StopLoss d) in
              let* _ :=
                SetTakeProfit (Symbol d) "SHORT" quantity (TakeProfit d) in
              ret (None, actionRecord2)
          end
    end.

End Dispatcher.

End SecondTrader.

(** ** A scripted world

    A concrete instance of the collaborators, used to run the model on
    examples: the clock is fixed, the balance and the coin pool are fixed,
    [GetPositions] and the AI answer from a feed (the last answer of a feed
    is repeated), [market.Get] answers from a price table, and every order
    succeeds or fails according to a flag. *)

Record Script := mkScript {
  sc_clock : Time;
  sc_balance : result RawBalance;
  sc_positions : list (result (list RawPosition));
  sc_prices : list (string * Q);
  sc_ordersSucceed : bool;
  sc_proposals : list (result (list Decision));
  sc_logged : list DecisionRecord
}.

Definition feedHead {A} (dflt : A) (feed : list A) : A :=
  match feed with
  | [] => dflt
  | x :: _ => x
  end.

Definition feedTail {A} (feed : list A) : list A :=
  match feed with
  | _ :: (_ :: _) as rest => rest
  | _ => feed
  end.

Definition withPositionsFeed (f : list (result (list RawPosition)))
    (w : Script) : Script :=
  mkScript (sc_clock w) (sc_balance w) f (sc_prices w) (sc_ordersSucceed w)
    (sc_proposals w) (sc_logged w).

Definition withProposalsFeed (f : list (result (list Decision)))
    (w : Script) : Script :=
  mkScript (sc_clock w) (sc_balance w) (sc_positions w) (sc_prices w)
    (sc_ordersSucceed w) f (sc_logged w).

Fixpoint priceOf (table : list (string * Q)) (symbol : string) : result Q :=
  match table with
  | [] => Err "no market data"
  | (s, p) :: rest => if String.eqb s symbol then Ok p else priceOf rest symbol
  end.

Definition scriptOrder (w : Script) : result (option Z) * Script :=
  (if sc_ordersSucceed w then Ok None else Err "order rejected", w).

Definition scriptAck (w : Script) : option string * Script :=
  (if sc_ordersSucceed w then None else Some "order rejected", w).

#[export] Instance scriptExternal : External Script := {
  time_Now w := (sc_clock w, w);
  trader_GetBalance w := (sc_balance w, w);
  trader_GetPositions w :=
    (feedHead (Ok []) (sc_positions w),
     withPositionsFeed (feedTail (sc_positions w)) w);
  trader_OpenLong _ _ _ w := scriptOrder w;
  trader_OpenShort _ _ _ w := scriptOrder w;
  trader_CloseLong _ _ w := scriptOrder w;
  trader_CloseShort _ _ w := scriptOrder w;
  trader_SetStopLoss _ _ _ _ w := scriptAck w;
  trader_SetTakeProfit _ _ _ _ w := scriptAck w;
  market_Get symbol _ w := (priceOf (sc_prices w) symbol, w);
  pool_GetMergedCoinPool _ w := (Ok [], w);
  ai_GetDecisions _ w :=
    (feedHead (Ok []) (sc_proposals w),
     withProposalsFeed (feedTail (sc_proposals w)) w);
  logger_LogDecision r w :=
    mkScript (sc_clock w) (sc_balance w) (sc_positions w) (sc_prices w)
      (sc_ordersSucceed w) (sc_proposals w) (sc_logged w ++ [r])
}.

(** A start state over the scripted world. *)
Definition startSys (a : AutoTrader) (w : Script) : Sys Script :=
  mkSys a w [] (mkDecisionRecord true None [] []).

(** The scripted world with the coin pool out of reach: every collaborator
    answers as in [Script], but the coin pool fails.  (A definition, not an
    instance: it is named where it is used.) *)
Record PoolDown := mkPoolDown { pd_script : Script }.

Definition underPoolDown {A} (r : A * Script) : A * PoolDown :=
  (r.1, mkPoolDown r.2).

Definition poolDownExternal : External PoolDown := {|
  time_Now := fun w => underPoolDown (time_Now (pd_script w));
  trader_GetBalance :=
    fun w => underPoolDown (trader_GetBalance (pd_script w));
  trader_GetPositions :=
    fun w => underPoolDown (trader_GetPositions (pd_script w));
  trader_OpenLong := fun symbol quantity leverage w =>
    underPoolDown (trader_OpenLong symbol quantity leverage (pd_script w));
  trader_OpenShort := fun symbol quantity leverage w =>
    underPoolDown (trader_OpenShort symbol quantity leverage (pd_script w));
  trader_CloseLong := fun symbol quantity w =>
    underPoolDown (trader_CloseLong symbol quantity (pd_script w));
  trader_CloseShort := fun symbol quantity w =>
    underPoolDown (trader_CloseShort symbol quantity (pd_script w));
  trader_SetStopLoss := fun symbol side quantity price w =>
    underPoolDown
      (trader_SetStopLoss symbol side quantity price (pd_script w));
  trader_SetTakeProfit := fun symbol side quantity price w =>
    underPoolDown
      (trader_SetTakeProfit symbol side quantity price (pd_script w));
  market_Get := fun symbol n w =>
    underPoolDown (market_Get symbol n (pd_script w));
  pool_GetMergedCoinPool := fun _ w => (Err "coin pool unavailable", w);
  ai_GetDecisions := fun ctx w =>
    underPoolDown (ai_GetDecisions ctx (pd_script w));
  logger_LogDecision := fun r w =>
    mkPoolDown (logger_LogDecision r (pd_script w))
|}.

Definition startPoolDown (a : AutoTrader) (w : Script) : Sys PoolDown :=
  mkSys a (mkPoolDown w) [] (mkDecisionRecord true None [] []).

(** ** Specification-side definitions: the validator *)

(** Risk and reward of an intent in percent of the entry price, and their
    ratio, each operation in [float64]. *)
Definition riskPct (d : Decision) : Q :=
  fmul (fdiv (Qabs (fsub (EntryPrice d) (StopLoss d))) (EntryPrice d)) 100.

Definition rewardPct (d : Decision) : Q :=
  fmul (fdiv (Qabs (fsub (TakeProfit d) (EntryPrice d))) (EntryPrice d)) 100.

Definition riskRewardRatio (d : Decision) : Q :=
  fdiv (rewardPct d) (riskPct d).

Definition leverageCeiling (d : Decision) (btcEthLeverage altcoinLeverage : Z)
    : Z :=
  if isBtcEth (Symbol d) then btcEthLeverage else altcoinLeverage.

Definition notionalCeiling (d : Decision) (equity : Q) : Q :=
  if isBtcEth (Symbol d) then fmul equity 10 else fmul equity 5.

(** An open or increase intent that passes every rule before the
    risk:reward rule: leverage, size, notional ceiling with its 1% tolerance,
    positive prices, a non-blank invalidation condition, and stop and target
    on the right sides of the entry price. *)
Record passesSanity (d : Decision) (equity : Q)
    (btcEthLeverage altcoinLeverage : Z) : Prop := mkPassesSanity {
  ps_action : isOpenOrIncrease (Action d) = true;
  ps_leverage :
    1 <= Leverage d <= leverageCeiling d btcEthLeverage altcoinLeverage;
  ps_size_pos : (0 < PositionSizeUSD d)%Q;
  ps_size_max :
    (PositionSizeUSD d
     <= fadd (notionalCeiling d equity)
          (fmul (notionalCeiling d equity) (round64 0.01)))%Q;
  ps_entry : (0 < EntryPrice d)%Q;
  ps_stop : (0 < StopLoss d)%Q;
  ps_target : (0 < TakeProfit d)%Q;
  ps_invalidation : trimsToEmpty (InvalidationCondition d) = false;
  ps_direction :
    if isLongEntry (Action d)
    then (StopLoss d < EntryPrice d)%Q /\ (EntryPrice d < TakeProfit d)%Q
    else (TakeProfit d < EntryPrice d)%Q /\ (EntryPrice d < StopLoss d)%Q
}.

(** An [open_long] on BTCUSDT with entry 100 and stop 98. *)
Definition openLongAt (target : Q) : Decision :=
  mkDecision "BTCUSDT" "open_long" 5 100 100 98 target 80 2
    "breakout" "close below 98".

(** ** Specification-side definitions: the sequencer *)

(** The priority number of an intent under a closure, and under the
    closure of [unnamed/part_011]. *)
Definition prioBy (priority : string -> Z) (d : Decision) : Z :=
  priority (Action d).

Definition prio (d : Decision) : Z := getActionPriority (Action d).

(** The index permutation of a swap of [i] and [j]. *)
Definition transpose (i j k : nat) : nat :=
  if decide (k = i) then j else if decide (k = j) then i else k.

(** Invariant of the inner loop: the element at [i] has the least priority
    number among the indices strictly between [i] and [j]. *)
Definition headLeast (priority : string -> Z) (l : list Decision)
    (i j : nat) : Prop :=
  forall k x y, (i < k < j)%nat -> l !! i = Some x -> l !! k = Some y ->
    prioBy priority x <= prioBy priority y.

(** Every element of [l'] from index [i] on comes from [l] at an index from
    [i] on. *)
Definition fromSuffix (i : nat) (l' l : list Decision) : Prop :=
  forall k x, (i <= k)%nat -> l' !! k = Some x ->
    exists k', (i <= k')%nat /\ l !! k' = Some x.

Definition samePrefix (i : nat) (l' l : list Decision) : Prop :=
  forall k, (k < i)%nat -> l' !! k = l !! k.

(** Invariant of the outer loop: an element before index [i] has a priority
    number at most that of every later element. *)
Definition sortedBelow (priority : string -> Z) (l : list Decision)
    (i : nat) : Prop :=
  forall a b x y, (a < i)%nat -> (a < b)%nat ->
    l !! a = Some x -> l !! b = Some y ->
    prioBy priority x <= prioBy priority y.

(** A bare intent: a symbol and an action. *)
Definition intent (symbol action : string) : Decision :=
  mkDecision symbol action 0 0 0 0 0 0 0 "" "".

(** The batch [open_long BTC, close_short ETH, decrease_long SOL]. *)
Definition batchThree : list Decision :=
  [ intent "BTC" "open_long"; intent "ETH" "close_short";
    intent "SOL" "decrease_long" ].


(** ** Specification-side definitions: the dispatcher *)

(** The side an open action creates a position on. *)
Definition sideOfOpen (action : string) : option string :=
  if String.eqb action "open_long" then Some "long"
  else if String.eqb action "open_short" then Some "short"
  else None.

(** The deviation of the market price from the entry price of an intent, in
    percent of the entry price, as a [float64] computation. *)
Definition priceDiffPct (currentPrice entryPrice : Q) : Q :=
  fmul (fdiv (fsub currentPrice entryPrice) entryPrice) 100.

(** The open function of the second trader for a side. *)
Definition secondOpen {W} `{External W} (side : string) (d : Decision)
    (actionRecord : DecisionAction) : M W (option Error * DecisionAction) :=
  if String.eqb side "long" then
    SecondTrader.executeOpenLongWithRecord d actionRecord
  else SecondTrader.executeOpenShortWithRecord d actionRecord.

Definition antiStackingError (side symbol : string) : Error :=
  if String.eqb side "long" then ErrAlreadyLong symbol
  else ErrAlreadyShort symbol.

Definition openCall (side symbol : string) (quantity : Q) (leverage : Z)
    : Call :=
  if String.eqb side "long" then CallOpenLong symbol quantity leverage
  else CallOpenShort symbol quantity leverage.

(** The calls that open or close a position at the venue. *)
Definition isOrderCall (c : Call) : bool :=
  match c with
  | CallOpenLong _ _ _ | CallOpenShort _ _ _
  | CallCloseLong _ _ | CallCloseShort _ _ => true
  | _ => false
  end.

Definition orderCalls (cs : list Call) : list Call :=
  List.filter isOrderCall cs.

(** ** Example states and worlds *)

(** Scan every 3 minutes; leverage ceilings 10 and 5; trailing stop with
    distance 3% and activation 5%; partial take-profit; backoff with base 45
    minutes, multiplier 2.67, at most 360 minutes, reset after 24 hours. *)
Definition cfg0 : AutoTraderConfig :=
  mkAutoTraderConfig 3 10 5 true (round64 0.03) (round64 0.05) true true 45
    (round64 2.67) 360 24.

Definition trader0 : AutoTrader :=
  mkAutoTrader cfg0 1000 0 0 0 0 ∅ ∅ ∅ ∅ 0 0 0 0.

Definition balance0 : RawBalance :=
  mkRawBalance (Some 1000%Q) (Some 0%Q) (Some 1000%Q).

(** No live position, BTCUSDT at the given price, and one proposed batch. *)
Definition worldAt (price : Q) (proposals : list Decision) : Script :=
  mkScript 1000 (Ok balance0) [Ok []] [("BTCUSDT", price)] true
    [Ok proposals] [].

(** A live long position on BTCUSDT: entry 100, leverage 1. *)
Definition heldLong (quantity markPrice : Q) : RawPosition :=
  mkRawPosition "BTCUSDT" "long" 100 markPrice quantity 0 50 (Some 1%Q).

Definition worldHolding (markPrice : Q) : Script :=
  mkScript 1000 (Ok balance0) [Ok [heldLong 1 markPrice]]
    [("BTCUSDT", markPrice)] true [Ok []] [].

(** The venue holds the long of [heldLong]; the first read of the positions
    fails, the next one succeeds. *)
Definition worldOutage (markPrice : Q) : Script :=
  mkScript 1000 (Ok balance0) [Err "timeout"; Ok [heldLong 1 markPrice]]
    [("BTCUSDT", markPrice)] true [Ok []] [].

Definition ctx0 : Context :=
  mkContext 1 (mkAccountInfo 1000 1000 0 0 0 0 0) [] [] 10 5 3.

(** BTCUSDT is tracked as a long position first seen at time 0. *)
Definition trackedLong (tracking : PnLTracking) (a : AutoTrader) : AutoTrader :=
  withTracking {[ "BTCUSDT_long" := tracking ]}
    (withFirstSeen {[ "BTCUSDT_long" := 0 ]} a).

(** ** Specification-side definitions: the controller *)

Definition closeCall (side symbol : string) (quantity : Q) : Call :=
  if String.eqb side "long" then CallCloseLong symbol quantity
  else CallCloseShort symbol quantity.

(** The venue operation behind [closeCall]. *)
Definition closeOp {W} `{External W} (side symbol : string) (quantity : Q)
    : W -> result (option Z) * W :=
  if String.eqb side "long" then trader_CloseLong symbol quantity
  else trader_CloseShort symbol quantity.

(** The trailing stop is armed after the activation test of this pass. *)
Definition armed (cfg : AutoTraderConfig) (pos : PositionInfo)
    (tr : PnLTracking) : bool :=
  TrailingStopActivated tr
  || fge (pi_UnrealizedPnLPct pos) (fmul (TrailingStopActivation cfg) 100).

(** The drawdown from the best profit has reached the distance. *)
Definition drawdownHit (cfg : AutoTraderConfig) (pos : PositionInfo)
    (tr : PnLTracking) : bool :=
  fge (fdiv (fsub (MaxProfitPct tr) (pi_UnrealizedPnLPct pos)) 100)
    (TrailingStopDistance cfg).

Definition trailingDue (cfg : AutoTraderConfig) (pos : PositionInfo)
    (tr : PnLTracking) : bool :=
  EnableTrailingStop cfg && armed cfg pos tr && drawdownHit cfg pos tr.

(** The flag is raised in this pass. *)
Definition activatesNow (cfg : AutoTraderConfig) (pos : PositionInfo)
    (tr : PnLTracking) : bool :=
  EnableTrailingStop cfg && negb (TrailingStopActivated tr)
  && fge (pi_UnrealizedPnLPct pos) (fmul (TrailingStopActivation cfg) 100).

(** The mark price has reached a target: it is at or above the target of
    a long position, at or below the target of a short position. *)
Definition priceReached (side : string) (markPrice target : Q) : bool :=
  if String.eqb side "long" then fle target markPrice
  else if String.eqb side "short" then fle markPrice target
  else false.

(** The two targets in the words of the specification. *)
Definition target50Of (side : string) (entryPrice takeProfitPrice : Q) : Q :=
  if String.eqb side "long" then
    fadd entryPrice (fmul 0.5 (fsub takeProfitPrice entryPrice))
  else fsub entryPrice (fmul 0.5 (fsub entryPrice takeProfitPrice)).

(** A partial take-profit target is due: its flag is down and the mark
    price has reached it. *)
Definition due50 (pos : PositionInfo) (tr : PnLTracking) : bool :=
  negb (PartialTP50Executed tr)
  && priceReached (pi_Side pos) (pi_MarkPrice pos)
       (target50Of (pi_Side pos) (TrackedEntryPrice tr) (TakeProfitPrice tr)).

Definition due100 (pos : PositionInfo) (tr : PnLTracking) : bool :=
  negb (PartialTP100Executed tr)
  && priceReached (pi_Side pos) (pi_MarkPrice pos) (TakeProfitPrice tr).

(** Whether the venue accepts a close order, and the world after it. *)
Definition closeAccepted {W} `{External W} (side symbol : string)
    (quantity : Q) (w : W) : bool * W :=
  match closeOp side symbol quantity w with
  | (Ok _, w') => (true, w')
  | (Err _, w') => (false, w')
  end.

(** The first-stage close of a pass over [pos], when it is due: whether
    the venue accepted it, and the world after it. *)
Definition stage50 {W} `{External W} (pos : PositionInfo) (tr : PnLTracking)
    (w : W) : bool * W :=
  if due50 pos tr then
    closeAccepted (pi_Side pos) (pi_Symbol pos) (pi_Quantity pos * 0.5) w
  else (false, w).

(** The second-stage close, after the first stage. *)
Definition stage100 {W} `{External W} (pos : PositionInfo) (tr : PnLTracking)
    (w : W) : bool * W :=
  if due100 pos tr then
    closeAccepted (pi_Side pos) (pi_Symbol pos) (pi_Quantity pos * 0.5)
      (stage50 pos tr w).2
  else (false, (stage50 pos tr w).2).

Definition keyOf (pos : PositionInfo) : string :=
  posKeyOf (pi_Symbol pos) (pi_Side pos).

(** [tr'] is [tr] with some of its one-shot flags raised. *)
Record flagsGrow (tr tr' : PnLTracking) : Prop := mkFlagsGrow {
  fg_maxProfit : MaxProfitPct tr' = MaxProfitPct tr;
  fg_maxLoss : MaxLossPct tr' = MaxLossPct tr;
  fg_takeProfit : TakeProfitPrice tr' = TakeProfitPrice tr;
  fg_stopLoss : StopLossPrice tr' = StopLossPrice tr;
  fg_entry : TrackedEntryPrice tr' = TrackedEntryPrice tr;
  fg_tp50 : PartialTP50Executed tr = true -> PartialTP50Executed tr' = true;
  fg_tp100 : PartialTP100Executed tr = true -> PartialTP100Executed tr' = true;
  fg_trailing :
    TrailingStopActivated tr = true -> TrailingStopActivated tr' = true
}.

(** Every tracked key stays tracked, with flags that only go up. *)
Definition trackingGrows (m m' : gmap string PnLTracking) : Prop :=
  forall key tr, m !! key = Some tr ->
    exists tr', m' !! key = Some tr' /\ flagsGrow tr tr'.

(** [tr'] is [tr] but for its two extrema, which have not retreated. *)
Record extremaGrow (tr tr' : PnLTracking) : Prop := mkExtremaGrow {
  eg_maxProfit : (MaxProfitPct tr <= MaxProfitPct tr')%Q;
  eg_maxLoss : (MaxLossPct tr' <= MaxLossPct tr)%Q;
  eg_takeProfit : TakeProfitPrice tr' = TakeProfitPrice tr;
  eg_stopLoss : StopLossPrice tr' = StopLossPrice tr;
  eg_entry : TrackedEntryPrice tr' = TrackedEntryPrice tr;
  eg_tp50 : PartialTP50Executed tr' = PartialTP50Executed tr;
  eg_tp100 : PartialTP100Executed tr' = PartialTP100Executed tr;
  eg_trailing : TrailingStopActivated tr' = TrailingStopActivated tr
}.

(** What a step of the controller may change: the tracking flags, the
    trace and the world; the trace grows by close orders only. *)
Record controllerStep {W} (s s' : Sys W) : Prop := mkControllerStep {
  cs_config : config (trader s') = config (trader s);
  cs_tracking :
    trackingGrows (positionPnLTracking (trader s))
      (positionPnLTracking (trader s'));
  cs_calls : exists cs, calls s' = (calls s ++ cs)%list
}.

(** Every tracked key stays tracked through [buildPosition], with the same
    flags and prices and with extrema that have not retreated. *)
Definition trackingKept (m m' : gmap string PnLTracking) : Prop :=
  forall key tr, m !! key = Some tr ->
    exists tr', m' !! key = Some tr' /\ extremaGrow tr tr'.

(** ** Specification-side definitions: the circuit breaker *)

(** Whether [side] is the long side, as the source tests it. *)
Definition isLong (side : string) : bool := String.eqb side "long".

(** The price-side condition of the loss classification. *)
Definition lossSide (side : string) (price stopLossPrice entryPrice : Q)
    : Prop :=
  ((0 < stopLossPrice)%Q
   /\ if isLong side then (price <= fmul stopLossPrice (round64 1.05))%Q
      else (fmul stopLossPrice (round64 0.95) <= price)%Q)
  \/ ((stopLossPrice <= 0)%Q /\ (0 < entryPrice)%Q
      /\ if isLong side then (price <= entryPrice)%Q
         else (entryPrice <= price)%Q)
  \/ ((stopLossPrice <= 0)%Q /\ (entryPrice <= 0)%Q).

(** [equityDecreased] of [checkStopLossTriggered]. *)
Definition equityDecreasedOf (a : AutoTrader) (ctx : Context) : bool :=
  fgt (lastTotalEquity a) 0
  && flt (TotalEquity (ctx_Account ctx)) (lastTotalEquity a).

Definition liveKeys (ctx : Context) : gset string :=
  list_to_set
    (map (fun pos => posKeyOf (pi_Symbol pos) (pi_Side pos))
       (ctx_Positions ctx)).

(** The three fields of the circuit breaker that a loss event writes. *)
Definition breakerState (a : AutoTrader) : Z * Time * Time :=
  (stopLossCount a, lastStopLossTime a, backoffUntil a).

(** A loss event on a vanished key, as [checkStopLossKey] sees it. *)
Definition lossEvent {W} `{External W} (a : AutoTrader)
    (currentPositionKeys : gset string) (key : string) : Prop :=
  (key ∉ currentPositionKeys)
  /\ exists tr symbol side price w w',
       positionPnLTracking a !! key = Some tr
       /\ splitUnderscore key = [symbol; side]
       /\ market_Get symbol 3 w = (Ok price, w')
       /\ lossSide side price (StopLossPrice tr) (TrackedEntryPrice tr).

(** What [checkStopLossTriggered] leaves alone until its last line. *)
Record breakerFrame (a a' : AutoTrader) : Prop := mkBreakerFrame {
  bf_config : config a' = config a;
  bf_tracking : positionPnLTracking a' = positionPnLTracking a;
  bf_equity : lastTotalEquity a' = lastTotalEquity a;
  bf_count : stopLossCount a <= stopLossCount a'
}.

(** ** Example runs *)

(** The state after [n] cycles in a row. *)
Definition cycles {W} `{External W} (n : nat) (s : Sys W) : Sys W :=
  Nat.iter n (fun s => (runCycle s).2) s.

(** The three one-shot flags of a tracked key: trailing stop, first and
    second partial take-profit. *)
Definition flagsOf (key : string) (a : AutoTrader)
    : option (bool * bool * bool) :=
  match positionPnLTracking a !! key with
  | Some tr =>
      Some (TrailingStopActivated tr, PartialTP50Executed tr,
            PartialTP100Executed tr)
  | None => None
  end.

(** The long of [heldLong] over four cycles, at 104, 106, 115 and 103: with
    leverage 1 its profit is 4%, 6%, 15% and 3%; it is gone afterwards. *)
Definition worldPath : Script :=
  mkScript 1000 (Ok balance0)
    [Ok [heldLong 1 104]; Ok [heldLong 1 106]; Ok [heldLong 1 115];
     Ok [heldLong 1 103]; Ok []]
    [("BTCUSDT", 100%Q)] true [Ok []] [].

(** A live long position on BTCUSDT: entry 50000, leverage 1. *)
Definition heldBtc (quantity markPrice : Q) : RawPosition :=
  mkRawPosition "BTCUSDT" "long" 50000 markPrice quantity 0 40000
    (Some 1%Q).

(** The intent that opened it: stop 48000, target 55000. *)
Definition openedBtc : Decision :=
  mkDecision "BTCUSDT" "open_long" 1 100000 50000 48000 55000 80 0 "trend"
    "close below 48000".

(** The trader right after that open at 50000. *)
Definition traderTP : AutoTrader :=
  trackedLong (freshTracking openedBtc 50000) trader0.

(** The long of quantity 2 reaches 52500 in one cycle and 55000 in the
    next; the venue reports the quantity left after each close. *)
Definition worldTwoStages : Script :=
  mkScript 1000 (Ok balance0)
    [Ok [heldBtc 2 52500]; Ok [heldBtc 1 52500]; Ok [heldBtc 1 55000];
     Ok [heldBtc 0.5 55000]]
    [("BTCUSDT", 55000%Q)] true [Ok []] [].

(** The long of quantity 2 is at 56000, above both targets, in one cycle. *)
Definition worldOvershoot : Script :=
  mkScript 1000 (Ok balance0)
    [Ok [heldBtc 2 56000]; Ok []]
    [("BTCUSDT", 56000%Q)] true [Ok []] [].

(** The trailing-stop flag of a tracked key. *)
Definition trailingFlag (key : string) (a : AutoTrader) : option bool :=
  TrailingStopActivated <$> (positionPnLTracking a !! key).

(** An [open_long] on BTCUSDT at 106, stop 104 and target 111. *)
Definition reopenLong : Decision :=
  mkDecision "BTCUSDT" "open_long" 5 100 106 104 111 80 2 "breakout"
    "close below 104".

(** The long of [heldLong] stands at 106, a profit of 6%.  In the second
    cycle the AI proposes [reopenLong], and the re-read of the positions at
    its dispatch fails; the venue accepts the order. *)
Definition worldReopenLong : Script :=
  mkScript 1000 (Ok balance0)
    [Ok [heldLong 1 106]; Ok [heldLong 1 106]; Err "timeout";
     Ok [heldLong 2 106]]
    [("BTCUSDT", 106%Q)] true [Ok []; Ok [reopenLong]; Ok []] [].




(** A tracked long on BTCUSDT as [buildTradingContext] reports it: entry
    50000, leverage 1. *)
Definition infoBtc (quantity markPrice : Q) : PositionInfo :=
  mkPositionInfo "BTCUSDT" "long" 50000 markPrice quantity 1 0
    (pnlPctOf "long" 50000 markPrice 1) 40000
    (quantity * markPrice / 1) 0 "" "" 0 0 0 48000 55000.

(** No live position; the equity is the given one. *)
Definition ctxFlat (equity : Q) : Context :=
  mkContext 1 (mkAccountInfo equity equity 0 0 0 0 0) [] [] 10 5 3.

(** ** Specification-side definitions: what a step leaves alone *)

(** From [s] to [s'] the trace grows, and only by calls that satisfy [P]. *)
Definition callsOnly {W} (P : Call -> Prop) (s s' : Sys W) : Prop :=
  exists cs, calls s' = (calls s ++ cs)%list /\ Forall P cs.

(** A relation between two values of the trader object, read on the
    states that hold them. *)
Definition onTrader {W} (T : AutoTrader -> AutoTrader -> Prop)
    (s s' : Sys W) : Prop :=
  T (trader s) (trader s').

(** [a'] is [a] but for the four position maps. *)
Record mapsOnly (a a' : AutoTrader) : Prop := mkMapsOnly {
  mo_config : config a' = config a;
  mo_initialBalance : initialBalance a' = initialBalance a;
  mo_dailyPnL : dailyPnL a' = dailyPnL a;
  mo_lastResetTime : lastResetTime a' = lastResetTime a;
  mo_stopUntil : stopUntil a' = stopUntil a;
  mo_callCount : callCount a' = callCount a;
  mo_stopLossCount : stopLossCount a' = stopLossCount a;
  mo_lastStopLossTime : lastStopLossTime a' = lastStopLossTime a;
  mo_backoffUntil : backoffUntil a' = backoffUntil a;
  mo_lastTotalEquity : lastTotalEquity a' = lastTotalEquity a
}.

(** The tracking entries are the same. *)
Definition sameTracking (a a' : AutoTrader) : Prop :=
  positionPnLTracking a' = positionPnLTracking a.

(** The tracking entry of [key] is the same, or it was replaced by the
    fresh entry of an open of [d] on [side]: the key is the key of that
    position, and the entry has the three one-shot flags down. *)
Definition freshAt (d : Decision) (side key : string) (a a' : AutoTrader)
    : Prop :=
  positionPnLTracking a' !! key = positionPnLTracking a !! key
  \/ exists price,
       key = posKeyOf (Symbol d) side
       /\ positionPnLTracking a' !! key = Some (freshTracking d price).

(** Every key of [positionPnLTracking] is a key of
    [positionFirstSeenTime]. *)
Definition wellTracked (a : AutoTrader) : Prop :=
  forall key, is_Some (positionPnLTracking a !! key) ->
    is_Some (positionFirstSeenTime a !! key).

Definition keepsWellTracked (a a' : AutoTrader) : Prop :=
  wellTracked a -> wellTracked a'.

(** The calls by what they do: reading the venue, the market or the coin
    pool; opening; closing; placing a protective order; asking the AI;
    saving the record of the cycle. *)
Definition isReadCall (c : Call) : bool :=
  match c with
  | CallGetBalance | CallGetPositions | CallMarketGet _ _ | CallCoinPool _ =>
      true
  | _ => false
  end.

Definition isOpenCall (c : Call) : bool :=
  match c with
  | CallOpenLong _ _ _ | CallOpenShort _ _ _ => true
  | _ => false
  end.

Definition isCloseCall (c : Call) : bool :=
  match c with
  | CallCloseLong _ _ | CallCloseShort _ _ => true
  | _ => false
  end.

Definition isProtectCall (c : Call) : bool :=
  match c with
  | CallSetStopLoss _ _ _ _ | CallSetTakeProfit _ _ _ _ => true
  | _ => false
  end.

Definition isAICall (c : Call) : bool :=
  match c with
  | CallAI _ => true
  | _ => false
  end.

Definition isLogCall (c : Call) : bool :=
  match c with
  | CallLogDecision _ => true
  | _ => false
  end.

(** The calls the dispatch of one decision can make. *)
Definition isDispatchCall (c : Call) : bool :=
  isReadCall c || isOpenCall c || isCloseCall c || isProtectCall c.

(** ** Specification-side definitions: the other actions of the validator *)

Definition isDecrease (a : string) : bool :=
  String.eqb a "decrease_long" || String.eqb a "decrease_short".

(** What the validator asks of an intent that neither opens nor increases
    a position. *)
Definition passesOther (d : Decision) : Prop :=
  isValidAction (Action d) = true
  /\ (isDecrease (Action d) = true ->
      (0 < PositionSizeUSD d)%Q /\ trimsToEmpty (Reasoning d) = false)
  /\ (Action d = "update_loss_profit" ->
      (0 < StopLoss d)%Q /\ (0 < TakeProfit d)%Q
      /\ trimsToEmpty (Reasoning d) = false).

(** A [close_short] with fields no entry intent could have. *)
Definition closeOdd : Decision :=
  mkDecision "DOGEUSDT" "close_short" (-3) (-1) 0 0 0 0 0 "" "".

(** A [decrease_long] of 50 USD with a reason. *)
Definition decreaseFifty : Decision :=
  mkDecision "BTCUSDT" "decrease_long" 0 50 0 0 0 0 0 "take some off" "".

(** ** Specification-side definitions: an ordered batch *)

(** The batch is in non-decreasing priority number. *)
Definition ordered (ds : list Decision) : Prop :=
  StronglySorted (fun x y => prio x <= prio y) ds.

(** Two closes, two opens and a hold, in class order. *)
Definition batchOrdered : list Decision :=
  [ intent "A" "close_long"; intent "B" "close_short";
    intent "C" "open_long"; intent "D" "open_short"; intent "E" "hold" ].

(** ** Specification-side definitions: the closes of the controller *)

(** A close of the controller for the position [pos]: the whole position
    (quantity 0) or half of the quantity the context reports. *)
Definition controllerClose (pos : PositionInfo) (c : Call) : Prop :=
  c = closeCall (pi_Side pos) (pi_Symbol pos) 0
  \/ c = closeCall (pi_Side pos) (pi_Symbol pos) (pi_Quantity pos * 0.5).

(** ** Specification-side definitions: the refresh *)

Definition rawKey (pos : RawPosition) : string :=
  posKeyOf (rp_symbol pos) (rp_side pos).

Definition liveSymbols (ctx : Context) : gset string :=
  list_to_set (map pi_Symbol (ctx_Positions ctx)).

(** What [buildTradingContext] guarantees of every position it reports:
    the current profit percentage lies between the recorded extrema, the
    drawdown from the peak and the quantity are not negative. *)
Record infoBounds (p : PositionInfo) : Prop := mkInfoBounds {
  ib_maxLoss : (pi_MaxLossPct p <= pi_UnrealizedPnLPct p)%Q;
  ib_maxProfit : (pi_UnrealizedPnLPct p <= pi_MaxProfitPct p)%Q;
  ib_drawdown : (0 <= pi_DrawdownFromPeakPct p)%Q;
  ib_quantity : (0 <= pi_Quantity p)%Q
}.

(** The effect of the position loop of [buildTradingContext] on the
    trader: the two key maps gain the keys in [keys], the two symbol maps
    and everything else stay. *)
Record keysAdded (keys : gset string) (a a' : AutoTrader) : Prop :=
  mkKeysAdded {
  ka_firstSeen :
    dom (positionFirstSeenTime a') = keys ∪ dom (positionFirstSeenTime a);
  ka_tracking :
    dom (positionPnLTracking a') = keys ∪ dom (positionPnLTracking a);
  ka_conditions :
    positionInvalidationConditions a' = positionInvalidationConditions a;
  ka_reasonings : positionReasonings a' = positionReasonings a
}.

(** The venue reports a short on ETHUSDT (negative amount) next to the
    long of [heldLong]. *)
Definition heldShort (quantity markPrice : Q) : RawPosition :=
  mkRawPosition "ETHUSDT" "short" 3000 markPrice (- quantity) 0 4000
    (Some 2%Q).

Definition worldTwoPositions : Script :=
  mkScript 1000 (Ok balance0) [Ok [heldLong 1 104; heldShort 2 3100]]
    [("BTCUSDT", 104%Q); ("ETHUSDT", 3100%Q)] true [Ok []] [].

(** A trader that still remembers a closed long on SOLUSDT. *)
Definition traderStale : AutoTrader :=
  withReasonings {[ "SOLUSDT" := "breakout" ]}
    (withInvalidationConditions {[ "SOLUSDT" := "close below 20" ]}
       (withTracking
          {[ "SOLUSDT_long" := mkPnLTracking 5 (-2) 30 20 25 false false false ]}
          (withFirstSeen {[ "SOLUSDT_long" := 0 ]} trader0))).

(** ** Specification-side definitions: what a cycle does to the breaker *)

(** From [a] to [a'] no backoff was started: the end of the backoff and
    the time of the last counted loss are the same, and the counter is the
    same or was reset to 0.  It is read on well-tracked states, which stay
    so. *)
Definition noBackoffStarted (a a' : AutoTrader) : Prop :=
  wellTracked a ->
  wellTracked a'
  /\ backoffUntil a' = backoffUntil a
  /\ lastStopLossTime a' = lastStopLossTime a
  /\ (stopLossCount a' = stopLossCount a \/ stopLossCount a' = 0).

(** The venue holds the long of [heldBtc] in the first cycle and nothing
    afterwards, and the account has lost a fifth of its equity by then:
    the stop of the position at 48000 was hit at the venue. *)
Definition balanceAfterLoss : RawBalance :=
  mkRawBalance (Some 800%Q) (Some 0%Q) (Some 800%Q).

Definition worldStoppedOut : Script :=
  mkScript 1000 (Ok balanceAfterLoss) [Ok []] [("BTCUSDT", 47000%Q)] true
    [Ok []] [].

(** The trader holds that long, opened at 50000 with its stop at 48000,
    and saw an equity of 1000 in the cycle before. *)
Definition traderBeforeLoss : AutoTrader :=
  withLastTotalEquity 1000 traderTP.

(** ** Specification-side definitions: one cycle *)

(** From [s] to [s'] calls were made that are not saves of the record, and
    then the record of [s'] was saved. *)
Definition endsWithLog {W} (s s' : Sys W) : Prop :=
  exists cs,
    calls s' = (calls s ++ cs ++ [CallLogDecision (record s')])%list
    /\ Forall (fun c => isLogCall c = false) cs.

(** What no step of a cycle changes. *)
Record sameSettings (a a' : AutoTrader) : Prop := mkSameSettings {
  ss_config : config a' = config a;
  ss_initialBalance : initialBalance a' = initialBalance a;
  ss_stopUntil : stopUntil a' = stopUntil a;
  ss_callCount : callCount a' = callCount a
}.

(** The errors [runCycle] returns. *)
Definition isCycleError (e : Error) : bool :=
  match e with
  | ErrBuildContext _ | ErrRebuildContext _ | ErrGetDecision _ => true
  | _ => false
  end.

(** ** Specification-side definitions: the dispatch of one decision *)

(** The side a close action closes. *)
Definition sideOfClose (action : string) : option string :=
  if String.eqb action "close_long" then Some "long"
  else if String.eqb action "close_short" then Some "short"
  else None.

(** The actions the validator accepts and [executeDecisionWithRecord] has
    no case for. *)
Definition adjustActions : list string :=
  [ "increase_long"; "increase_short"; "decrease_long"; "decrease_short";
    "update_loss_profit" ].

(** The position side as the protective orders name it. *)
Definition sideUpper (side : string) : string :=
  if String.eqb side "long" then "LONG" else "SHORT".

(** The venue operation behind [openCall]. *)
Definition openOp {W} `{External W} (side symbol : string) (quantity : Q)
    (leverage : Z) : W -> result (option Z) * W :=
  if String.eqb side "long" then trader_OpenLong symbol quantity leverage
  else trader_OpenShort symbol quantity leverage.

(** The maps of the trader after the bookkeeping of a successful open of
    [d] on [side] at the market price [price], first seen at [t]. *)
Record openRecorded (d : Decision) (side : string) (price : Q)
    (a' : AutoTrader) : Prop := mkOpenRecorded {
  or_tracking :
    positionPnLTracking a' !! posKeyOf (Symbol d) side
    = Some (freshTracking d price);
  or_firstSeen :
    is_Some (positionFirstSeenTime a' !! posKeyOf (Symbol d) side);
  or_condition :
    positionInvalidationConditions a' !! Symbol d
    = Some (InvalidationCondition d);
  or_reasoning : positionReasonings a' !! Symbol d = Some (Reasoning d)
}.

(** One action record per decision: the record carries the action, the
    symbol and the leverage of its decision, and it is marked successful
    exactly when it carries no error. *)
Definition recordsDecision (d : Decision) (r : DecisionAction) : Prop :=
  da_Action r = Action d /\ da_Symbol r = Symbol d
  /\ da_Leverage r = Leverage d
  /\ (da_Success r = true <-> da_Error r = None).

(** An [open_short] on ETHUSDT: entry 3000, stop 3300, target 2400. *)
Definition openShortEth : Decision :=
  mkDecision "ETHUSDT" "open_short" 3 600 3000 3300 2400 70 0 "rejection"
    "close above 3300".

(** No live position; BTCUSDT at 100 and ETHUSDT at 3000; orders are
    accepted or refused according to the flag. *)
Definition worldFlat (ordersSucceed : bool) : Script :=
  mkScript 1000 (Ok balance0) [Ok []]
    [("BTCUSDT", 100%Q); ("ETHUSDT", 3000%Q)] ordersSucceed [Ok []] [].

(** A batch whose second intent has no case in the dispatcher. *)
Definition batchMixed : list Decision :=
  [ intent "BTCUSDT" "close_long"; decreaseFifty; openLongAt 104 ].

(** ** The decision package: locating the JSON array of a response *)

(** The loop of [findMatchingBracket] from index [i] on, the bytes from
    there on being [s]; [-1] when the end of the string is reached. *)
Fixpoint scanBracket (s : string) (i depth : Z) : Z :=
  match s with
  | EmptyString => -1
  | String c rest =>
      if Ascii.eqb c "["%char then scanBracket rest (i + 1) (depth + 1)
      else if Ascii.eqb c "]"%char then
        if (depth - 1 =? 0)%Z then i
        else scanBracket rest (i + 1) (depth - 1)
      else scanBracket rest (i + 1) depth
  end.

(** [s[start:]] for [start <= len(s)]. *)
Fixpoint dropBytes (start : nat) (s : string) : string :=
  match start, s with
  | S start', String _ rest => dropBytes start' rest
  | _, _ => s
  end.

(** [findMatchingBracket].  The index [start] is a natural number: the
    source is called with the result of a successful [strings.Index], and
    indexes [s] with it. *)
Definition findMatchingBracket (s : string) (start : nat) : Z :=
  match String.get start s with
  | Some c =>
      if Ascii.eqb c "["%char then
        scanBracket (dropBytes start s) (Z.of_nat start) 0
      else -1
  | None => -1
  end.

(** ** Specification-side definitions: brackets *)

Definition bracketStep (c : ascii) : Z :=
  if Ascii.eqb c "["%char then 1
  else if Ascii.eqb c "]"%char then -1
  else 0.

(** Opening minus closing brackets among the first [n] bytes of [s]. *)
Fixpoint bracketBalance (n : nat) (s : string) : Z :=
  match n, s with
  | S n', String c rest => bracketStep c + bracketBalance n' rest
  | _, _ => 0
  end.

(** [r] is the first index from [start] on at which the brackets opened
    since [start] are all closed. *)
Definition closesAt (s : string) (start r : nat) : Prop :=
  (start < r)%nat
  /\ String.get r s = Some "]"%char
  /\ bracketBalance (S (r - start)) (dropBytes start s) = 0
  /\ forall m, (m < r - start)%nat ->
       0 < bracketBalance (S m) (dropBytes start s).

(** Every prefix of [s] from [start] on leaves a bracket open. *)
Definition neverCloses (s : string) (start : nat) : Prop :=
  forall m, (start + m < String.length s)%nat ->
    0 < bracketBalance (S m) (dropBytes start s).

(** ** The trader package: construction *)

(** The fields of the source's [AutoTraderConfig] that [NewAutoTrader]
    reads besides those of [AutoTraderConfig] above. *)
Record TraderIdentity := mkTraderIdentity {
  cfg_ID : string;
  cfg_Name : string;
  cfg_AIModel : string;
  cfg_UseQwen : bool;
  cfg_Exchange : string;
  cfg_InitialBalance : Q
}.

(** What the constructors [NewAutoTrader] calls answer: the error of
    [SetGeminiAPIKey], of [NewHyperliquidTrader] and of [NewAsterTrader]
    ([None] is [nil]), and the clock. *)
Record ClientSetup := mkClientSetup {
  setup_gemini : option string;
  setup_hyperliquid : option string;
  setup_aster : option string;
  setup_now : Time
}.

(** The errors of [NewAutoTrader]. *)
Inductive NewTraderError :=
| ErrGeminiInit (msg : string)
| ErrHyperliquidInit (msg : string)
| ErrAsterInit (msg : string)
| ErrUnsupportedExchange (exchange : string)
| ErrInitialBalanceNotPositive.

(** The defaults of the backoff settings. *)
Definition withBackoffDefaults (c : AutoTraderConfig) : AutoTraderConfig :=
  if EnableExponentialBackoff c then
    mkAutoTraderConfig (ScanIntervalMinutes c) (BTCETHLeverage c)
      (AltcoinLeverage c) (EnableTrailingStop c) (TrailingStopDistance c)
      (TrailingStopActivation c) (EnablePartialTakeProfit c)
      (EnableExponentialBackoff c)
      (if (BackoffBaseMinutes c <=? 0)%Z then 45 else BackoffBaseMinutes c)
      (if fle (BackoffMultiplier c) 0 then round64 2.67
       else BackoffMultiplier c)
      (if (BackoffMaxMinutes c <=? 0)%Z then 360 else BackoffMaxMinutes c)
      (if (BackoffResetHours c <=? 0)%Z then 24 else BackoffResetHours c)
  else c.

(** The defaults of the identity: ID, name, AI model and exchange. *)
Definition withIdentityDefaults (i : TraderIdentity) : TraderIdentity :=
  mkTraderIdentity
    (if String.eqb (cfg_ID i) "" then "default_trader" else cfg_ID i)
    (if String.eqb (cfg_Name i) "" then "Default Trader" else cfg_Name i)
    (if String.eqb (cfg_AIModel i) "" then
       if cfg_UseQwen i then "qwen" else "deepseek"
     else cfg_AIModel i)
    (cfg_UseQwen i)
    (if String.eqb (cfg_Exchange i) "" then "binance" else cfg_Exchange i)
    (cfg_InitialBalance i).

(** [NewAutoTrader]: the identity and the trader object it returns. *)
Definition NewAutoTrader (identity : TraderIdentity)
    (config : AutoTraderConfig) (setup : ClientSetup)
    : NewTraderError + TraderIdentity * AutoTrader :=
  let identity := withIdentityDefaults identity in
  let config := withBackoffDefaults config in
  let aiInit : option NewTraderError :=
    if String.eqb (cfg_AIModel identity) "custom" then None
    else if String.eqb (cfg_AIModel identity) "gemini" then
      match setup_gemini setup with
      | Some msg => Some (ErrGeminiInit msg)
      | None => None
      end
    else None in
  match aiInit with
  | Some e => inl e
  | None =>
      let venue : option NewTraderError :=
        if String.eqb (cfg_Exchange identity) "binance" then None
        else if String.eqb (cfg_Exchange identity) "hyperliquid" then
          match setup_hyperliquid setup with
          | Some msg => Some (ErrHyperliquidInit msg)
          | None => None
          end
        else if String.eqb (cfg_Exchange identity) "aster" then
          match setup_aster setup with
          | Some msg => Some (ErrAsterInit msg)
          | None => None
          end
        else Some (ErrUnsupportedExchange (cfg_Exchange identity)) in
      match venue with
      | Some e => inl e
      | None =>
          if fle (cfg_InitialBalance identity) 0 then
            inl ErrInitialBalanceNotPositive
          else
            inr (identity,
                 mkAutoTrader config (cfg_InitialBalance identity) 0
                   (setup_now setup) 0 0 ∅ ∅ ∅ ∅ 0 0 0 0)
      end
  end.

(** ** Specification-side definitions: a new trader *)

(** The state of a trader that has not run a cycle yet. *)
Record startsClean (a : AutoTrader) : Prop := mkStartsClean {
  sc_balance_pos : (0 < initialBalance a)%Q;
  sc_callCount : callCount a = 0;
  sc_firstSeen : positionFirstSeenTime a = ∅;
  sc_conditions : positionInvalidationConditions a = ∅;
  sc_reasonings : positionReasonings a = ∅;
  sc_tracking : positionPnLTracking a = ∅;
  sc_stopLossCount : stopLossCount a = 0;
  sc_lastStopLossTime : lastStopLossTime a = 0;
  sc_backoffUntil : backoffUntil a = 0;
  sc_stopUntil : stopUntil a = 0
}.

(** With the backoff enabled its four settings are positive. *)
Definition backoffSettingsPositive (c : AutoTraderConfig) : Prop :=
  EnableExponentialBackoff c = true ->
  0 < BackoffBaseMinutes c /\ (0 < BackoffMultiplier c)%Q
  /\ 0 < BackoffMaxMinutes c /\ 0 < BackoffResetHours c.

(** A configuration with the backoff enabled and nothing set for it. *)
Definition cfgUnset : AutoTraderConfig :=
  mkAutoTraderConfig 3 10 5 true (round64 0.03) (round64 0.05) true true 0 0
    0 0.

Definition identityBlank : TraderIdentity :=
  mkTraderIdentity "" "" "" false "" 1000.

Definition setupFine : ClientSetup := mkClientSetup None None None 1000.

(** ** Further example runs *)

(** The refresh of [traderStale] when the venue reports the long of
    [heldLong] and the short of [heldShort]. *)
Definition refreshedTwo : (Error + Context) * Sys Script :=
  buildTradingContext (startSys traderStale worldTwoPositions).

Definition contextOf (r : (Error + Context) * Sys Script) : Context :=
  match r.1 with
  | inr ctx => ctx
  | inl _ => ctx0
  end.

(** The refresh of [traderBeforeLoss] after its position was stopped out
    at the venue. *)
Definition refreshedAfterLoss : (Error + Context) * Sys Script :=
  buildTradingContext (startSys traderBeforeLoss worldStoppedOut).

(** The venue does not answer. *)
Definition worldDown : Script :=
  mkScript 1000 (Err "timeout") [Ok []] [] true [Ok []] [].

(** ** Indicators ([market/data.go])

    The indicator functions behind [market.Get].  A slice is a [list]; an
    index expression [s[i]] out of range is the run-time panic of Go, here
    [None], and so is a function that panics.  The functions appear twice
    in the file, with the same text. *)

Record Kline := mkKline
  { OpenTime : Z; Open : Q; High : Q; Low : Q; Close : Q; Volume : Q;
    CloseTime : Z }.

(** [len(s)]. *)
Definition len {A} (s : list A) : Z := Z.of_nat (length s).

(** [s[i]] as a value. *)
Definition index {A} (s : list A) (i : Z) : option A :=
  if (i <? 0)%Z then None else s !! Z.to_nat i.

(** [s[i] = v]. *)
Definition store {A} (s : list A) (i : Z) (v : A) : option (list A) :=
  if (i <? 0)%Z then None
  else if (i <? len s)%Z then Some (<[Z.to_nat i := v]> s)
  else None.

(** [n] turns of a loop whose counter stands at [i]. *)
Fixpoint forLoop {A} (n : nat) (i : Z) (body : Z -> A -> option A) (acc : A)
    : option A :=
  match n with
  | O => Some acc
  | S n' =>
      match body i acc with
      | Some acc' => forLoop n' (i + 1) body acc'
      | None => None
      end
  end.

(** [for i := from; i < to; i++ { body }], the variables the body assigns
    being [acc]. *)
Definition for_ {A} (from to : Z) (body : Z -> A -> option A) (acc : A)
    : option A :=
  forLoop (Z.to_nat (to - from)) from body acc.

Section Indicators.
Local Open Scope Q_scope.

Definition calculateEMA (klines : list Kline) (period : Z) : option Q :=
  if (len klines <? period)%Z then Some 0
  else
    sum ← for_ 0 period
            (fun i sum => k ← index klines i; Some (sum + Close k)) 0;
    let ema := sum / ofZ period in
    let multiplier := 2 / ofZ (period + 1) in
    for_ period (len klines)
      (fun i ema =>
         k ← index klines i; Some ((Close k - ema) * multiplier + ema))
      ema.

(** [klines[i].Close - klines[i-1].Close]. *)
Definition closeChange (klines : list Kline) (i : Z) : option Q :=
  k ← index klines i;
  prev ← index klines (i - 1);
  Some (Close k - Close prev).

Definition calculateRSI (klines : list Kline) (period : Z) : option Q :=
  if (len klines <=? period)%Z then Some 0
  else
    sums ← for_ 1 (period + 1)
             (fun i sums =>
                let gains := fst sums in
                let losses := snd sums in
                change ← closeChange klines i;
                if fgt change 0 then Some (gains + change, losses)
                else Some (gains, losses + - change))
             (0, 0);
    let avgGain := fst sums / ofZ period in
    let avgLoss := snd sums / ofZ period in
    avgs ← for_ (period + 1) (len klines)
             (fun i avgs =>
                let avgGain := fst avgs in
                let avgLoss := snd avgs in
                change ← closeChange klines i;
                if fgt change 0 then
                  Some ((avgGain * ofZ (period - 1) + change) / ofZ period,
                        (avgLoss * ofZ (period - 1)) / ofZ period)
                else
                  Some ((avgGain * ofZ (period - 1)) / ofZ period,
                        (avgLoss * ofZ (period - 1) + - change) / ofZ period))
             (avgGain, avgLoss);
    let avgGain := fst avgs in
    let avgLoss := snd avgs in
    if Qeq_bool avgLoss 0 then Some 100
    else
      let rs := avgGain / avgLoss in
      let rsi := 100 - 100 / (1 + rs) in
      Some rsi.

Definition calculateATR (klines : list Kline) (period : Z) : option Q :=
  if (len klines <=? period)%Z then Some 0
  else
    trs ← for_ 1 (len klines)
            (fun i trs =>
               k ← index klines i;
               prev ← index klines (i - 1);
               let high := High k in
               let low := Low k in
               let prevClose := Close prev in
               let tr1 := high - low in
               let tr2 := Qabs (high - prevClose) in
               let tr3 := Qabs (low - prevClose) in
               store trs i (Qmax tr1 (Qmax tr2 tr3)))
            (replicate (length klines) 0);
    sum ← for_ 1 (period + 1)
            (fun i sum => tr ← index trs i; Some (sum + tr)) 0;
    let atr := sum / ofZ period in
    for_ (period + 1) (len klines)
      (fun i atr =>
         tr ← index trs i;
         Some ((atr * ofZ (period - 1) + tr) / ofZ period))
      atr.

(** Every close of the series lies between [lo] and [hi]. *)
Definition closesWithin (lo hi : Q) (klines : list Kline) : Prop :=
  Forall (fun k => lo <= Close k <= hi) klines.


(** No close is below the close before it. *)
Definition neverFalls (klines : list Kline) : Prop :=
  forall i c, closeChange klines i = Some c -> 0 <= c.

(** Every close is below the close before it. *)
Definition alwaysFalls (klines : list Kline) : Prop :=
  forall i c, closeChange klines i = Some c -> c < 0.

(** What the two loops of [calculateRSI] leave in [avgGain] and
    [avgLoss]. *)
Definition averagesOf (klines : list Kline) (avgGain avgLoss : Q) : Prop :=
  0 <= avgGain /\ 0 <= avgLoss
  /\ (neverFalls klines -> avgLoss == 0)
  /\ (alwaysFalls klines -> avgGain == 0 /\ 0 < avgLoss).

(** A series with the given closes, every bar spanning one unit around its
    close. *)
Definition barsOf (closes : list Q) : list Kline :=
  map (fun c => mkKline 0 c (c + 1) (c - 1) c 0 0) closes.

Definition seriesMixed : list Kline := barsOf [10; 12; 11; 13].
Definition seriesFlatThenUp : list Kline := barsOf [10; 10; 11; 11].
Definition seriesFalling : list Kline := barsOf [13; 12; 11; 9].

End Indicators.

(** ** Tactics *)

(** Closed comparisons of numbers. *)
Ltac decide_num :=
  vm_compute; first [ reflexivity | discriminate | intros; discriminate ].

(** Projections of a system state built by [mkSys]. *)
Ltac sys_simpl := cbn [world calls trader record config fst snd negb].

(** The end of the two open functions, once the venue has answered the
    open call: the bookkeeping and the protective orders only add calls. *)
Ltac open_tail :=
  unfold recordOpen, SetStopLoss, SetTakeProfit, now, bind, external,
    modifyTrader, getTrader, ret;
  sys_simpl;
  repeat match goal with
         | |- context [time_Now ?w] =>
             destruct (time_Now w) as [? ?]; sys_simpl
         | |- context [trader_SetStopLoss ?a ?b ?c ?d ?w] =>
             destruct (trader_SetStopLoss a b c d w) as [? ?]; sys_simpl
         | |- context [EnablePartialTakeProfit ?c] =>
             destruct (EnablePartialTakeProfit c); sys_simpl
         | |- context [trader_SetTakeProfit ?a ?b ?c ?d ?w] =>
             destruct (trader_SetTakeProfit a b c d w) as [? ?]; sys_simpl
         end;
  eexists; rewrite <- ?app_assoc; cbn [app]; reflexivity.

(** * Properties *)

(** ** The model on small inputs *)

Example trimsToEmpty_blank : trimsToEmpty "  " = true.
Proof. reflexivity. Qed.

Example trimsToEmpty_text : trimsToEmpty " close below 98 " = false.
Proof. reflexivity. Qed.

Example splitUnderscore_key :
  splitUnderscore "BTCUSDT_long" = ["BTCUSDT"; "long"].
Proof. reflexivity. Qed.

Example splitUnderscore_three :
  splitUnderscore "1000_PEPE_long" = ["1000"; "PEPE"; "long"].
Proof. reflexivity. Qed.

Example truncZ_minutes : truncZ 120.15 = 120.
Proof. reflexivity. Qed.

Example validateDecision_unknown_action :
  validateDecision (intent "BTCUSDT" "buy") 1000 10 5
  = Some (InvalidAction "buy").
Proof. reflexivity. Qed.

Example validateDecision_hold :
  validateDecision (intent "BTCUSDT" "hold") 1000 10 5 = None.
Proof. reflexivity. Qed.

Example validateDecisions_index :
  validateDecisions [openLongAt 104; intent "ETHUSDT" "buy"] 1000 10 5
  = Some (2%nat, InvalidAction "buy").
Proof. reflexivity. Qed.

Example backoffMinutesOf_growth :
  map (fun n => truncZ (backoffMinutesOf cfg0 n)) [1; 2; 3; 4]
  = [45; 120; 320; 360].
Proof. vm_compute. reflexivity. Qed.

(** ** Rounding to [float64] *)

Module FloatCheck.
Import PrimFloat.

(** [round64] and the four operations against the primitive floats of the
    kernel, which are the binary64 numbers of the machine: constants,
    sums, products, quotients, and products in the range of gradual
    underflow. *)
Example round64_is_binary64 :
  (round64 0.1 == ofFloat 0x1.999999999999ap-4)%Q
  /\ (fadd (round64 0.1) (round64 0.2)
      == ofFloat (0x1.999999999999ap-4 + 0x1.999999999999ap-3))%Q
  /\ (fmul 45 (round64 2.8) == ofFloat (45 * 0x1.6666666666666p+1))%Q
  /\ (fdiv (fsub (round64 1.3) (round64 1.1)) (round64 1.1)
      == ofFloat ((0x1.4cccccccccccdp+0 - 0x1.199999999999ap+0)
                  / 0x1.199999999999ap+0))%Q
  /\ (fdiv 1 3 == ofFloat (1 / 3))%Q
  /\ (fmul (ofFloat 0x1.0000000000001p-600) (ofFloat 0x1.8p-470)
      == ofFloat (0x1.0000000000001p-600 * 0x1.8p-470))%Q
  /\ (fmul (ofFloat 0x1p-600) (ofFloat 0x1.8p-499)
      == ofFloat (0x1p-600 * 0x1.8p-499))%Q.
Proof. repeat split; vm_compute; reflexivity. Qed.

End FloatCheck.

Lemma binary_round_aux_sign prec emax s m e l :
  SpecFloat.binary_round_aux prec emax s m e l
  = withSign s (SpecFloat.binary_round_aux prec emax false m e l).
Proof.
  unfold SpecFloat.binary_round_aux.
  destruct (SpecFloat.shr_fexp prec emax m e l) as [mrs' e'].
  destruct (SpecFloat.shr_fexp prec emax _ e' SpecFloat.loc_Exact)
    as [mrs'' e''].
  destruct (SpecFloat.shr_m mrs'') as [|p|p]; [reflexivity| |reflexivity].
  destruct (e'' <=? emax - prec)%Z; reflexivity.
Qed.

#[export] Instance round64_proper : Proper (Qeq ==> eq) round64.
Proof.
  intros x y E. unfold round64. rewrite (Qred_complete x y E). reflexivity.
Qed.

Lemma pow2_pos e : (0 < 2 ^ e)%Q.
Proof. apply Qpower_0_lt. reflexivity. Qed.

(** The quotient of two positive integers, rounded: a non-negative
    rational, or [otherwise]. *)
Lemma ofSF_quotient_nonneg m d (otherwise : Q) :
  (0 <= otherwise)%Q ->
  (0 <= ofSF (SpecFloat.SFdiv FloatOps.prec FloatOps.emax
                (SpecFloat.S754_finite false m 0)
                (SpecFloat.S754_finite false d 0)) otherwise)%Q.
Proof.
  intros Ho. unfold SpecFloat.SFdiv.
  destruct (SpecFloat.SFdiv_core_binary _ _ _ _ _ _) as [[mz ez] lz].
  cbn [xorb]. 
  destruct (SpecFloat.binary_round_aux _ _ false mz ez lz) as [s|s| |s m' e'] eqn:E;
    cbn [ofSF]; try lra.
  rewrite binary_round_aux_sign in E.
  destruct (SpecFloat.binary_round_aux _ _ false mz ez lz); try discriminate.
  cbn in E. injection E as <- _ _.
  apply Qmult_le_0_compat; [|apply Qlt_le_weak, pow2_pos].
  change 0%Q with (inject_Z 0). rewrite <- Zle_Qle. lia.
Qed.

Lemma round64_nonneg x : (0 <= x)%Q -> (0 <= round64 x)%Q.
Proof.
  intros Hx. unfold round64. cbv zeta.
  assert (Hy : (0 <= Qred x)%Q) by (rewrite Qred_correct; exact Hx).
  destruct (Qred x) as [n d] eqn:E. cbn [Qnum Qden].
  destruct n as [|m|m].
  - cbn. lra.
  - cbn [toSF]. apply ofSF_quotient_nonneg. exact Hy.
  - exfalso. unfold Qle in Hy. cbn in Hy. lia.
Qed.

Lemma ofSF_round_opp mz ez lz (otherwise : Q) :
  (ofSF (SpecFloat.binary_round_aux FloatOps.prec FloatOps.emax true mz ez lz)
     (- otherwise)
   == - ofSF (SpecFloat.binary_round_aux FloatOps.prec FloatOps.emax false
                mz ez lz) otherwise)%Q.
Proof.
  rewrite (binary_round_aux_sign _ _ true).
  pose proof (binary_round_aux_sign FloatOps.prec FloatOps.emax false mz ez lz)
    as Hf.
  destruct (SpecFloat.binary_round_aux _ _ false mz ez lz)
    as [s0|s0| |s0 m e]; cbn [withSign ofSF] in *; try reflexivity.
  injection Hf as ->. set (p := (2 ^ e)%Q).
  change (inject_Z (Z.neg m)) with (- inject_Z (Z.pos m))%Q. ring.
Qed.

Lemma round64_opp x : (round64 (- x) == - round64 x)%Q.
Proof.
  unfold round64. cbv zeta. rewrite Qred_opp.
  destruct (Qred x) as [n d]. cbn [Qnum Qden Qopp].
  destruct n as [|m|m]; cbv beta iota delta [Z.opp toSF].
  - cbn. reflexivity.
  - unfold SpecFloat.SFdiv.
    destruct (SpecFloat.SFdiv_core_binary _ _ _ _ _ _) as [[mz ez] lz].
    cbn [xorb]. apply (ofSF_round_opp mz ez lz (Z.pos m # d)).
  - unfold SpecFloat.SFdiv.
    destruct (SpecFloat.SFdiv_core_binary _ _ _ _ _ _) as [[mz ez] lz].
    cbn [xorb].
    rewrite (ofSF_round_opp mz ez lz (Z.pos m # d)).
    rewrite Qopp_involutive. reflexivity.
Qed.

Lemma fsub_swap x y : (fsub x y == - fsub y x)%Q.
Proof.
  unfold fsub. rewrite <- round64_opp.
  assert (E : (x - y == - (y - x))%Q) by ring.
  rewrite E. reflexivity.
Qed.

Lemma Qabs_fsub_pos x y : (y <= x)%Q -> (Qabs (fsub x y) == fsub x y)%Q.
Proof.
  intros H. apply Qabs_pos. apply round64_nonneg. lra.
Qed.

Lemma Qabs_fsub_neg x y : (x <= y)%Q -> (Qabs (fsub x y) == fsub y x)%Q.
Proof.
  intros H. rewrite fsub_swap. rewrite Qabs_opp.
  apply Qabs_pos. apply round64_nonneg. lra.
Qed.

(** ** Comparisons *)

Lemma fle_true x y : fle x y = true <-> (x <= y)%Q.
Proof. unfold fle. apply Qle_bool_iff. Qed.

Lemma fle_false x y : fle x y = false <-> (y < x)%Q.
Proof.
  unfold fle. split; intros H.
  - apply Qnot_le_lt. intros Hle. apply Qle_bool_iff in Hle. congruence.
  - destruct (Qle_bool x y) eqn:E; [|reflexivity].
    apply Qle_bool_iff in E. exfalso. apply (Qlt_not_le _ _ H E).
Qed.

Lemma fge_true x y : fge x y = true <-> (y <= x)%Q.
Proof. unfold fge. apply Qle_bool_iff. Qed.

Lemma fge_false x y : fge x y = false <-> (x < y)%Q.
Proof. unfold fge. apply (fle_false y x). Qed.

Lemma flt_true x y : flt x y = true <-> (x < y)%Q.
Proof.
  unfold flt. rewrite negb_true_iff. apply (fle_false y x).
Qed.

Lemma flt_false x y : flt x y = false <-> (y <= x)%Q.
Proof.
  unfold flt. rewrite negb_false_iff. apply Qle_bool_iff.
Qed.

Lemma fgt_true x y : fgt x y = true <-> (y < x)%Q.
Proof.
  unfold fgt. rewrite negb_true_iff. apply (fle_false x y).
Qed.

Lemma fgt_false x y : fgt x y = false <-> (x <= y)%Q.
Proof.
  unfold fgt. rewrite negb_false_iff. apply Qle_bool_iff.
Qed.


(** ** The validator *)

Lemma isOpenOrIncrease_cases a :
  isOpenOrIncrease a = true ->
  a = "open_long" \/ a = "open_short" \/ a = "increase_long" \/ a = "increase_short".
Proof.
  unfold isOpenOrIncrease. rewrite !orb_true_iff, !String.eqb_eq. tauto.
Qed.

#[export] Instance fadd_proper : Proper (Qeq ==> Qeq ==> eq) fadd.
Proof.
  intros x x' Ex y y' Ey. unfold fadd. apply round64_proper.
  rewrite Ex, Ey. reflexivity.
Qed.

#[export] Instance fsub_proper : Proper (Qeq ==> Qeq ==> eq) fsub.
Proof.
  intros x x' Ex y y' Ey. unfold fsub. apply round64_proper.
  rewrite Ex, Ey. reflexivity.
Qed.

#[export] Instance fmul_proper : Proper (Qeq ==> Qeq ==> eq) fmul.
Proof.
  intros x x' Ex y y' Ey. unfold fmul. apply round64_proper.
  rewrite Ex, Ey. reflexivity.
Qed.

#[export] Instance fdiv_proper : Proper (Qeq ==> Qeq ==> eq) fdiv.
Proof.
  intros x x' Ex y y' Ey. unfold fdiv. apply round64_proper.
  rewrite Ex, Ey. reflexivity.
Qed.

Lemma fmul_nonneg x y : (0 <= x)%Q -> (0 <= y)%Q -> (0 <= fmul x y)%Q.
Proof.
  intros Hx Hy. apply round64_nonneg. apply Qmult_le_0_compat; assumption.
Qed.

Lemma fdiv_nonneg x y : (0 <= x)%Q -> (0 < y)%Q -> (0 <= fdiv x y)%Q.
Proof.
  intros Hx Hy. apply round64_nonneg. apply Qle_shift_div_l; [exact Hy|].
  lra.
Qed.

(** A division by zero is outside the model; in it, the quotient is 0. *)
Lemma fdiv_by_zero w r : (r == 0)%Q -> fdiv w r = 0%Q.
Proof.
  intros E. unfold fdiv.
  assert (H : (w / r == 0)%Q).
  { rewrite E. unfold Qdiv. change (/ 0)%Q with 0%Q. ring. }
  rewrite (round64_proper _ _ H). reflexivity.
Qed.

(** The risk:reward rule on the risk and reward the code has computed: a
    risk that is not positive leaves the ratio at 0. *)
Lemma ratio_gate reward risk :
  (0 <= risk)%Q ->
  flt (if fgt risk 0 then fdiv reward risk else 0%Q) 2.0 = false
  <-> (2 <= fdiv reward risk)%Q.
Proof.
  intros Hr. destruct (fgt risk 0) eqn:E.
  - rewrite flt_false. split; intros; lra.
  - apply fgt_false in E. rewrite fdiv_by_zero by lra.
    split; [intros F; vm_compute in F; discriminate F|].
    intros F. exfalso. lra.
Qed.

(** C5.  For every open or increase intent that passes the rules before
    the risk:reward rule (among them the directional checks), the validator
    accepts the intent if and only if reward% / risk% is at least 2, where
    risk% = |entry - stop| / entry and reward% = |target - entry| / entry,
    in percent, every operation being the [float64] operation of the
    code. *)
Theorem validateDecision_risk_reward_gate d equity bl al :
  passesSanity d equity bl al ->
  validateDecision d equity bl al = None <-> (2 <= riskRewardRatio d)%Q.
Proof.
  intros [Ha [Hl1 Hl2] Hsp Hsm He Hs Ht Hinv Hdir].
  unfold leverageCeiling in Hl2. unfold notionalCeiling in Hsm.
  assert (Hlev : ((Leverage d <=? 0) ||
            (Leverage d >? (if isBtcEth (Symbol d) then bl else al)))%Z = false).
  { apply orb_false_iff. split; [apply Z.leb_gt; lia|].
    rewrite Z.gtb_ltb. apply Z.ltb_ge. lia. }
  assert (Hsz : fle (PositionSizeUSD d) 0 = false) by (apply fle_false; exact Hsp).
  assert (Hmx : fgt (PositionSizeUSD d)
            (fadd (if isBtcEth (Symbol d) then fmul equity 10
                   else fmul equity 5)
               (fmul (if isBtcEth (Symbol d) then fmul equity 10
                      else fmul equity 5) (round64 0.01))) = false)
    by (apply fgt_false; exact Hsm).
  assert (Hen : fle (EntryPrice d) 0 = false) by (apply fle_false; exact He).
  assert (Hst : fle (StopLoss d) 0 || fle (TakeProfit d) 0 = false).
  { apply orb_false_iff; split; apply fle_false; assumption. }
  unfold validateDecision, riskRewardRatio, riskPct, rewardPct.
  cbv zeta.
  rewrite Ha, Hlev, Hsz, Hmx, Hen, Hst, Hinv.
  destruct (isOpenOrIncrease_cases _ Ha) as [A|[A|[A|A]]]; rewrite A in *;
    cbn [isValidAction existsb validActions String.eqb Ascii.eqb Bool.eqb negb orb
         isLongEntry isShortEntry] in *;
    destruct Hdir as [H1 H2].
  1,3: (
    rewrite (proj2 (fge_false (StopLoss d) (EntryPrice d)) H1);
    rewrite (proj2 (fle_false (TakeProfit d) (EntryPrice d)) H2);
    rewrite (Qabs_fsub_pos (EntryPrice d) (StopLoss d)) by lra;
    rewrite (Qabs_fsub_pos (TakeProfit d) (EntryPrice d)) by lra;
    rewrite <- ratio_gate
      by (apply fmul_nonneg; [apply fdiv_nonneg;
            [apply round64_nonneg; lra|exact He]|lra]);
    destruct (flt _ 2.0); split; congruence).
  all: rewrite (proj2 (fle_false (StopLoss d) (EntryPrice d)) H2);
    rewrite (proj2 (fge_false (TakeProfit d) (EntryPrice d)) H1);
    rewrite (Qabs_fsub_neg (EntryPrice d) (StopLoss d)) by lra;
    rewrite (Qabs_fsub_neg (TakeProfit d) (EntryPrice d)) by lra;
    rewrite <- ratio_gate
      by (apply fmul_nonneg; [apply fdiv_nonneg;
            [apply round64_nonneg; lra|exact He]|lra]);
    destruct (flt _ 2.0); split; congruence.
Qed.

(** C5, the two examples: entry 100, stop 98 and target 103 give the ratio
    1.5 and a rejection; target 104 gives the ratio 2 and an acceptance. *)
Lemma validateDecision_risk_reward_examples :
  (riskRewardRatio (openLongAt 103) == 1.5)%Q
  /\ validateDecision (openLongAt 103) 1000 10 5 <> None
  /\ (riskRewardRatio (openLongAt 104) == 2)%Q
  /\ validateDecision (openLongAt 104) 1000 10 5 = None.
Proof.
  assert (S : forall t, (100 < t)%Q -> passesSanity (openLongAt t) 1000 10 5).
  { intros t Ht. constructor; try decide_num.
    - cbn. lia.
    - cbn. lra.
    - cbn. split; [decide_num | exact Ht]. }
  split; [decide_num|]. split.
  - intros E.
    apply (validateDecision_risk_reward_gate _ _ _ _ (S 103%Q ltac:(decide_num)))
      in E.
    revert E. vm_compute. intros E. apply E. reflexivity.
  - split; [decide_num|].
    apply (validateDecision_risk_reward_gate _ _ _ _ (S 104%Q ltac:(decide_num))).
    decide_num.
Defined.

(** The ratio is the [float64] value the code computes.  Entry 1.1, stop
    1.0 and target 1.3 have the ratio 2 in exact arithmetic; the code
    computes a ratio just below 2 and rejects the intent.  Entry 1.02, stop
    0.02 and target 3.02, as [float64] values, are not in the ratio 2
    exactly; the code computes the ratio 2 and accepts the intent. *)
Example risk_reward_in_float64 :
  let below :=
    mkDecision "BTCUSDT" "open_long" 5 100 (round64 1.1) 1 (round64 1.3) 80
      2 "breakout" "close below 1" in
  let at2 :=
    mkDecision "BTCUSDT" "open_long" 5 100 (round64 1.02) (round64 0.02)
      (round64 3.02) 80 2 "breakout" "close below 0.02" in
  (riskRewardRatio below < 2)%Q
  /\ is_Some (validateDecision below 1000 10 5)
  /\ ~ (TakeProfit at2 - EntryPrice at2
        == 2 * (EntryPrice at2 - StopLoss at2))%Q
  /\ (riskRewardRatio at2 == 2)%Q
  /\ validateDecision at2 1000 10 5 = None.
Proof.
  cbv zeta. split; [vm_compute; reflexivity|].
  split; [vm_compute; eexists; reflexivity|].
  split; [vm_compute; intros E; discriminate E|].
  split; vm_compute; reflexivity.
Qed.

(** ** The sequencer *)

Lemma transpose_inj i j : Inj (=) (=) (transpose i j).
Proof.
  intros a b. unfold transpose.
  repeat case_decide; intros; subst; try congruence.
Qed.

Lemma swap_lookup (l : list Decision) i j k :
  (i < length l)%nat -> (j < length l)%nat ->
  swap l i j !! k = l !! transpose i j k.
Proof.
  intros Hi Hj. unfold swap, transpose.
  destruct (lookup_lt_is_Some_2 l i Hi) as [x Hx].
  destruct (lookup_lt_is_Some_2 l j Hj) as [y Hy].
  rewrite Hx, Hy.
  destruct (decide (k = i)) as [->|Hki].
  - destruct (decide (j = i)) as [->|Hji].
    + rewrite list_lookup_insert_eq by (rewrite length_insert; lia). congruence.
    + rewrite list_lookup_insert_ne by done.
      rewrite list_lookup_insert_eq by lia. congruence.
  - destruct (decide (k = j)) as [->|Hkj].
    + rewrite list_lookup_insert_eq by (rewrite length_insert; lia). congruence.
    + rewrite !list_lookup_insert_ne by done. done.
Qed.

Lemma swap_length (l : list Decision) i j : length (swap l i j) = length l.
Proof.
  unfold swap. destruct (l !! i), (l !! j); rewrite ?length_insert; done.
Qed.

Lemma swap_Permutation (l : list Decision) i j : Permutation (swap l i j) l.
Proof.
  destruct (decide (i < length l)%nat) as [Hi|Hi].
  - destruct (decide (j < length l)%nat) as [Hj|Hj].
    + apply Permutation_inj. split; [apply swap_length|].
      exists (transpose i j). split; [apply transpose_inj|].
      intros k. by apply swap_lookup.
    + unfold swap. rewrite (lookup_ge_None_2 l j) by lia.
      by destruct (l !! i).
  - unfold swap. by rewrite (lookup_ge_None_2 l i) by lia.
Qed.

Section SequencerFacts.

Variable priority : string -> Z.

Lemma compareSwap_length l i j : length (compareSwap priority l i j) = length l.
Proof.
  unfold compareSwap. destruct (l !! i), (l !! j); try done.
  case_match; [apply swap_length|done].
Qed.

Lemma compareSwap_Permutation l i j : Permutation (compareSwap priority l i j) l.
Proof.
  unfold compareSwap. destruct (l !! i), (l !! j); try done.
  case_match; [apply swap_Permutation|done].
Qed.

(** What one test of the inner loop does to the lookups. *)
Lemma compareSwap_cases (l : list Decision) i j x y :
  l !! i = Some x -> l !! j = Some y ->
  (prioBy priority x <= prioBy priority y /\ compareSwap priority l i j = l) \/
  (prioBy priority y < prioBy priority x /\ forall k, compareSwap priority l i j !! k = l !! transpose i j k).
Proof.
  intros Hx Hy. unfold compareSwap. rewrite Hx, Hy. fold (prioBy priority x) (prioBy priority y).
  destruct (prioBy priority x >? prioBy priority y) eqn:E.
  - right. split; [lia|]. intros k. apply swap_lookup; by eapply lookup_lt_Some.
  - left. split; [lia|done].
Qed.

Lemma compareSwap_step l i j :
  (i < j)%nat -> (j < length l)%nat ->
  headLeast priority l i j ->
  headLeast priority (compareSwap priority l i j) i (S j)
  /\ samePrefix i (compareSwap priority l i j) l
  /\ fromSuffix i (compareSwap priority l i j) l.
Proof.
  intros Hij Hj Hinv.
  destruct (lookup_lt_is_Some_2 l i ltac:(lia)) as [x Hx].
  destruct (lookup_lt_is_Some_2 l j Hj) as [y Hy].
  destruct (compareSwap_cases l i j x y Hx Hy) as [[Hle ->]|[Hlt Hlk]].
  - split; [|split].
    + intros k a b Hk Ha Hb. destruct (decide (k = j)) as [->|].
      * congruence.
      * apply (Hinv k); [lia|done..].
    + done.
    + intros k a ? ?. eauto.
  - split; [|split].
    + intros k a b Hk. rewrite !Hlk. unfold transpose.
      rewrite decide_True by done.
      destruct (decide (k = i)); [lia|].
      destruct (decide (k = j)) as [->|].
      * intros. assert (a = y) by congruence. assert (b = x) by congruence.
        subst. lia.
      * intros Ha Hb. assert (a = y) by congruence. subst.
        specialize (Hinv k x b ltac:(lia) Hx Hb). lia.
    + intros k Hk. rewrite Hlk. unfold transpose.
      rewrite !decide_False by lia. done.
    + intros k a Hk. rewrite Hlk. intros Ha. exists (transpose i j k).
      split; [|done]. unfold transpose. repeat case_decide; lia.
Qed.

Lemma innerLoop_spec n : forall i j l,
  (i < j)%nat -> (j + n = length l)%nat ->
  headLeast priority l i j ->
  let l' := innerLoop priority n i j l in
  Permutation l' l /\ headLeast priority l' i (length l)
  /\ samePrefix i l' l /\ fromSuffix i l' l.
Proof.
  induction n as [|n IH]; intros i j l Hij Hlen Hinv; simpl.
  - split; [done|]. split; [|split].
    + replace (length l) with j by lia. done.
    + done.
    + intros k x ? ?. eauto.
  - destruct (compareSwap_step l i j Hij ltac:(lia) Hinv) as (H1 & H2 & H3).
    assert (Hlen' : (S j + n = length (compareSwap priority l i j))%nat)
      by (rewrite compareSwap_length; lia).
    destruct (IH i (S j) (compareSwap priority l i j) ltac:(lia) Hlen' H1)
      as (P & HL & SP & FS).
    rewrite compareSwap_length in HL.
    split; [|split; [|split]].
    + etrans; [exact P|apply compareSwap_Permutation].
    + exact HL.
    + intros k Hk. rewrite SP by done. by apply H2.
    + intros k x Hk Hx. destruct (FS k x Hk Hx) as (k1 & Hk1 & Hx1).
      by apply (H3 k1).
Qed.

Lemma outerLoop_spec n : forall i l,
  (i + n + 1 = length l)%nat ->
  sortedBelow priority l i ->
  Permutation (outerLoop priority n i l) l /\ sortedBelow priority (outerLoop priority n i l) (i + n).
Proof.
  induction n as [|n IH]; intros i l Hlen Hinv; simpl.
  - split; [done|]. by replace (i + 0)%nat with i by lia.
  - set (l1 := innerLoop priority (length l - S i) i (S i) l).
    destruct (innerLoop_spec (length l - S i) i (S i) l ltac:(lia) ltac:(lia))
      as (P & HL & SP & FS).
    { intros k x y Hk. lia. }
    fold l1 in P, HL, SP, FS.
    assert (Hlen1 : length l1 = length l) by (by apply Permutation_length).
    destruct (IH (S i) l1 ltac:(lia)) as (P2 & S2).
    { intros a b x y Ha Hab Hx Hy.
      destruct (decide (a = i)) as [->|].
      - apply (HL b x y); [|done..]. split; [lia|].
        rewrite <- Hlen1. by eapply lookup_lt_Some.
      - rewrite SP in Hx by lia.
        destruct (decide (b < i)%nat).
        + rewrite SP in Hy by lia. apply (Hinv a b); [lia|lia|done..].
        + destruct (FS b y ltac:(lia) Hy) as (k' & Hk' & Hy').
          apply (Hinv a k'); [lia|lia|done..]. }
    split.
    + etrans; [exact P2|exact P].
    + by replace (i + S n)%nat with (S i + n)%nat by lia.
Qed.

Lemma sortedBelow_StronglySorted (l : list Decision) :
  sortedBelow priority l (length l) ->
  StronglySorted (fun x y => prioBy priority x <= prioBy priority y) l.
Proof.
  induction l as [|x l IH]; intros Hs; [constructor|].
  constructor.
  - apply IH. intros a b u v Ha Hab Hu Hv.
    apply (Hs (S a) (S b)); [simpl; lia|lia|done..].
  - apply Forall_forall. intros y Hy.
    apply list_elem_of_lookup in Hy as [k Hk].
    apply (Hs O (S k)); [simpl; lia|lia|done..].
Qed.

Lemma exchangeSort_spec ds :
  Permutation (exchangeSort priority ds) ds /\
  StronglySorted (fun x y => prioBy priority x <= prioBy priority y)
    (exchangeSort priority ds).
Proof.
  unfold exchangeSort.
  destruct (length ds <=? 1)%nat eqn:E.
  - apply Nat.leb_le in E. split; [done|].
    destruct ds as [|x [|y ds]]; simpl in E; try lia; repeat constructor.
  - apply Nat.leb_gt in E.
    destruct (outerLoop_spec (length ds - 1) 0 ds ltac:(lia)) as (P & S).
    { intros a b x y Ha. lia. }
    split; [done|].
    apply sortedBelow_StronglySorted.
    intros a b x y Ha Hab Hx Hy.
    apply (S a b); [|done..].
    apply lookup_lt_Some in Hy.
    rewrite (Permutation_length P) in Hy. lia.
Qed.

End SequencerFacts.

Lemma sort_spec ds :
  Permutation (sortDecisionsByPriority ds) ds /\
  StronglySorted (fun x y => prio x <= prio y) (sortDecisionsByPriority ds).
Proof. apply (exchangeSort_spec getActionPriority). Qed.


(** Any action outside the eleven valid ones falls in the [default] case of
    the priority switch. *)
Ltac unknown_action a Ha :=
  repeat match goal with
         | |- context [String.eqb a ?s] =>
             destruct (String.eqb_spec a s) as [->|_];
             [exfalso; apply Ha; cbn; tauto|]
         end;
  reflexivity.



(** X28.  The sorter of [unnamed/part_011] returns a permutation of the
    batch in non-decreasing priority number, with the numbers of its own
    closure: 1 for close_*, 2 for open_*, 3 for hold and wait, and 999 for
    every other action, decrease_*, increase_* and update_loss_profit among
    them: these come last.  It reorders [open_long BTC, close_short ETH,
    decrease_long SOL] to [close_short ETH, open_long BTC,
    decrease_long SOL]. *)
Theorem sortDecisionsByPriority_three_classes :
  (forall ds,
      Permutation (sortDecisionsByPriority ds) ds
      /\ StronglySorted (fun x y => prio x <= prio y)
           (sortDecisionsByPriority ds))
  /\ map getActionPriority validActions
     = [2; 2; 1; 1; 999; 999; 999; 999; 3; 3; 999]
  /\ (forall a, ~ In a validActions -> getActionPriority a = 999)
  /\ sortDecisionsByPriority batchThree
     = [ intent "ETH" "close_short"; intent "BTC" "open_long";
         intent "SOL" "decrease_long" ].
Proof.
  split; [exact sort_spec|]. split; [reflexivity|]. split; [|reflexivity].
  intros a Ha. unfold getActionPriority. unknown_action a Ha.
Qed.

(** ** Validation of a batch *)

Lemma validateDecisionsFrom_first i ds equity bl al d :
  In d ds -> validateDecision d equity bl al <> None ->
  exists pre bad post e,
    ds = (pre ++ bad :: post)%list
    /\ Forall (fun x => validateDecision x equity bl al = None) pre
    /\ validateDecision bad equity bl al = Some e
    /\ validateDecisionsFrom i ds equity bl al
       = Some ((i + length pre + 1)%nat, e).
Proof.
  revert i. induction ds as [|x ds IH]; intros i Hin Hbad; [destruct Hin|].
  simpl. destruct (validateDecision x equity bl al) as [e|] eqn:E.
  - exists [], x, ds, e. simpl. repeat split; try done.
    do 2 f_equal. lia.
  - destruct Hin as [->|Hin]; [congruence|].
    destruct (IH (S i) Hin Hbad) as (pre & bad & post & e & -> & Hpre & Hb & Hv).
    exists (x :: pre), bad, post, e. simpl. repeat split; try done.
    + by constructor.
    + rewrite Hv. do 2 f_equal. lia.
Qed.

(** ** The dispatcher *)

Lemma sideOfOpen_cases action side :
  sideOfOpen action = Some side ->
  (action = "open_long" /\ side = "long")
  \/ (action = "open_short" /\ side = "short").
Proof.
  unfold sideOfOpen.
  destruct (String.eqb_spec action "open_long") as [->|_].
  - intros [= <-]. by left.
  - destruct (String.eqb_spec action "open_short") as [->|_]; [|done].
    intros [= <-]. by right.
Qed.

Lemma hasPosition_true positions symbol side p :
  In p positions -> rp_symbol p = symbol -> rp_side p = side ->
  hasPosition positions symbol side = true.
Proof.
  intros Hin Hs Hd. unfold hasPosition. apply existsb_exists.
  exists p. split; [done|].
  apply andb_true_iff. split; by apply String.eqb_eq.
Qed.

Section DispatcherFacts.

Context {W : Type} `{External W}.

(** C1, as the code has it.  When the re-read of the live positions at
    dispatch time succeeds and reports a position with the symbol of an
    open_long (open_short) intent and the side long (short), the dispatch
    is rejected with the anti-stacking error; the only call made is the
    re-read itself, so no venue open call is made, and the trader state is
    unchanged. *)
Theorem open_rejected_when_position_exists d actionRecord (s : Sys W) side
    positions w' p :
  sideOfOpen (Action d) = Some side ->
  trader_GetPositions (world s) = (Ok positions, w') ->
  In p positions -> rp_symbol p = Symbol d -> rp_side p = side ->
  executeDecisionWithRecord d actionRecord s
  = ((Some (antiStackingError side (Symbol d)), actionRecord),
     mkSys (trader s) w' (calls s ++ [CallGetPositions])%list (record s)).
Proof.
  intros Hside Hget Hin Hsym Hp.
  pose proof (hasPosition_true _ _ _ _ Hin Hsym Hp) as Hhas.
  destruct (sideOfOpen_cases _ _ Hside) as [[Ha ->]|[Ha ->]];
    unfold executeDecisionWithRecord; rewrite Ha;
    cbn [String.eqb Ascii.eqb Bool.eqb];
    unfold executeOpenLongWithRecord, executeOpenShortWithRecord,
      bind, GetPositions, external;
    rewrite Hget, Hhas; reflexivity.
Qed.

(** The open functions of [unnamed/part_011]: when the anti-stacking check
    lets an open intent through and the market price is available, the venue
    open call is made with positionSizeUSD / currentMarketPrice, whatever
    the entry price of the intent. *)
Lemma open_at_market_price d actionRecord (s : Sys W) side ps w1 price w2 :
  sideOfOpen (Action d) = Some side ->
  trader_GetPositions (world s) = (ps, w1) ->
  match ps with
  | Ok positions => hasPosition positions (Symbol d) side = false
  | Err _ => True
  end ->
  market_Get (Symbol d) 3 w1 = (Ok price, w2) ->
  exists rest,
    calls (executeDecisionWithRecord d actionRecord s).2
    = (calls s ++
       [CallGetPositions; CallMarketGet (Symbol d) 3;
        openCall side (Symbol d) (PositionSizeUSD d / price) (Leverage d)]
       ++ rest)%list.
Proof.
  intros Hside Hget Hfree Hprice.
  assert (Hscan : match ps with
                  | Ok positions => hasPosition positions (Symbol d) side
                  | Err _ => false
                  end = false)
    by (destruct ps; [exact Hfree|reflexivity]).
  destruct (sideOfOpen_cases _ _ Hside) as [[Ha ->]|[Ha ->]];
    unfold executeDecisionWithRecord; rewrite Ha;
    cbn [String.eqb Ascii.eqb Bool.eqb];
    unfold executeOpenLongWithRecord, executeOpenShortWithRecord, bind,
      GetPositions, marketGet, OpenLong, OpenShort, external;
    rewrite Hget; sys_simpl; rewrite Hscan; sys_simpl;
    rewrite Hprice; sys_simpl.
  - destruct (trader_OpenLong _ _ _ w2) as [[oid|msg] w3]; open_tail.
  - destruct (trader_OpenShort _ _ _ w2) as [[oid|msg] w3]; open_tail.
Qed.

(** The open functions of the second trader: a market price more than 3%
    away from the entry price of the intent ends the function with the
    price-deviation error, after the two reads and before any order. *)
Lemma secondOpen_drift d actionRecord (s : Sys W) side ps w1 price w2 :
  side = "long" \/ side = "short" ->
  trader_GetPositions (world s) = (ps, w1) ->
  match ps with
  | Ok positions => hasPosition positions (Symbol d) side = false
  | Err _ => True
  end ->
  market_Get (Symbol d) 3 w1 = (Ok price, w2) ->
  (3 < Qabs (priceDiffPct price (EntryPrice d)))%Q ->
  secondOpen side d actionRecord s
  = ((Some (ErrPriceDrift (priceDiffPct price (EntryPrice d))), actionRecord),
     mkSys (trader s) w2
       (calls s ++ [CallGetPositions; CallMarketGet (Symbol d) 3])%list
       (record s)).
Proof.
  intros Hside Hget Hfree Hprice Hdrift.
  assert (Hscan : match ps with
                  | Ok positions => hasPosition positions (Symbol d) side
                  | Err _ => false
                  end = false)
    by (destruct ps; [exact Hfree|reflexivity]).
  assert (Htest : fgt (priceDiffPct price (EntryPrice d)) 3
                  || flt (priceDiffPct price (EntryPrice d)) (-3) = true).
  { apply orb_true_iff. revert Hdrift.
    apply Qabs_case; intros Hs Hd;
      [left; apply fgt_true; exact Hd|right; apply flt_true; lra]. }
  unfold priceDiffPct in Htest.
  destruct Hside as [->| ->]; unfold secondOpen;
    cbn [String.eqb Ascii.eqb Bool.eqb];
    unfold SecondTrader.executeOpenLongWithRecord,
      SecondTrader.executeOpenShortWithRecord, bind, GetPositions, marketGet,
      external, ret;
    rewrite Hget; sys_simpl; rewrite Hscan; sys_simpl;
    rewrite Hprice; sys_simpl; cbv zeta; rewrite Htest;
    rewrite <- app_assoc; reflexivity.
Qed.

(** Within 3%, the second trader opens with positionSizeUSD /
    currentMarketPrice. *)
Lemma secondOpen_at_market_price d actionRecord (s : Sys W) side ps w1 price
    w2 :
  side = "long" \/ side = "short" ->
  trader_GetPositions (world s) = (ps, w1) ->
  match ps with
  | Ok positions => hasPosition positions (Symbol d) side = false
  | Err _ => True
  end ->
  market_Get (Symbol d) 3 w1 = (Ok price, w2) ->
  (Qabs (priceDiffPct price (EntryPrice d)) <= 3)%Q ->
  exists rest,
    calls (secondOpen side d actionRecord s).2
    = (calls s ++
       [CallGetPositions; CallMarketGet (Symbol d) 3;
        openCall side (Symbol d) (PositionSizeUSD d / price) (Leverage d)]
       ++ rest)%list.
Proof.
  intros Hside Hget Hfree Hprice Hnear.
  assert (Hscan : match ps with
                  | Ok positions => hasPosition positions (Symbol d) side
                  | Err _ => false
                  end = false)
    by (destruct ps; [exact Hfree|reflexivity]).
  assert (Htest : fgt (priceDiffPct price (EntryPrice d)) 3
                  || flt (priceDiffPct price (EntryPrice d)) (-3) = false).
  { apply orb_false_iff. revert Hnear.
    apply Qabs_case; intros Hs Hd;
      (split; [apply fgt_false|apply flt_false]); lra. }
  unfold priceDiffPct in Htest.
  destruct Hside as [->| ->]; unfold secondOpen;
    cbn [String.eqb Ascii.eqb Bool.eqb];
    unfold SecondTrader.executeOpenLongWithRecord,
      SecondTrader.executeOpenShortWithRecord, bind, GetPositions, marketGet,
      OpenLong, OpenShort, external;
    rewrite Hget; sys_simpl; rewrite Hscan; sys_simpl;
    rewrite Hprice; sys_simpl; cbv zeta; rewrite Htest; cbv beta iota;
    sys_simpl.
  - destruct (trader_OpenLong _ _ _ w2) as [[oid|msg] w3]; open_tail.
  - destruct (trader_OpenShort _ _ _ w2) as [[oid|msg] w3]; open_tail.
Qed.

(** C10, as the code has it.  When an intent of the proposed batch fails
    validation, validation stops at the first failing intent and the whole
    batch is rejected with that intent's index and reason: the cycle records
    the failure, saves its record and returns the error; no intent of the
    batch is dispatched (no call follows the AI call but the save of the
    record), and the trader state is unchanged. *)
Theorem batch_rejected_on_first_invalid_intent ctx (s : Sys W) ds w' d :
  ai_GetDecisions ctx (world s) = (Ok ds, w') ->
  In d ds ->
  validateDecision d (TotalEquity (ctx_Account ctx)) (ctx_BTCETHLeverage ctx)
    (ctx_AltcoinLeverage ctx) <> None ->
  exists pre bad post e,
    ds = (pre ++ bad :: post)%list
    /\ Forall (fun x => validateDecision x (TotalEquity (ctx_Account ctx))
                          (ctx_BTCETHLeverage ctx) (ctx_AltcoinLeverage ctx)
                        = None) pre
    /\ validateDecision bad (TotalEquity (ctx_Account ctx))
         (ctx_BTCETHLeverage ctx) (ctx_AltcoinLeverage ctx) = Some e
    /\ let err := ErrGetDecision (ErrValidation (S (length pre)) e) in
       let r := mkDecisionRecord false (Some err) (rec_Decisions (record s))
                  (rec_ExecutionLog (record s)) in
       solicitAndDispatch ctx s
       = (Some err,
          mkSys (trader s) (logger_LogDecision r w')
            (calls s ++ [CallAI ctx; CallLogDecision r])%list r).
Proof.
  intros Hai Hin Hbad.
  destruct (validateDecisionsFrom_first 0 ds _ _ _ d Hin Hbad)
    as (pre & bad & post & e & Hds & Hpre & Hb & Hv).
  exists pre, bad, post, e. repeat split; try done.
  unfold solicitAndDispatch, GetFullDecision, bind, external.
  rewrite Hai. unfold validateDecisions. rewrite Hv. simpl.
  replace (length pre + 1)%nat with (S (length pre)) by lia.
  rewrite <- app_assoc. reflexivity.
Qed.

End DispatcherFacts.

(** C8, as the code has it.  When the anti-stacking check lets an open
    intent through and the market price is available: the open functions of
    [unnamed/part_011] make the venue open call with positionSizeUSD /
    currentMarketPrice whatever the entry price of the intent is; the open
    functions of the second trader, on an intent with a positive entry
    price, return the price-deviation error, after the two reads and
    without any order, when the market price is more than 3% away from the
    entry price (the deviation being the [float64] value
    [(price - entry) / entry * 100]), and otherwise make the venue open call
    with positionSizeUSD / currentMarketPrice. *)
Theorem open_quantity_from_market_price :
  forall (W : Type) (E : External W) d actionRecord (s : Sys W) side ps w1
         price w2,
    sideOfOpen (Action d) = Some side ->
    trader_GetPositions (world s) = (ps, w1) ->
    match ps with
    | Ok positions => hasPosition positions (Symbol d) side = false
    | Err _ => True
    end ->
    market_Get (Symbol d) 3 w1 = (Ok price, w2) ->
    (exists rest,
        calls (executeDecisionWithRecord d actionRecord s).2
        = (calls s ++
           [CallGetPositions; CallMarketGet (Symbol d) 3;
            openCall side (Symbol d) (PositionSizeUSD d / price) (Leverage d)]
           ++ rest)%list)
    /\ ((0 < EntryPrice d)%Q ->
        (3 < Qabs (priceDiffPct price (EntryPrice d)))%Q ->
        secondOpen side d actionRecord s
        = ((Some (ErrPriceDrift (priceDiffPct price (EntryPrice d))),
            actionRecord),
           mkSys (trader s) w2
             (calls s ++ [CallGetPositions; CallMarketGet (Symbol d) 3])%list
             (record s)))
    /\ ((0 < EntryPrice d)%Q ->
        (Qabs (priceDiffPct price (EntryPrice d)) <= 3)%Q ->
        exists rest,
          calls (secondOpen side d actionRecord s).2
          = (calls s ++
             [CallGetPositions; CallMarketGet (Symbol d) 3;
              openCall side (Symbol d) (PositionSizeUSD d / price)
                (Leverage d)]
             ++ rest)%list).
Proof.
  intros W E d actionRecord s side ps w1 price w2 Hside Hget Hfree Hprice.
  assert (Hs : side = "long" \/ side = "short")
    by (destruct (sideOfOpen_cases _ _ Hside) as [[_ ->]|[_ ->]]; tauto).
  split; [|split].
  - by apply (open_at_market_price d actionRecord s side ps w1 price w2).
  - intros _.
    by apply (secondOpen_drift d actionRecord s side ps w1 price w2).
  - intros _.
    by apply (secondOpen_at_market_price d actionRecord s side ps w1 price w2).
Qed.

(** ** The dispatcher on examples *)

(** C1 on an example: BTCUSDT is held long and an open_long on BTCUSDT is
    dispatched. *)
Lemma open_rejected_when_position_exists_witness :
  executeDecisionWithRecord (openLongAt 104) (newActionRecord (openLongAt 104))
    (startSys trader0 (worldHolding 104))
  = ((Some (ErrAlreadyLong "BTCUSDT"), newActionRecord (openLongAt 104)),
     mkSys trader0 (worldHolding 104) [CallGetPositions]
       (mkDecisionRecord true None [] [])).
Proof.
  exact (open_rejected_when_position_exists (openLongAt 104)
           (newActionRecord (openLongAt 104))
           (startSys trader0 (worldHolding 104)) "long"
           [heldLong 1 104] (worldHolding 104) (heldLong 1 104)
           eq_refl eq_refl (or_introl eq_refl) eq_refl eq_refl).
Defined.

(** C1 as stated fails: the venue holds a long on BTCUSDT, the re-read of
    the positions fails, and the open_long on BTCUSDT is sent to the venue;
    the read that follows reports the long that was there. *)
Lemma open_proceeds_when_reread_fails :
  (executeDecisionWithRecord (openLongAt 104)
     (newActionRecord (openLongAt 104))
     (startSys trader0 (worldOutage 104))).1.1 = None
  /\ calls (executeDecisionWithRecord (openLongAt 104)
              (newActionRecord (openLongAt 104))
              (startSys trader0 (worldOutage 104))).2
     = [CallGetPositions; CallMarketGet "BTCUSDT" 3;
        CallOpenLong "BTCUSDT" (100 / 104) 5;
        CallSetStopLoss "BTCUSDT" "LONG" (100 / 104) 98]
  /\ (trader_GetPositions
        (world (executeDecisionWithRecord (openLongAt 104)
                  (newActionRecord (openLongAt 104))
                  (startSys trader0 (worldOutage 104))).2)).1
     = Ok [heldLong 1 104].
Proof.
  repeat split; vm_compute; reflexivity.
Qed.

(** C8 on an example: the intent has the entry price 100 and the size 100,
    the market price is 200.  The open function of [unnamed/part_011] sends
    the open with the quantity 100 / 200; the one of the second trader
    returns the price-deviation error, the deviation being 100%. *)
Lemma open_quantity_from_market_price_witness :
  (exists rest,
      calls (executeDecisionWithRecord (openLongAt 104)
               (newActionRecord (openLongAt 104))
               (startSys trader0 (worldAt 200 []))).2
      = ([] ++ [CallGetPositions; CallMarketGet "BTCUSDT" 3;
          openCall "long" "BTCUSDT" (100 / 200) 5] ++ rest)%list)
  /\ secondOpen "long" (openLongAt 104) (newActionRecord (openLongAt 104))
       (startSys trader0 (worldAt 200 []))
     = ((Some (ErrPriceDrift (priceDiffPct 200 100)),
         newActionRecord (openLongAt 104)),
        mkSys trader0 (worldAt 200 [])
          ([] ++ [CallGetPositions; CallMarketGet "BTCUSDT" 3])%list
          (mkDecisionRecord true None [] [])).
Proof.
  pose proof (open_quantity_from_market_price Script scriptExternal
                (openLongAt 104) (newActionRecord (openLongAt 104))
                (startSys trader0 (worldAt 200 [])) "long"
                (Ok []) (worldAt 200 []) 200%Q (worldAt 200 [])
                eq_refl eq_refl eq_refl eq_refl) as H.
  split; [exact (proj1 H)|].
  apply (proj1 (proj2 H)); vm_compute; reflexivity.
Defined.

(** C8 as stated fails on [unnamed/part_011]: the intent assumes the entry
    price 100, the market price is 200 (a deviation of 100%, above 3%), and
    the dispatcher opens the position all the same, with the quantity
    100 / 200. *)
Lemma open_ignores_price_drift :
  (3 < Qabs (priceDiffPct 200 (EntryPrice (openLongAt 104))))%Q
  /\ (executeDecisionWithRecord (openLongAt 104)
        (newActionRecord (openLongAt 104))
        (startSys trader0 (worldAt 200 []))).1.1 = None
  /\ calls (executeDecisionWithRecord (openLongAt 104)
              (newActionRecord (openLongAt 104))
              (startSys trader0 (worldAt 200 []))).2
     = [CallGetPositions; CallMarketGet "BTCUSDT" 3;
        CallOpenLong "BTCUSDT" (100 / 200) 5;
        CallSetStopLoss "BTCUSDT" "LONG" (100 / 200) 98].
Proof.
  split; [reflexivity|]. split; vm_compute; reflexivity.
Qed.

(** C10 on an example: a valid intent followed by one with the ratio 1.5. *)
Lemma batch_rejected_on_first_invalid_intent_witness :
  exists pre bad post e,
    [openLongAt 104; openLongAt 103] = (pre ++ bad :: post)%list
    /\ Forall (fun x => validateDecision x 1000 10 5 = None) pre
    /\ validateDecision bad 1000 10 5 = Some e
    /\ solicitAndDispatch ctx0
         (startSys trader0 (worldAt 100 [openLongAt 104; openLongAt 103]))
       = (Some (ErrGetDecision (ErrValidation (S (length pre)) e)),
          mkSys trader0
            (logger_LogDecision
               (mkDecisionRecord false
                  (Some (ErrGetDecision (ErrValidation (S (length pre)) e)))
                  [] [])
               (worldAt 100 [openLongAt 104; openLongAt 103]))
            [CallAI ctx0;
             CallLogDecision
               (mkDecisionRecord false
                  (Some (ErrGetDecision (ErrValidation (S (length pre)) e)))
                  [] [])]
            (mkDecisionRecord false
               (Some (ErrGetDecision (ErrValidation (S (length pre)) e)))
               [] [])).
Proof.
  refine (batch_rejected_on_first_invalid_intent ctx0
           (startSys trader0 (worldAt 100 [openLongAt 104; openLongAt 103]))
           [openLongAt 104; openLongAt 103]
           (worldAt 100 [openLongAt 104; openLongAt 103])
           (openLongAt 103) eq_refl (or_intror (or_introl eq_refl)) _).
  vm_compute. intros E. discriminate E.
Defined.

(** C10 as stated fails: an intent that is valid, and is dispatched when it
    is proposed alone, is not dispatched when the batch also holds an
    invalid intent; the cycle ends with the validation error of intent 2. *)
Lemma invalid_intent_discards_batch :
  validateDecision (openLongAt 104) 1000 10 5 = None
  /\ (runCycle (startSys trader0 (worldAt 100 [openLongAt 104]))).1 = None
  /\ orderCalls
       (calls (runCycle (startSys trader0 (worldAt 100 [openLongAt 104]))).2)
     = [CallOpenLong "BTCUSDT" (100 / 100) 5]
  /\ (exists e,
        (runCycle (startSys trader0
                     (worldAt 100 [openLongAt 104; openLongAt 103]))).1
        = Some (ErrGetDecision (ErrValidation 2 e)))
  /\ orderCalls
       (calls (runCycle (startSys trader0
                           (worldAt 100 [openLongAt 104; openLongAt 103]))).2)
     = [].
Proof.
  split; [reflexivity|]. split; [vm_compute; reflexivity|].
  split; [vm_compute; reflexivity|]. split; [|vm_compute; reflexivity].
  eexists. vm_compute. reflexivity.
Qed.

(** ** The cycle *)

Section CycleFacts.

Context {W : Type} `{External W}.

(** The pause branch of [runCycle].  When the backoff is enabled and the
    clock reads a time before [backoffUntil], [runCycle] ends right after
    that test: it records the pause, saves the record and returns; the save
    is its only call to a collaborator and the trader state is unchanged
    but for the call counter.  (No cycle of a run takes this branch: no
    run starts a backoff.) *)
Lemma runCycle_pause_branch (s : Sys W) t w1 :
  EnableExponentialBackoff (config (trader s)) = true ->
  time_Now (world s) = (t, w1) ->
  t < backoffUntil (trader s) ->
  exists r w',
    runCycle s
    = (None,
       mkSys (withCallCount (callCount (trader s) + 1) (trader s)) w'
         (calls s ++ [CallLogDecision r])%list r)
    /\ rec_Success r = false
    /\ rec_Decisions r = [].
Proof.
  intros Hen Hnow Hlt.
  unfold runCycle, bind, modifyTrader, modifyRecord, getTrader, now, ret,
    failRecord, LogDecision.
  cbn [trader world calls record config withCallCount backoffUntil
         stopLossCount].
  rewrite Hen. cbn [trader world calls record].
  rewrite Hnow. cbn [trader world calls record].
  rewrite (proj2 (Z.ltb_lt _ _) Hlt). cbn [trader world calls record].
  destruct (time_Now w1) as [t2 w2].
  cbn [trader world calls record rec_Decisions rec_ExecutionLog].
  eexists _, _. split; [reflexivity|]. split; reflexivity.
Qed.

End CycleFacts.

(** ** The profit and loss controller *)

Lemma flagsGrow_refl tr : flagsGrow tr tr.
Proof. by constructor. Qed.

Lemma flagsGrow_trans a b c : flagsGrow a b -> flagsGrow b c -> flagsGrow a c.
Proof.
  intros [] []. constructor; try congruence; auto.
Qed.

Lemma trackingGrows_refl m : trackingGrows m m.
Proof. intros key tr Hk. exists tr. split; [done|apply flagsGrow_refl]. Qed.

Lemma trackingGrows_trans m1 m2 m3 :
  trackingGrows m1 m2 -> trackingGrows m2 m3 -> trackingGrows m1 m3.
Proof.
  intros H12 H23 key tr Hk.
  destruct (H12 key tr Hk) as (tr2 & Hk2 & G2).
  destruct (H23 key tr2 Hk2) as (tr3 & Hk3 & G3).
  exists tr3. split; [done|]. by eapply flagsGrow_trans.
Qed.

Lemma trackingGrows_alter (f : PnLTracking -> PnLTracking) key
    (m : gmap string PnLTracking) :
  (forall tr, flagsGrow tr (f tr)) -> trackingGrows m (alter f key m).
Proof.
  intros Hf k tr Hk. destruct (decide (key = k)) as [->|Hne].
  - exists (f tr). rewrite lookup_alter_eq, Hk. split; [done|apply Hf].
  - exists tr. rewrite lookup_alter_ne by done. split; [done|apply flagsGrow_refl].
Qed.

Lemma flagsGrow_trailing tr : flagsGrow tr (withTrailingStopActivated true tr).
Proof. by constructor. Qed.
Lemma flagsGrow_tp50 tr : flagsGrow tr (withPartialTP50Executed true tr).
Proof. by constructor. Qed.
Lemma flagsGrow_tp100 tr : flagsGrow tr (withPartialTP100Executed true tr).
Proof. by constructor. Qed.

Lemma controllerStep_refl {W} (s : Sys W) : controllerStep s s.
Proof.
  constructor; [done|apply trackingGrows_refl|].
  exists []. by rewrite app_nil_r.
Qed.

Lemma controllerStep_trans {W} (s1 s2 s3 : Sys W) :
  controllerStep s1 s2 -> controllerStep s2 s3 -> controllerStep s1 s3.
Proof.
  intros [c1 t1 [cs1 e1]] [c2 t2 [cs2 e2]]. constructor.
  - congruence.
  - by eapply trackingGrows_trans.
  - exists (cs1 ++ cs2)%list. rewrite e2, e1. by rewrite app_assoc.
Qed.

Lemma fmul_comm x y : fmul x y = fmul y x.
Proof. unfold fmul. apply round64_proper. ring. Qed.

(** The test of the code on a target is the comparison of the
    specification. *)
Lemma reachedTarget_priceReached side markPrice target :
  reachedTarget side markPrice target = priceReached side markPrice target.
Proof.
  unfold reachedTarget, priceReached, fge, fle.
  destruct (String.eqb_spec side "long") as [->|_]; cbn [andb].
  - by destruct (Qle_bool target markPrice).
  - destruct (String.eqb side "short"); cbn [andb]; [|done].
    by destruct (Qle_bool markPrice target).
Qed.

(** The targets of the code are the targets of the specification. *)
Lemma partialTargets_spec side tr :
  partialTargets side tr
  = (target50Of side (TrackedEntryPrice tr) (TakeProfitPrice tr),
     TakeProfitPrice tr).
Proof.
  unfold partialTargets, target50Of.
  destruct (String.eqb side "long"); by rewrite (fmul_comm 0.5).
Qed.

Section ControllerFacts.

Context {W : Type} `{External W}.

Lemma executeTrailingStop_spec pos (s : Sys W) :
  exists o w' rc,
    closeOp (pi_Side pos) (pi_Symbol pos) 0 (world s) = (o, w')
    /\ executeTrailingStop pos s
       = (match o with Ok _ => None | Err msg => Some (ErrExternal msg) end,
          mkSys (trader s) w'
            (calls s ++ [closeCall (pi_Side pos) (pi_Symbol pos) 0])%list rc).
Proof.
  unfold executeTrailingStop, closeOp, closeCall, bind, CloseLong, CloseShort,
    external, appendAction, appendLog, modifyRecord, ret.
  destruct (String.eqb (pi_Side pos) "long").
  - destruct (trader_CloseLong _ _ _) as [[o|msg] w'];
      eexists _, _, _; (split; [reflexivity|]); reflexivity.
  - destruct (trader_CloseShort _ _ _) as [[o|msg] w'];
      eexists _, _, _; (split; [reflexivity|]); reflexivity.
Qed.

Lemma executePartialTakeProfit_spec pos ratio (s : Sys W) :
  exists o w' rc,
    closeOp (pi_Side pos) (pi_Symbol pos) (pi_Quantity pos * ratio) (world s)
    = (o, w')
    /\ executePartialTakeProfit pos ratio s
       = (match o with Ok _ => None | Err msg => Some (ErrExternal msg) end,
          mkSys (trader s) w'
            (calls s ++
             [closeCall (pi_Side pos) (pi_Symbol pos)
                (pi_Quantity pos * ratio)])%list rc).
Proof.
  unfold executePartialTakeProfit, closeOp, closeCall, bind, CloseLong,
    CloseShort, external, appendAction, appendLog, modifyRecord, ret.
  destruct (String.eqb (pi_Side pos) "long").
  - destruct (trader_CloseLong _ _ _) as [[o|msg] w'];
      eexists _, _, _; (split; [reflexivity|]); reflexivity.
  - destruct (trader_CloseShort _ _ _) as [[o|msg] w'];
      eexists _, _, _; (split; [reflexivity|]); reflexivity.
Qed.

Lemma checkTrailingStop_spec pos tr h (s : Sys W) :
  let cfg := config (trader s) in
  exists h' w' rc,
    checkTrailingStop pos tr h s
    = ((trailingDue cfg pos tr, h'),
       mkSys
         (if activatesNow cfg pos tr then
            withTracking
              (alter (withTrailingStopActivated true) (keyOf pos)
                 (positionPnLTracking (trader s))) (trader s)
          else trader s)
         w'
         (calls s ++
          (if trailingDue cfg pos tr
           then [closeCall (pi_Side pos) (pi_Symbol pos) 0] else []))%list
         rc)
    /\ (trailingDue cfg pos tr = false -> h' = h /\ w' = world s /\ rc = record s).
Proof.
  intros cfg. unfold checkTrailingStop, trailingDue, activatesNow, armed,
    drawdownHit, keyOf, bind, getTrader, ret, updateTracking, modifyTrader.
  fold cfg.
  destruct (EnableTrailingStop cfg); cbn [negb andb].
  2:{ destruct s. eexists _, _, _. rewrite app_nil_r. split; [reflexivity|done]. }
  set (act := negb (TrailingStopActivated tr) && _).
  assert (Hact : TrailingStopActivated tr || act
                 = TrailingStopActivated tr
                   || fge (pi_UnrealizedPnLPct pos)
                        (fmul (TrailingStopActivation cfg) 100)).
  { unfold act. destruct (TrailingStopActivated tr); done. }
  rewrite <- Hact.
  destruct act; cbn [trader world calls record].
  - rewrite orb_true_r. cbn [andb].
    destruct (fge _ (TrailingStopDistance cfg)).
    + destruct (executeTrailingStop_spec pos
                  (mkSys (withTracking
                            (alter (withTrailingStopActivated true)
                               (posKeyOf (pi_Symbol pos) (pi_Side pos))
                               (positionPnLTracking (trader s))) (trader s))
                     (world s) (calls s) (record s)))
        as (o & w' & rc & Hop & ->).
      cbn [trader world calls record].
      destruct o; eexists _, _, _; (split; [reflexivity|done]).
    + eexists _, _, _. rewrite app_nil_r. split; [reflexivity|done].
  - rewrite orb_false_r.
    destruct (TrailingStopActivated tr); cbn [andb].
    + destruct (fge _ (TrailingStopDistance cfg)).
      * destruct (executeTrailingStop_spec pos s) as (o & w' & rc & Hop & ->).
        destruct o; eexists _, _, _; (split; [reflexivity|done]).
      * destruct s. eexists _, _, _. rewrite app_nil_r. split; [reflexivity|done].
    + destruct s. eexists _, _, _. rewrite app_nil_r. split; [reflexivity|done].
Qed.

Lemma checkPartialTP_off pos tr h (s : Sys W) :
  EnablePartialTakeProfit (config (trader s))
  && fgt (TakeProfitPrice tr) 0 = false ->
  checkPartialTP pos tr h s = (h, s).
Proof.
  intros Hoff. unfold checkPartialTP, bind, getTrader, ret.
  by rewrite Hoff.
Qed.

(** The partial take-profit part of the pass over one position: what is
    sent, what may change, and what happens when the venue accepts. *)
Lemma checkPartialTP_spec pos tr h (s : Sys W) :
  EnablePartialTakeProfit (config (trader s)) = true ->
  fgt (TakeProfitPrice tr) 0 = true ->
  let half := closeCall (pi_Side pos) (pi_Symbol pos) (pi_Quantity pos * 0.5) in
  let op := closeOp (pi_Side pos) (pi_Symbol pos) (pi_Quantity pos * 0.5) in
  let r := checkPartialTP pos tr h s in
  controllerStep s r.2
  /\ calls r.2
     = (calls s ++ (if due50 pos tr then [half] else [])
        ++ (if due100 pos tr then [half] else []))%list
  /\ (forall o1 w1 o2 w2,
        due50 pos tr = true -> due100 pos tr = true ->
        op (world s) = (Ok o1, w1) -> op w1 = (Ok o2, w2) ->
        r.1 = true
        /\ positionPnLTracking (trader r.2)
           = alter (withPartialTP100Executed true) (keyOf pos)
               (alter (withPartialTP50Executed true) (keyOf pos)
                  (positionPnLTracking (trader s)))).
Proof.
  intros Hen Htp half op r. subst r.
  unfold checkPartialTP, bind, getTrader, ret, updateTracking, modifyTrader.
  rewrite Hen, Htp. cbn [andb].
  rewrite partialTargets_spec, !reachedTarget_priceReached.
  fold (due50 pos tr) (due100 pos tr). unfold keyOf.
  destruct (due50 pos tr) eqn:D50; destruct (due100 pos tr) eqn:D100.
  - destruct (executePartialTakeProfit_spec pos 0.5 s)
      as (o1 & w1 & rc1 & Hop1 & ->).
    destruct o1 as [o1|m1]; cbn [trader world calls record].
    + match goal with
      | |- context [executePartialTakeProfit pos 0.5 ?s1] =>
          destruct (executePartialTakeProfit_spec pos 0.5 s1)
            as (o2 & w2 & rc2 & Hop2 & ->)
      end.
      cbn [trader world calls record] in Hop2 |- *.
      destruct o2 as [o2|m2]; cbn [trader world calls record fst snd
                                     positionPnLTracking withTracking config].
      * split; [|split].
        -- constructor; cbn [trader calls config withTracking positionPnLTracking].
           ++ done.
           ++ eapply trackingGrows_trans;
                apply trackingGrows_alter; [apply flagsGrow_tp50|apply flagsGrow_tp100].
           ++ eexists. rewrite <- app_assoc. reflexivity.
        -- by rewrite <- app_assoc.
        -- intros ? ? ? ? _ _ _ _. done.
      * split; [|split].
        -- constructor; cbn [trader calls config withTracking positionPnLTracking].
           ++ done.
           ++ apply trackingGrows_alter, flagsGrow_tp50.
           ++ eexists. rewrite <- app_assoc. reflexivity.
        -- by rewrite <- app_assoc.
        -- intros a1 b1 a2 b2 _ _ E1 E2. fold op in Hop1, Hop2.
           rewrite Hop1 in E1. injection E1 as <- <-.
           rewrite Hop2 in E2. discriminate E2.
    + match goal with
      | |- context [executePartialTakeProfit pos 0.5 ?s1] =>
          destruct (executePartialTakeProfit_spec pos 0.5 s1)
            as (o2 & w2 & rc2 & Hop2 & ->)
      end.
      cbn [trader world calls record] in Hop2 |- *.
      split; [|split].
      * destruct o2; constructor;
          cbn [trader calls config withTracking positionPnLTracking fst snd];
          try done; try (eexists; rewrite <- app_assoc; reflexivity).
        -- apply trackingGrows_alter, flagsGrow_tp100.
        -- apply trackingGrows_refl.
      * destruct o2; cbn [snd calls]; by rewrite <- app_assoc.
      * intros a1 b1 a2 b2 _ _ E1 E2. fold op in Hop1.
        rewrite Hop1 in E1. discriminate E1.
  - destruct (executePartialTakeProfit_spec pos 0.5 s)
      as (o1 & w1 & rc1 & Hop1 & ->).
    split; [|split].
    + destruct o1; constructor;
        cbn [trader calls config withTracking positionPnLTracking fst snd];
        try done; try (eexists; reflexivity).
      * apply trackingGrows_alter, flagsGrow_tp50.
      * apply trackingGrows_refl.
    + destruct o1; cbn [snd calls]; by rewrite app_nil_r.
    + intros; discriminate.
  - destruct (executePartialTakeProfit_spec pos 0.5 s)
      as (o1 & w1 & rc1 & Hop1 & ->).
    split; [|split].
    + destruct o1; constructor;
        cbn [trader calls config withTracking positionPnLTracking fst snd];
        try done; try (eexists; reflexivity).
      * apply trackingGrows_alter, flagsGrow_tp100.
      * apply trackingGrows_refl.
    + destruct o1; cbn [snd calls]; done.
    + intros; discriminate.
  - cbn [snd]. split; [apply controllerStep_refl|]. split.
    + by rewrite app_nil_r.
    + intros; discriminate.
Qed.

(** The partial take-profit part of the pass over one position: which
    flags it raises and what it leaves of the world.  The flag of a stage is
    raised exactly when the stage was due and the venue accepted its
    close. *)
Lemma checkPartialTP_outcome pos tr h (s : Sys W) :
  EnablePartialTakeProfit (config (trader s)) = true ->
  fgt (TakeProfitPrice tr) 0 = true ->
  let r := checkPartialTP pos tr h s in
  positionPnLTracking (trader r.2)
  = (if (stage100 pos tr (world s)).1
     then alter (withPartialTP100Executed true) (keyOf pos) else id)
      ((if (stage50 pos tr (world s)).1
        then alter (withPartialTP50Executed true) (keyOf pos) else id)
         (positionPnLTracking (trader s)))
  /\ world r.2 = (stage100 pos tr (world s)).2.
Proof.
  intros Hen Htp r. subst r.
  unfold checkPartialTP, bind, getTrader, ret, updateTracking, modifyTrader.
  rewrite Hen, Htp. cbn [andb].
  rewrite partialTargets_spec, !reachedTarget_priceReached.
  fold (due50 pos tr) (due100 pos tr).
  unfold keyOf, stage100, stage50, closeAccepted.
  destruct (due50 pos tr) eqn:D50; destruct (due100 pos tr) eqn:D100;
    cbn [fst snd].
  - destruct (executePartialTakeProfit_spec pos 0.5 s)
      as (o1 & w1 & rc1 & Hop1 & ->).
    rewrite Hop1.
    destruct o1 as [o1|m1]; cbn [trader world calls record fst snd];
      match goal with
      | |- context [executePartialTakeProfit pos 0.5 ?s1] =>
          destruct (executePartialTakeProfit_spec pos 0.5 s1)
            as (o2 & w2 & rc2 & Hop2 & ->)
      end;
      cbn [trader world calls record] in Hop2 |- *; rewrite Hop2;
      destruct o2;
      cbn [trader world calls record fst snd positionPnLTracking
             withTracking];
      done.
  - destruct (executePartialTakeProfit_spec pos 0.5 s)
      as (o1 & w1 & rc1 & Hop1 & ->).
    rewrite Hop1.
    destruct o1;
      cbn [trader world calls record fst snd positionPnLTracking
             withTracking];
      done.
  - destruct (executePartialTakeProfit_spec pos 0.5 s)
      as (o1 & w1 & rc1 & Hop1 & ->).
    rewrite Hop1.
    destruct o1;
      cbn [trader world calls record fst snd positionPnLTracking
             withTracking];
      done.
  - done.
Qed.

Lemma checkPosition_untracked pos h (s : Sys W) :
  positionPnLTracking (trader s) !! keyOf pos = None ->
  checkPosition pos h s = (h, s).
Proof.
  intros Hk. unfold checkPosition, bind, getTrader, ret.
  unfold keyOf in Hk. by rewrite Hk.
Qed.

Lemma checkTrailingStop_step pos tr h (s : Sys W) :
  controllerStep s (checkTrailingStop pos tr h s).2.
Proof.
  destruct (checkTrailingStop_spec pos tr h s) as (h' & w' & rc & -> & _).
  cbn [snd]. constructor; cbn [trader calls].
  - by destruct (activatesNow _ _ _).
  - destruct (activatesNow _ _ _); cbn [positionPnLTracking withTracking].
    + apply trackingGrows_alter, flagsGrow_trailing.
    + apply trackingGrows_refl.
  - eexists. reflexivity.
Qed.

Lemma checkPartialTP_step pos tr h (s : Sys W) :
  controllerStep s (checkPartialTP pos tr h s).2.
Proof.
  destruct (EnablePartialTakeProfit (config (trader s))
            && fgt (TakeProfitPrice tr) 0) eqn:E.
  - apply andb_true_iff in E as [E1 E2].
    apply (checkPartialTP_spec pos tr h s E1 E2).
  - rewrite checkPartialTP_off by done. apply controllerStep_refl.
Qed.

(** The pass over one tracked position, in terms of its two parts. *)
Lemma checkPosition_tracked pos tr h (s : Sys W) :
  positionPnLTracking (trader s) !! keyOf pos = Some tr ->
  checkPosition pos h s
  = (let r := checkTrailingStop pos tr h s in
     if r.1.1 then (r.1.2, r.2) else checkPartialTP pos tr r.1.2 r.2).
Proof.
  intros Hk. unfold checkPosition, bind, getTrader, ret.
  unfold keyOf in Hk. rewrite Hk.
  destruct (checkTrailingStop pos tr h s) as [[c h'] s']. cbn [fst snd].
  by destruct c.
Qed.

Lemma checkPosition_step pos h (s : Sys W) :
  controllerStep s (checkPosition pos h s).2.
Proof.
  destruct (positionPnLTracking (trader s) !! keyOf pos) as [tr|] eqn:Hk.
  - rewrite (checkPosition_tracked pos tr h s Hk). cbn zeta.
    pose proof (checkTrailingStop_step pos tr h s) as H1.
    destruct (checkTrailingStop pos tr h s) as [[c h'] s']. cbn [fst snd] in *.
    destruct c; [done|].
    eapply controllerStep_trans; [exact H1|apply checkPartialTP_step].
  - rewrite checkPosition_untracked by done. apply controllerStep_refl.
Qed.

Lemma forEach_app {A B} (xs ys : list A) (body : A -> B -> M W B) acc
    (s : Sys W) :
  forEach (xs ++ ys) body acc s
  = let r := forEach xs body acc s in forEach ys body r.1 r.2.
Proof.
  revert acc s. induction xs as [|x xs IH]; intros acc s; [done|].
  cbn [forEach app]. unfold bind.
  destruct (body x acc s) as [acc' s']. apply IH.
Qed.

Lemma pass_step positions h (s : Sys W) :
  controllerStep s (forEach positions checkPosition h s).2.
Proof.
  revert h s. induction positions as [|pos rest IH]; intros h s.
  - apply controllerStep_refl.
  - cbn [forEach]. unfold bind.
    pose proof (checkPosition_step pos h s) as H1.
    destruct (checkPosition pos h s) as [h' s']. cbn [snd] in H1.
    eapply controllerStep_trans; [exact H1|apply IH].
Qed.

(** Activation on one position. *)
Lemma checkPosition_activates pos tr h (s : Sys W) :
  positionPnLTracking (trader s) !! keyOf pos = Some tr ->
  EnableTrailingStop (config (trader s)) = true ->
  armed (config (trader s)) pos tr = true ->
  exists tr',
    positionPnLTracking (trader (checkPosition pos h s).2) !! keyOf pos
    = Some tr'
    /\ TrailingStopActivated tr' = true.
Proof.
  intros Hk Hen Harm.
  rewrite (checkPosition_tracked pos tr h s Hk). cbn zeta.
  destruct (checkTrailingStop_spec pos tr h s) as (h' & w' & rc & E & _).
  rewrite E. cbn [fst snd].
  set (s1 := mkSys _ w' _ rc).
  assert (H1 : exists tr1, positionPnLTracking (trader s1) !! keyOf pos = Some tr1
                           /\ TrailingStopActivated tr1 = true).
  { subst s1. cbn [trader]. unfold activatesNow. rewrite Hen. cbn [andb].
    unfold armed in Harm.
    destruct (TrailingStopActivated tr) eqn:Ef; cbn [negb andb orb] in *.
    - exists tr. done.
    - rewrite Harm. cbn [positionPnLTracking withTracking].
      exists (withTrailingStopActivated true tr).
      rewrite lookup_alter_eq, Hk. done. }
  destruct H1 as (tr1 & Hk1 & Hf1).
  destruct (trailingDue _ pos tr); cbn [snd].
  - eauto.
  - destruct (cs_tracking _ _ (checkPartialTP_step pos tr h' s1) _ _ Hk1)
      as (tr2 & Hk2 & G).
    exists tr2. split; [done|]. by apply (fg_trailing _ _ G).
Qed.

(** The trailing stop fires on one position: the full close is the only
    call. *)
Lemma checkPosition_trailing_close pos tr h (s : Sys W) :
  positionPnLTracking (trader s) !! keyOf pos = Some tr ->
  trailingDue (config (trader s)) pos tr = true ->
  calls (checkPosition pos h s).2
  = (calls s ++ [closeCall (pi_Side pos) (pi_Symbol pos) 0])%list.
Proof.
  intros Hk Hdue.
  rewrite (checkPosition_tracked pos tr h s Hk). cbn zeta.
  destruct (checkTrailingStop_spec pos tr h s) as (h' & w' & rc & E & _).
  rewrite E, Hdue. reflexivity.
Qed.

Lemma armed_grows cfg pos tr tr' :
  flagsGrow tr tr' -> armed cfg pos tr = true -> armed cfg pos tr' = true.
Proof.
  intros G. unfold armed. rewrite !orb_true_iff. intros [Hf|Hp]; [|by right].
  left. by apply (fg_trailing _ _ G).
Qed.

Lemma trailingDue_grows cfg pos tr tr' :
  flagsGrow tr tr' -> trailingDue cfg pos tr = true ->
  trailingDue cfg pos tr' = true.
Proof.
  intros G. unfold trailingDue, drawdownHit. rewrite !andb_true_iff.
  intros [[He Ha] Hd]. rewrite (fg_maxProfit _ _ G).
  repeat split; try done. by eapply armed_grows.
Qed.

(** Activation of the trailing stop over a whole pass. *)
Lemma pass_activates ctx h (s : Sys W) pos tr :
  In pos (ctx_Positions ctx) ->
  positionPnLTracking (trader s) !! keyOf pos = Some tr ->
  EnableTrailingStop (config (trader s)) = true ->
  armed (config (trader s)) pos tr = true ->
  exists tr',
    positionPnLTracking (trader (checkTrailingStopAndPartialTP ctx h s).2)
      !! keyOf pos = Some tr'
    /\ TrailingStopActivated tr' = true.
Proof.
  intros Hin Hk Hen Harm. unfold checkTrailingStopAndPartialTP.
  apply in_split in Hin as (pre & post & ->).
  rewrite forEach_app. cbn zeta.
  pose proof (pass_step pre h s) as S1.
  destruct (forEach pre checkPosition h s) as [h1 s1]. cbn [fst snd] in *.
  destruct (cs_tracking _ _ S1 _ _ Hk) as (tr1 & Hk1 & G1).
  cbn [forEach]. unfold bind.
  destruct (checkPosition_activates pos tr1 h1 s1 Hk1) as (tr2 & Hk2 & Hf2).
  { by rewrite (cs_config _ _ S1). }
  { rewrite (cs_config _ _ S1). by eapply armed_grows. }
  destruct (checkPosition pos h1 s1) as [h2 s2]. cbn [snd] in *.
  destruct (cs_tracking _ _ (pass_step post h2 s2) _ _ Hk2) as (tr3 & Hk3 & G3).
  exists tr3. split; [done|]. by apply (fg_trailing _ _ G3).
Qed.

(** The trigger of the trailing stop over a whole pass. *)
Lemma pass_trailing_close ctx h (s : Sys W) pos tr :
  In pos (ctx_Positions ctx) ->
  positionPnLTracking (trader s) !! keyOf pos = Some tr ->
  trailingDue (config (trader s)) pos tr = true ->
  In (closeCall (pi_Side pos) (pi_Symbol pos) 0)
    (calls (checkTrailingStopAndPartialTP ctx h s).2).
Proof.
  intros Hin Hk Hdue. unfold checkTrailingStopAndPartialTP.
  apply in_split in Hin as (pre & post & ->).
  rewrite forEach_app. cbn zeta.
  pose proof (pass_step pre h s) as S1.
  destruct (forEach pre checkPosition h s) as [h1 s1]. cbn [fst snd] in *.
  destruct (cs_tracking _ _ S1 _ _ Hk) as (tr1 & Hk1 & G1).
  cbn [forEach]. unfold bind.
  pose proof (checkPosition_trailing_close pos tr1 h1 s1 Hk1) as Hc.
  rewrite (cs_config _ _ S1) in Hc.
  specialize (Hc (trailingDue_grows _ _ _ _ G1 Hdue)).
  destruct (checkPosition pos h1 s1) as [h2 s2]. cbn [snd] in *.
  destruct (cs_calls _ _ (pass_step post h2 s2)) as [cs ->].
  rewrite Hc. apply in_or_app. left. apply in_or_app. right. by left.
Qed.

(** ** The refresh keeps the flags *)
Lemma updateExtrema_grow pnl tr : extremaGrow tr (updateExtrema pnl tr).
Proof.
  unfold updateExtrema.
  destruct (fgt pnl (MaxProfitPct tr)) eqn:E1.
  - apply fgt_true in E1.
    destruct (flt pnl (MaxLossPct (withMaxProfitPct pnl tr))) eqn:E2.
    + apply flt_true in E2. cbn in E2.
      constructor; cbn; try done; lra.
    + constructor; cbn; try done; lra.
  - destruct (flt pnl (MaxLossPct tr)) eqn:E2.
    + apply flt_true in E2. constructor; cbn; try done; lra.
    + constructor; cbn; try done; lra.
Qed.

Lemma extremaGrow_refl tr : extremaGrow tr tr.
Proof. constructor; try done; lra. Qed.

Lemma extremaGrow_trans a b c :
  extremaGrow a b -> extremaGrow b c -> extremaGrow a c.
Proof.
  intros [] []. constructor; try congruence; lra.
Qed.

Lemma buildPosition_keeps pos acc (s : Sys W) :
  trackingKept (positionPnLTracking (trader s))
    (positionPnLTracking (trader (buildPosition pos acc s).2)).
Proof.
  unfold buildPosition, bind, getTrader, ret, modifyTrader, now.
  cbn [trader world calls record].
  set (key := posKeyOf (rp_symbol pos) (rp_side pos)).
  set (pnl := pnlPctOf _ _ _ _).
  assert (Hgen : forall m : gmap string PnLTracking,
             trackingKept m
               (<[key := updateExtrema pnl
                           match m !! key with
                           | Some t => t
                           | None => mkPnLTracking pnl pnl 0 0 0 false false false
                           end]> m)).
  { intros m k tr Hk. destruct (decide (key = k)) as [<-|Hne].
    - rewrite Hk, lookup_insert_eq. eexists. split; [done|].
      apply updateExtrema_grow.
    - rewrite lookup_insert_ne by done. exists tr. split; [done|].
      apply extremaGrow_refl. }
  destruct (positionFirstSeenTime (trader s) !! key).
  - cbn [trader world calls record snd positionPnLTracking withTracking].
    apply Hgen.
  - destruct (time_Now (world s)) as [t w'].
    cbn [trader world calls record snd positionPnLTracking withTracking
           withFirstSeen].
    apply Hgen.
Qed.

Lemma trackingKept_refl m : trackingKept m m.
Proof. intros k tr Hk. exists tr. split; [done|apply extremaGrow_refl]. Qed.

Lemma trackingKept_trans m1 m2 m3 :
  trackingKept m1 m2 -> trackingKept m2 m3 -> trackingKept m1 m3.
Proof.
  intros H12 H23 key tr Hk.
  destruct (H12 key tr Hk) as (tr2 & Hk2 & G2).
  destruct (H23 key tr2 Hk2) as (tr3 & Hk3 & G3).
  exists tr3. split; [done|]. by eapply extremaGrow_trans.
Qed.

Lemma buildPositions_keep positions acc (s : Sys W) :
  trackingKept (positionPnLTracking (trader s))
    (positionPnLTracking (trader (forEach positions buildPosition acc s).2)).
Proof.
  revert acc s. induction positions as [|pos rest IH]; intros acc s.
  - apply trackingKept_refl.
  - cbn [forEach]. unfold bind.
    pose proof (buildPosition_keeps pos acc s) as H1.
    destruct (buildPosition pos acc s) as [acc' s']. cbn [snd] in H1.
    eapply trackingKept_trans; [exact H1|apply IH].
Qed.

(** A key that is tracked before and after [buildTradingContext] has the
    same flags and prices after it, and extrema that have not retreated. *)
Lemma buildTradingContext_keeps (s : Sys W) key tr tr' :
  positionPnLTracking (trader s) !! key = Some tr ->
  positionPnLTracking (trader (buildTradingContext s).2) !! key = Some tr' ->
  extremaGrow tr tr'.
Proof.
  intros Hk. unfold buildTradingContext, bind, GetBalance, GetPositions,
    GetMergedCoinPool, external, ret, modifyTrader, getTrader.
  destruct (trader_GetBalance (world s)) as [[b|msg] w1];
    cbn [trader world calls record snd].
  2:{ rewrite Hk. intros [= <-]. apply extremaGrow_refl. }
  destruct (trader_GetPositions w1) as [[ps|msg] w2];
    cbn [trader world calls record snd].
  2:{ rewrite Hk. intros [= <-]. apply extremaGrow_refl. }
  match goal with
  | |- context [forEach ps buildPosition ?acc ?s0] =>
      pose proof (buildPositions_keep ps acc s0) as HK;
      destruct (forEach ps buildPosition acc s0) as [acc' s1]
  end.
  cbn [trader world calls record snd] in HK |- *.
  destruct (HK key tr Hk) as (tr1 & Hk1 & G1).
  assert (Hclean : positionPnLTracking
                     (trader
                        (mkSys
                           (cleanUp (acc_currentPositionKeys acc')
                              (list_to_set (map rp_symbol ps)) (trader s1))
                           (world s1) (calls s1) (record s1))) !! key
                   = Some tr' -> extremaGrow tr tr').
  { cbn [trader]. unfold cleanUp.
    cbn [positionPnLTracking withReasonings withInvalidationConditions
           withTracking].
    intros Hf. apply map_lookup_filter_Some in Hf as [Hf _].
    rewrite Hk1 in Hf. injection Hf as <-. done. }
  destruct (pool_GetMergedCoinPool 20 (world s1)) as [[cc|msg] w3];
    cbn [trader world calls record snd]; exact Hclean.
Qed.

End ControllerFacts.

(** ** The loss circuit breaker *)

Lemma classifyStopLoss_spec equityDecreased side price stop entry :
  classifyStopLoss equityDecreased side price stop entry = true
  <-> equityDecreased = true /\ lossSide side price stop entry.
Proof.
  unfold classifyStopLoss, lossSide, isLong.
  destruct equityDecreased; cbn [negb]; [|intuition discriminate].
  destruct (fgt stop 0) eqn:Es.
  - apply fgt_true in Es.
    destruct (String.eqb side "long").
    + rewrite fle_true. split.
      * intros Hp. split; [done|]. left. done.
      * intros [_ [[_ Hp]|[[Hc _]|[Hc _]]]]; [done|lra|lra].
    + rewrite fge_true. split.
      * intros Hp. split; [done|]. left. done.
      * intros [_ [[_ Hp]|[[Hc _]|[Hc _]]]]; [done|lra|lra].
  - apply fgt_false in Es.
    destruct (fgt entry 0) eqn:Ee.
    + apply fgt_true in Ee.
      destruct (String.eqb side "long").
      * rewrite negb_true_iff, fgt_false. split.
        -- intros Hp. split; [done|]. right. left. done.
        -- intros [_ [[Hc _]|[(_ & _ & Hp)|[_ Hc]]]]; [lra|done|lra].
      * rewrite negb_true_iff, flt_false. split.
        -- intros Hp. split; [done|]. right. left. done.
        -- intros [_ [[Hc _]|[(_ & _ & Hp)|[_ Hc]]]]; [lra|done|lra].
    + apply fgt_false in Ee. split; [|done].
      intros _. split; [done|]. right. right. done.
Qed.

Lemma breakerFrame_refl a : breakerFrame a a.
Proof. constructor; try done; lia. Qed.

Lemma breakerFrame_trans a b c :
  breakerFrame a b -> breakerFrame b c -> breakerFrame a c.
Proof. intros [] []. constructor; try congruence; lia. Qed.

Section BreakerFacts.

Context {W : Type} `{External W}.

Lemma checkStopLossKey_spec keys equityDecreased key (s : Sys W) :
  let s' := (checkStopLossKey keys equityDecreased key tt s).2 in
  breakerFrame (trader s) (trader s')
  /\ (breakerState (trader s') = breakerState (trader s)
      \/ (equityDecreased = true
          /\ lossEvent (trader s) keys key
          /\ stopLossCount (trader s') = stopLossCount (trader s) + 1)).
Proof.
  unfold checkStopLossKey, bind, getTrader, ret, marketGet, external,
    modifyTrader, now.
  destruct (decide (key ∈ keys)) as [Hin|Hnin].
  { cbn [snd]. split; [apply breakerFrame_refl|by left]. }
  destruct (positionPnLTracking (trader s) !! key) as [tr|] eqn:Hk.
  2:{ cbn [snd]. split; [apply breakerFrame_refl|by left]. }
  destruct (splitUnderscore key) as [|symbol [|side [|? ?]]] eqn:Hsp;
    try (cbn [snd]; split; [apply breakerFrame_refl|by left]).
  destruct (market_Get symbol 3 (world s)) as [[price|msg] w1] eqn:Hm;
    cbn [trader world calls record];
    try (cbn [snd trader]; split; [apply breakerFrame_refl|by left]).
  destruct (classifyStopLoss equityDecreased side price (StopLossPrice tr)
              (TrackedEntryPrice tr)) eqn:Hc.
  2:{ cbn [snd trader]. split; [apply breakerFrame_refl|by left]. }
  apply classifyStopLoss_spec in Hc as [-> Hloss].
  cbn [trader world calls record].
  destruct (time_Now w1) as [t1 w2]. cbn [trader world calls record].
  destruct (time_Now w2) as [t2 w3]. cbn [trader world calls record snd].
  split.
  - constructor; cbn; try done. lia.
  - right. split; [done|]. split; [|done].
    split; [done|]. exists tr, symbol, side, price, (world s), w1. done.
Qed.

Lemma checkStopLossKeys_spec keys equityDecreased keyList (s : Sys W) :
  let s' :=
    (forEach keyList (checkStopLossKey keys equityDecreased) tt s).2 in
  breakerFrame (trader s) (trader s')
  /\ (breakerState (trader s') = breakerState (trader s)
      \/ (equityDecreased = true
          /\ (exists key, In key keyList /\ lossEvent (trader s) keys key)
          /\ stopLossCount (trader s) < stopLossCount (trader s'))).
Proof.
  revert s. induction keyList as [|key rest IH]; intros s.
  - cbn. split; [apply breakerFrame_refl|by left].
  - cbn [forEach]. unfold bind.
    pose proof (checkStopLossKey_spec keys equityDecreased key s) as [F1 H1].
    destruct (checkStopLossKey keys equityDecreased key tt s) as [[] s1].
    cbn [snd] in *.
    destruct (IH s1) as [F2 H2].
    split; [by eapply breakerFrame_trans|].
    destruct H2 as [E2|(He & (k & Hin & Hev) & Hlt)].
    + destruct H1 as [E1|(He & Hev & Hc)].
      * left. congruence.
      * right. split; [done|]. split.
        -- exists key. split; [by left|done].
        -- unfold breakerState in E2. injection E2 as E2 _ _. lia.
    + right. split; [done|]. split.
      * exists k. split; [by right|].
        destruct Hev as [Hnin (tr & sy & sd & p & w & w' & Hk & Hr)].
        split; [done|]. exists tr, sy, sd, p, w, w'.
        by rewrite <- (bf_tracking _ _ F1).
      * pose proof (bf_count _ _ F1). lia.
Qed.

Lemma checkStopLossTriggered_spec ctx (s : Sys W) :
  let s' := (checkStopLossTriggered ctx s).2 in
  stopLossCount (trader s) <= stopLossCount (trader s')
  /\ (breakerState (trader s') = breakerState (trader s)
      \/ (EnableExponentialBackoff (config (trader s)) = true
          /\ equityDecreasedOf (trader s) ctx = true
          /\ exists key, lossEvent (trader s) (liveKeys ctx) key)).
Proof.
  unfold checkStopLossTriggered, bind, getTrader, ret, modifyTrader.
  destruct (EnableExponentialBackoff (config (trader s))); cbn [negb].
  2:{ cbn [snd]. split; [lia|by left]. }
  fold (liveKeys ctx). fold (equityDecreasedOf (trader s) ctx).
  pose proof (checkStopLossKeys_spec (liveKeys ctx)
                (equityDecreasedOf (trader s) ctx)
                (map fst (map_to_list (positionPnLTracking (trader s)))) s)
    as [F Hs].
  destruct (forEach _ _ tt s) as [[] s1]. cbn [snd trader] in *.
  split; [apply (bf_count _ _ F)|].
  destruct Hs as [E|(He & (k & _ & Hev) & _)].
  - left. unfold breakerState in *. cbn. done.
  - right. split; [done|]. split; [done|]. by exists k.
Qed.

End BreakerFacts.

(** ** The claims on the controller and the circuit breaker *)

Section PartialFacts.

Context {W : Type} `{External W}.

(** The pass over one tracked position on which the trailing stop does not
    fire: the calls are the partial closes that are due. *)
Lemma checkPosition_partial_calls pos tr h (s : Sys W) :
  positionPnLTracking (trader s) !! keyOf pos = Some tr ->
  trailingDue (config (trader s)) pos tr = false ->
  EnablePartialTakeProfit (config (trader s)) = true ->
  fgt (TakeProfitPrice tr) 0 = true ->
  let half := closeCall (pi_Side pos) (pi_Symbol pos) (pi_Quantity pos * 0.5) in
  calls (checkPosition pos h s).2
  = (calls s ++ (if due50 pos tr then [half] else [])
     ++ (if due100 pos tr then [half] else []))%list.
Proof.
  intros Hk Hdue Hen Htp half.
  rewrite (checkPosition_tracked pos tr h s Hk). cbn zeta.
  destruct (checkTrailingStop_spec pos tr h s) as (h' & w' & rc & E & _).
  rewrite E, Hdue. cbn [fst snd].
  match goal with
  | |- context [checkPartialTP pos tr h' ?s1] =>
      destruct (checkPartialTP_spec pos tr h' s1) as (_ & Hc & _)
  end.
  { cbn [trader]. by destruct (activatesNow _ _ _). }
  { done. }
  rewrite Hc. cbn [calls]. by rewrite app_nil_r.
Qed.

Lemma checkPosition_partial_both pos tr h (s : Sys W) o1 w1 o2 w2 :
  positionPnLTracking (trader s) !! keyOf pos = Some tr ->
  trailingDue (config (trader s)) pos tr = false ->
  EnablePartialTakeProfit (config (trader s)) = true ->
  fgt (TakeProfitPrice tr) 0 = true ->
  due50 pos tr = true -> due100 pos tr = true ->
  closeOp (pi_Side pos) (pi_Symbol pos) (pi_Quantity pos * 0.5) (world s)
  = (Ok o1, w1) ->
  closeOp (pi_Side pos) (pi_Symbol pos) (pi_Quantity pos * 0.5) w1
  = (Ok o2, w2) ->
  (checkPosition pos h s).1 = true
  /\ exists tr',
       positionPnLTracking (trader (checkPosition pos h s).2) !! keyOf pos
       = Some tr'
       /\ PartialTP50Executed tr' = true
       /\ PartialTP100Executed tr' = true.
Proof.
  intros Hk Hdue Hen Htp H50 H100 Hop1 Hop2.
  rewrite (checkPosition_tracked pos tr h s Hk). cbn zeta.
  destruct (checkTrailingStop_spec pos tr h s) as (h' & w' & rc & E & Hsame).
  destruct (Hsame Hdue) as (-> & -> & ->).
  rewrite E, Hdue. cbn [fst snd].
  match goal with
  | |- context [checkPartialTP pos tr h ?s1] =>
      destruct (checkPartialTP_spec pos tr h s1) as (_ & _ & Hb)
  end.
  { cbn [trader]. by destruct (activatesNow _ _ _). }
  { done. }
  destruct (Hb o1 w1 o2 w2 H50 H100 Hop1 Hop2) as [Hr Hm].
  split; [done|]. rewrite Hm. cbn [trader].
  rewrite !lookup_alter_eq.
  destruct (activatesNow _ _ _); cbn [positionPnLTracking withTracking].
  - rewrite lookup_alter_eq, Hk. cbn. eexists. split; [reflexivity|done].
  - rewrite Hk. cbn. eexists. split; [reflexivity|done].
Qed.


(** The pass over one tracked position: its trailing-stop flag
    afterwards.  It is up exactly when it was up before or the trailing
    stop is enabled and the profit has reached the activation threshold. *)
Lemma checkPosition_trailing_flag pos tr h (s : Sys W) :
  positionPnLTracking (trader s) !! keyOf pos = Some tr ->
  exists tr',
    positionPnLTracking (trader (checkPosition pos h s).2) !! keyOf pos
    = Some tr'
    /\ TrailingStopActivated tr'
       = TrailingStopActivated tr
         || (EnableTrailingStop (config (trader s))
             && fge (pi_UnrealizedPnLPct pos)
                  (fmul (TrailingStopActivation (config (trader s))) 100)).
Proof.
  intros Hk.
  rewrite (checkPosition_tracked pos tr h s Hk). cbn zeta.
  destruct (checkTrailingStop_spec pos tr h s) as (h' & w' & rc & E & _).
  rewrite E. cbn [fst snd].
  set (s1 := mkSys _ w' _ rc).
  assert (H1 : exists tr1,
             positionPnLTracking (trader s1) !! keyOf pos = Some tr1
             /\ TrailingStopActivated tr1
                = TrailingStopActivated tr
                  || (EnableTrailingStop (config (trader s))
                      && fge (pi_UnrealizedPnLPct pos)
                           (fmul (TrailingStopActivation (config (trader s)))
                              100))).
  { subst s1. cbn [trader]. unfold activatesNow.
    destruct (EnableTrailingStop (config (trader s))); cbn [andb];
      [|exists tr; by rewrite orb_false_r].
    destruct (TrailingStopActivated tr) eqn:Ef; cbn [negb andb orb];
      [exists tr; by rewrite Ef|].
    destruct (fge _ _); cbn [positionPnLTracking withTracking].
    - exists (withTrailingStopActivated true tr).
      by rewrite lookup_alter_eq, Hk.
    - exists tr. by rewrite Ef. }
  assert (Hc1 : config (trader s1) = config (trader s))
    by (subst s1; cbn [trader]; by destruct (activatesNow _ _ _)).
  destruct H1 as (tr1 & Hk1 & Hf1).
  destruct (trailingDue _ pos tr); cbn [snd]; [by exists tr1|].
  destruct (EnablePartialTakeProfit (config (trader s1))
            && fgt (TakeProfitPrice tr) 0) eqn:Eon.
  - apply andb_true_iff in Eon as [E1 E2].
    destruct (checkPartialTP_outcome pos tr h' s1 E1 E2) as (Hm & _).
    rewrite Hm.
    destruct (stage50 pos tr (world s1)).1, (stage100 pos tr (world s1)).1;
      cbn [id]; rewrite ?lookup_alter_eq, Hk1;
      cbn [fmap option_fmap option_map];
      eexists; (split; [reflexivity|]); exact Hf1.
  - rewrite checkPartialTP_off by done. by exists tr1.
Qed.

(** The pass over one tracked position on which the trailing stop does not
    fire sends nothing but closes of half the live quantity. *)
Lemma checkPosition_half_closes pos tr h (s : Sys W) :
  positionPnLTracking (trader s) !! keyOf pos = Some tr ->
  trailingDue (config (trader s)) pos tr = false ->
  exists cs,
    calls (checkPosition pos h s).2 = (calls s ++ cs)%list
    /\ Forall (fun c => c = closeCall (pi_Side pos) (pi_Symbol pos)
                           (pi_Quantity pos * 0.5)) cs.
Proof.
  intros Hk Hdue.
  destruct (EnablePartialTakeProfit (config (trader s))
            && fgt (TakeProfitPrice tr) 0) eqn:Eon.
  - apply andb_true_iff in Eon as [E1 E2].
    rewrite (checkPosition_partial_calls pos tr h s Hk Hdue E1 E2).
    eexists. split; [reflexivity|].
    destruct (due50 pos tr), (due100 pos tr); repeat constructor.
  - rewrite (checkPosition_tracked pos tr h s Hk). cbn zeta.
    destruct (checkTrailingStop_spec pos tr h s) as (h' & w' & rc & E & _).
    rewrite E, Hdue. cbn [fst snd].
    rewrite checkPartialTP_off
      by (cbn [trader]; by destruct (activatesNow _ _ _)).
    exists []. by cbn [calls].
Qed.

End PartialFacts.

(** C4 fails on the code.  A long of quantity 2, entry 50000 and target
    55000: at 52500 the first stage closes 1; in a later cycle, at 55000,
    the second stage closes 0.5, half of the remaining quantity 1, and
    raises its flag, so that the third cycle sends nothing more: half of
    what remained stays open. *)
Theorem target100_closes_half_of_remaining :
  orderCalls (calls (cycles 1 (startSys traderTP worldTwoStages)))
  = [CallCloseLong "BTCUSDT" (2 * 0.5)]
  /\ flagsOf "BTCUSDT_long" (trader (cycles 1 (startSys traderTP worldTwoStages)))
     = Some (true, true, false)
  /\ orderCalls (calls (cycles 2 (startSys traderTP worldTwoStages)))
     = [CallCloseLong "BTCUSDT" (2 * 0.5); CallCloseLong "BTCUSDT" (1 * 0.5)]
  /\ flagsOf "BTCUSDT_long" (trader (cycles 2 (startSys traderTP worldTwoStages)))
     = Some (true, true, true)
  /\ orderCalls (calls (cycles 3 (startSys traderTP worldTwoStages)))
     = [CallCloseLong "BTCUSDT" (2 * 0.5); CallCloseLong "BTCUSDT" (1 * 0.5)]
  /\ (0 < 1 - 1 * 0.5)%Q.
Proof.
  repeat split; vm_compute; reflexivity.
Qed.

(** What [checkStopLossTriggered] does on any state, also one in which a
    tracked key is absent from the context it is given.  When the equity
    has not decreased with respect to the recorded one, it leaves the
    stop-loss counter, the time of the last stop-loss and the end of the
    backoff as they were.  When it increments the counter, the backoff is
    enabled, the recorded equity is positive, the equity has decreased, and
    some tracked key is absent from the live snapshot with a market price
    that satisfies [lossSide]: within 5% of the losing side of the recorded
    stop price; or, with no stop price, not on the profitable side of the
    recorded entry price; or neither price is recorded. *)
Lemma checkStopLossTriggered_counts :
  (forall (W : Type) (E : External W) ctx (s : Sys W),
      (lastTotalEquity (trader s) <= TotalEquity (ctx_Account ctx))%Q ->
      breakerState (trader (checkStopLossTriggered ctx s).2)
      = breakerState (trader s))
  /\ (forall (W : Type) (E : External W) ctx (s : Sys W),
        stopLossCount (trader (checkStopLossTriggered ctx s).2)
        <> stopLossCount (trader s) ->
        EnableExponentialBackoff (config (trader s)) = true
        /\ (0 < lastTotalEquity (trader s))%Q
        /\ (TotalEquity (ctx_Account ctx) < lastTotalEquity (trader s))%Q
        /\ exists key, lossEvent (trader s) (liveKeys ctx) key)
  /\ (forall equityDecreased side price stop entry,
        classifyStopLoss equityDecreased side price stop entry = true
        <-> equityDecreased = true /\ lossSide side price stop entry).
Proof.
  split.
  { intros W E ctx s Hle.
    destruct (checkStopLossTriggered_spec ctx s) as [_ [Hs|(_ & Hd & _)]];
      [exact Hs|].
    unfold equityDecreasedOf in Hd. apply andb_true_iff in Hd as [_ Hd].
    apply flt_true in Hd. lra. }
  split.
  { intros W E ctx s Hne.
    destruct (checkStopLossTriggered_spec ctx s) as [_ [Hs|(He & Hd & Hev)]].
    - unfold breakerState in Hs. injection Hs as Hs _ _. contradiction.
    - unfold equityDecreasedOf in Hd. apply andb_true_iff in Hd as [Hd1 Hd2].
      apply fgt_true in Hd1. apply flt_true in Hd2. done. }
  exact classifyStopLoss_spec.
Qed.

(** * Further properties of the code *)

(** ** Steps of the monad and relations they keep *)

Section Steps.

Context {W : Type} `{External W}.
Context (R : Sys W -> Sys W -> Prop) `{!Reflexive R} `{!Transitive R}.

Lemma step_ret {A} (a : A) (s : Sys W) : R s (ret a s).2.
Proof. reflexivity. Qed.

Lemma step_bind {A B} (m : M W A) (k : A -> M W B) (s : Sys W) :
  R s (m s).2 ->
  (forall a s', m s = (a, s') -> R s' (k a s').2) ->
  R s (bind m k s).2.
Proof.
  intros Hm Hk. unfold bind. destruct (m s) as [a s'] eqn:E.
  cbn [snd] in Hm. etransitivity; [exact Hm|]. by apply Hk.
Qed.

Lemma step_forEach {A B} (xs : list A) (body : A -> B -> M W B) :
  (forall x acc s, R s (body x acc s).2) ->
  forall acc s, R s (forEach xs body acc s).2.
Proof.
  intros Hbody. induction xs as [|x rest IH]; intros acc s.
  - reflexivity.
  - cbn [forEach]. apply step_bind; [apply Hbody|]. intros acc' s' _.
    apply IH.
Qed.

Lemma step_forEach_In {A B} (xs : list A) (body : A -> B -> M W B) :
  (forall x acc s, In x xs -> R s (body x acc s).2) ->
  forall acc s, R s (forEach xs body acc s).2.
Proof.
  induction xs as [|x rest IH]; intros Hbody acc s.
  - reflexivity.
  - cbn [forEach]. apply step_bind; [apply Hbody; by left|].
    intros acc' s' _. apply IH. intros y acc0 s0 Hy. apply Hbody. by right.
Qed.

End Steps.

(** A goal [R s (m s).2] is split along the structure of [m]; [leaf] closes
    what is left at the calls of other functions. *)
Ltac step leaf :=
  cbv zeta;
  lazymatch goal with
  | |- ?R _ (snd (bind ?m ?k ?s0)) =>
      apply (step_bind R m k s0);
      [ step leaf
      | let a := fresh "a" in
        let s := fresh "s" in
        let E := fresh "E" in
        intros a s E; step leaf ]
  | |- _ _ (snd (ret _ _)) => reflexivity
  | |- _ _ (snd ((if ?b then _ else _) _)) => destruct b eqn:?; step leaf
  | |- _ _ (snd ((match ?x with _ => _ end) _)) =>
      destruct x eqn:?; step leaf
  | |- ?R _ (snd (forEach ?xs ?body _ _)) =>
      apply (step_forEach R xs body); intros; step leaf
  | |- _ => leaf
  end.

(** ** The calls a function makes *)

#[export] Instance callsOnly_refl {W} (P : Call -> Prop) :
  Reflexive (@callsOnly W P).
Proof. intros s. exists []. by rewrite app_nil_r. Qed.

#[export] Instance callsOnly_trans {W} (P : Call -> Prop) :
  Transitive (@callsOnly W P).
Proof.
  intros s1 s2 s3 (c1 & E1 & F1) (c2 & E2 & F2). exists (c1 ++ c2)%list.
  split; [by rewrite E2, E1, app_assoc|by apply Forall_app].
Qed.

Lemma callsOnly_weaken {W} (P Q : Call -> Prop) (s s' : Sys W) :
  (forall c, P c -> Q c) -> callsOnly P s s' -> callsOnly Q s s'.
Proof.
  intros HPQ (cs & E & F). exists cs. split; [done|].
  eapply Forall_impl; [exact F|done].
Qed.

Section Calls.

Context {W : Type} `{External W}.
Context (P : Call -> Prop).

Lemma callsOnly_same (s s' : Sys W) : calls s' = calls s -> callsOnly P s s'.
Proof. intros E. exists []. by rewrite app_nil_r. Qed.

Lemma callsOnly_external {A} c (op : W -> A * W) (s : Sys W) :
  P c -> callsOnly P s (external c op s).2.
Proof.
  intros Hc. unfold external. destruct (op (world s)) as [a w'].
  exists [c]. split; [done|]. by constructor.
Qed.

Lemma callsOnly_now (s : Sys W) : callsOnly P s (now s).2.
Proof.
  unfold now. destruct (time_Now (world s)). by apply callsOnly_same.
Qed.

Lemma callsOnly_LogDecision (s : Sys W) :
  P (CallLogDecision (record s)) -> callsOnly P s (LogDecision s).2.
Proof. intros Hc. exists [CallLogDecision (record s)]. split; [done|]. by constructor. Qed.

End Calls.

(** The leaves of a [callsOnly] goal: a step that makes no call, or a call
    that the context allows. *)
Ltac calls_leaf :=
  first
    [ apply callsOnly_same; reflexivity
    | apply callsOnly_now
    | apply callsOnly_external; solve [auto]
    | apply callsOnly_LogDecision; solve [auto]
    | solve [auto] ].

Ltac calls_step :=
  unfold GetBalance, GetPositions, OpenLong, OpenShort, CloseLong,
    CloseShort, SetStopLoss, SetTakeProfit, marketGet, GetMergedCoinPool,
    appendAction, appendLog, failRecord, updateTracking;
  step calls_leaf.

(** ** The validator: what an accepted intent satisfies *)

(** X1.  Every open or increase intent that [validateDecision] accepts
    passes all its rules: the leverage is between 1 and the ceiling of its
    symbol class, the size is positive and at most the notional ceiling plus
    1%, entry, stop and target are positive, the invalidation condition is
    not blank, stop and target are on the right sides of the entry price,
    and reward / risk is at least 2. *)
Theorem validateDecision_accepted_entry_is_sane d equity bl al :
  isOpenOrIncrease (Action d) = true ->
  validateDecision d equity bl al = None ->
  passesSanity d equity bl al /\ (2 <= riskRewardRatio d)%Q.
Proof.
  intros Ha Hv. unfold validateDecision in Hv. cbv zeta in Hv.
  destruct (isValidAction (Action d)); [|discriminate]. cbn [negb] in Hv.
  rewrite Ha in Hv.
  destruct ((Leverage d <=? 0) || _)%Z eqn:Hlev; [discriminate|].
  destruct (fle (PositionSizeUSD d) 0) eqn:Hsz; [discriminate|].
  destruct (fgt (PositionSizeUSD d) _) eqn:Hmx; [discriminate|].
  destruct (fle (EntryPrice d) 0) eqn:Hen; [discriminate|].
  destruct (fle (StopLoss d) 0 || fle (TakeProfit d) 0) eqn:Hst;
    [discriminate|].
  destruct (trimsToEmpty (InvalidationCondition d)) eqn:Hinv; [discriminate|].
  apply orb_false_iff in Hlev as [Hl1 Hl2].
  apply Z.leb_gt in Hl1. rewrite Z.gtb_ltb in Hl2. apply Z.ltb_ge in Hl2.
  apply fle_false in Hsz. apply fgt_false in Hmx. apply fle_false in Hen.
  apply orb_false_iff in Hst as [Hs Ht].
  apply fle_false in Hs. apply fle_false in Ht.
  assert (Hside : isLongEntry (Action d) = true
                  \/ (isLongEntry (Action d) = false
                      /\ isShortEntry (Action d) = true)).
  { destruct (isOpenOrIncrease_cases _ Ha) as [A|[A|[A|A]]]; rewrite A;
      cbn; tauto. }
  unfold riskRewardRatio, riskPct, rewardPct.
  destruct Hside as [HL|[HL HS]]; rewrite HL in Hv; [|rewrite HS in Hv].
  - destruct (fge (StopLoss d) (EntryPrice d)) eqn:H1; [discriminate|].
    destruct (fle (TakeProfit d) (EntryPrice d)) eqn:H2; [discriminate|].
    apply fge_false in H1. apply fle_false in H2.
    destruct (flt _ 2.0) eqn:E; [discriminate|].
    apply ratio_gate in E;
      [|apply fmul_nonneg; [apply fdiv_nonneg;
          [apply round64_nonneg; lra|exact Hen]|lra]].
    rewrite (Qabs_fsub_pos (EntryPrice d) (StopLoss d)) by lra.
    rewrite (Qabs_fsub_pos (TakeProfit d) (EntryPrice d)) by lra.
    split; [|exact E].
    constructor; try assumption;
      [unfold leverageCeiling; lia|by rewrite HL].
  - destruct (fle (StopLoss d) (EntryPrice d)) eqn:H1; [discriminate|].
    destruct (fge (TakeProfit d) (EntryPrice d)) eqn:H2; [discriminate|].
    apply fle_false in H1. apply fge_false in H2.
    destruct (flt _ 2.0) eqn:E; [discriminate|].
    apply ratio_gate in E;
      [|apply fmul_nonneg; [apply fdiv_nonneg;
          [apply round64_nonneg; lra|exact Hen]|lra]].
    rewrite (Qabs_fsub_neg (EntryPrice d) (StopLoss d)) by lra.
    rewrite (Qabs_fsub_neg (TakeProfit d) (EntryPrice d)) by lra.
    split; [|exact E].
    constructor; try assumption;
      [unfold leverageCeiling; lia|by rewrite HL].
Qed.

(** X1 on an example: the accepted [open_long] with entry 100, stop 98 and
    target 104. *)
Lemma validateDecision_accepted_entry_is_sane_witness :
  passesSanity (openLongAt 104) 1000 10 5
  /\ (2 <= riskRewardRatio (openLongAt 104))%Q.
Proof.
  apply (validateDecision_accepted_entry_is_sane (openLongAt 104) 1000 10 5);
    vm_compute; reflexivity.
Defined.

(** X2.  An intent that neither opens nor increases a position is accepted
    exactly when its action is one of the eleven known ones and, for a
    decrease, its size is positive and its reasoning is not blank, and, for
    update_loss_profit, stop and target are positive and its reasoning is
    not blank.  Nothing else is looked at: close_long, close_short, hold and
    wait are accepted whatever their other fields are. *)
Theorem validateDecision_other_actions d equity bl al :
  isOpenOrIncrease (Action d) = false ->
  validateDecision d equity bl al = None <-> passesOther d.
Proof.
  intros Ha. unfold validateDecision, passesOther, isDecrease. cbv zeta.
  rewrite Ha.
  destruct (isValidAction (Action d)) eqn:Hv; cbn [negb].
  2:{ split; [discriminate|]. intros [? _]. discriminate. }
  destruct (String.eqb_spec (Action d) "update_loss_profit") as [Hu|Hu].
  - rewrite Hu. cbn [String.eqb Ascii.eqb Bool.eqb orb].
    destruct (fle (StopLoss d) 0) eqn:Hs; cbn [orb].
    { apply fle_true in Hs. split; [discriminate|].
      intros (_ & _ & Hup). destruct (Hup eq_refl) as (? & _). lra. }
    destruct (fle (TakeProfit d) 0) eqn:Ht.
    { apply fle_true in Ht. split; [discriminate|].
      intros (_ & _ & Hup). destruct (Hup eq_refl) as (_ & ? & _). lra. }
    apply fle_false in Hs. apply fle_false in Ht.
    destruct (trimsToEmpty (Reasoning d)) eqn:Hr.
    { split; [discriminate|].
      intros (_ & _ & Hup). destruct (Hup eq_refl) as (_ & _ & ?). done. }
    split; [|done]. intros _. split; [done|]. split; [discriminate|done].
  - destruct (String.eqb (Action d) "decrease_long"
              || String.eqb (Action d) "decrease_short") eqn:Hd.
    + destruct (fle (PositionSizeUSD d) 0) eqn:Hs.
      { apply fle_true in Hs. split; [discriminate|].
        intros (_ & Hdec & _). destruct (Hdec eq_refl) as (? & _). lra. }
      apply fle_false in Hs.
      destruct (trimsToEmpty (Reasoning d)) eqn:Hr.
      { split; [discriminate|].
        intros (_ & Hdec & _). destruct (Hdec eq_refl) as (_ & ?). done. }
      split; [|done]. intros _. split; [done|]. split; [done|]. done.
    + split; [|done]. intros _. split; [done|]. split; [discriminate|done].
Qed.

(** X2 on two examples: a [close_short] with a negative leverage and a
    negative size is accepted; so is a [decrease_long] of 50 USD with a
    reason. *)
Lemma validateDecision_other_actions_witness :
  validateDecision closeOdd 1000 10 5 = None
  /\ passesOther decreaseFifty.
Proof.
  split.
  - apply (validateDecision_other_actions closeOdd 1000 10 5);
      [reflexivity|].
    split; [reflexivity|]. split; [discriminate|discriminate].
  - apply (validateDecision_other_actions decreaseFifty 1000 10 5);
      reflexivity.
Defined.

(** ** Validation of a batch: acceptance *)

Lemma validateDecisionsFrom_None i ds equity bl al :
  validateDecisionsFrom i ds equity bl al = None
  <-> Forall (fun d => validateDecision d equity bl al = None) ds.
Proof.
  revert i. induction ds as [|d ds IH]; intros i; cbn.
  - split; [constructor|done].
  - destruct (validateDecision d equity bl al) eqn:E.
    + split; [discriminate|]. intros HF. inversion HF. congruence.
    + rewrite IH. split; [by constructor|]. intros HF. by inversion HF.
Qed.

Section BatchFacts.

Context {W : Type} `{External W}.

(** X3.  When [GetFullDecision] hands a batch to the caller, the batch is
    the one the AI step produced (the decisions extracted from the answer
    of the model), unchanged, every intent of it passes [validateDecision]
    against the equity and the leverage ceilings of the context, and the
    trader state and the record of the cycle are untouched. *)
Theorem GetFullDecision_returns_validated_batch ctx (s s' : Sys W) ds :
  GetFullDecision ctx s = (inr ds, s') ->
  ai_GetDecisions ctx (world s) = (Ok ds, world s')
  /\ Forall (fun d => validateDecision d (TotalEquity (ctx_Account ctx))
                        (ctx_BTCETHLeverage ctx) (ctx_AltcoinLeverage ctx)
                      = None) ds
  /\ trader s' = trader s
  /\ record s' = record s.
Proof.
  unfold GetFullDecision, bind, external, ret.
  destruct (ai_GetDecisions ctx (world s)) as [[batch|msg] w1];
    [|discriminate].
  destruct (validateDecisions batch _ _ _) as [[i e]|] eqn:Hv;
    [discriminate|].
  intros [= <- <-]. cbn [world trader calls record].
  repeat split. by apply (validateDecisionsFrom_None 0).
Qed.

End BatchFacts.

(** X3 on an example: the scripted AI proposes one acceptable open_long. *)
Lemma GetFullDecision_returns_validated_batch_witness :
  Forall (fun d => validateDecision d 1000 10 5 = None) [openLongAt 104].
Proof.
  pose (s := startSys trader0 (worldAt 100 [openLongAt 104])).
  exact (proj1 (proj2 (GetFullDecision_returns_validated_batch ctx0 s
                         (GetFullDecision ctx0 s).2 [openLongAt 104]
                         eq_refl))).
Defined.

(** ** The sequencer on an ordered batch *)

Lemma ordered_lookup (l : list Decision) a b x y :
  ordered l -> (a < b)%nat -> l !! a = Some x -> l !! b = Some y ->
  prio x <= prio y.
Proof.
  intros Hs. revert a b. induction Hs as [|z l Hs IH Hz]; intros a b Hab Hx Hy.
  - done.
  - destruct b as [|b]; [lia|]. cbn in Hy.
    destruct a as [|a]; cbn in Hx.
    + injection Hx as <-. rewrite Forall_forall in Hz. apply Hz.
      by eapply list_elem_of_lookup_2.
    + apply (IH a b); [lia|done..].
Qed.

Lemma compareSwap_ordered l i j :
  ordered l -> (i < j)%nat -> compareSwap getActionPriority l i j = l.
Proof.
  intros Hs Hij. unfold compareSwap.
  destruct (l !! i) as [x|] eqn:Hx; [|done].
  destruct (l !! j) as [y|] eqn:Hy; [|done].
  pose proof (ordered_lookup l i j x y Hs Hij Hx Hy) as Hle.
  unfold prio in Hle.
  rewrite Z.gtb_ltb. by rewrite (proj2 (Z.ltb_ge _ _) Hle).
Qed.

Lemma innerLoop_ordered n : forall i j l,
  ordered l -> (i < j)%nat -> innerLoop getActionPriority n i j l = l.
Proof.
  induction n as [|n IH]; intros i j l Hs Hij; [done|].
  cbn [innerLoop]. rewrite compareSwap_ordered by done.
  apply IH; [done|lia].
Qed.

Lemma outerLoop_ordered n : forall i l, ordered l -> outerLoop getActionPriority n i l = l.
Proof.
  induction n as [|n IH]; intros i l Hs; [done|].
  cbn [outerLoop]. rewrite innerLoop_ordered by (done || lia).
  by apply IH.
Qed.

(** X4.  A batch that is already in non-decreasing priority number is
    returned as it is: no two of its intents change places, those of one
    class included. *)
Theorem sortDecisionsByPriority_fixes_ordered ds :
  ordered ds -> sortDecisionsByPriority ds = ds.
Proof.
  intros Hs. unfold sortDecisionsByPriority, exchangeSort.
  destruct (length ds <=? 1)%nat; [done|]. by apply outerLoop_ordered.
Qed.

(** X4 on an example. *)
Lemma sortDecisionsByPriority_fixes_ordered_witness :
  sortDecisionsByPriority batchOrdered = batchOrdered.
Proof.
  apply (sortDecisionsByPriority_fixes_ordered batchOrdered).
  unfold ordered, batchOrdered.
  repeat (constructor; [|repeat (constructor; [vm_compute; discriminate|]);
                         constructor]).
  constructor.
Defined.

(** Ordering an ordered batch again changes nothing. *)
Lemma sortDecisionsByPriority_twice ds :
  sortDecisionsByPriority (sortDecisionsByPriority ds)
  = sortDecisionsByPriority ds.
Proof.
  unfold sortDecisionsByPriority at 1. unfold exchangeSort.
  destruct (length _ <=? 1)%nat; [done|].
  apply outerLoop_ordered. apply sort_spec.
Qed.

(** ** The calls each function makes *)

Section CallsOf.

Context {W : Type} `{External W}.
Context (P : Call -> Prop).

Lemma buildPosition_calls pos acc (s : Sys W) :
  callsOnly P s (buildPosition pos acc s).2.
Proof. unfold buildPosition. calls_step. Qed.

Lemma buildTradingContext_calls (s : Sys W) :
  (forall c, isReadCall c = true -> P c) ->
  callsOnly P s (buildTradingContext s).2.
Proof.
  intros HP. pose proof buildPosition_calls.
  unfold buildTradingContext. calls_step.
Qed.

Lemma checkStopLossKey_calls keys decreased key u (s : Sys W) :
  (forall c, isReadCall c = true -> P c) ->
  callsOnly P s (checkStopLossKey keys decreased key u s).2.
Proof. intros HP. unfold checkStopLossKey. calls_step. Qed.

Lemma checkStopLossTriggered_calls ctx (s : Sys W) :
  (forall c, isReadCall c = true -> P c) ->
  callsOnly P s (checkStopLossTriggered ctx s).2.
Proof.
  intros HP. pose proof checkStopLossKey_calls.
  unfold checkStopLossTriggered. calls_step.
Qed.

Lemma resetCounters_calls (s : Sys W) :
  callsOnly P s (resetCounters s).2.
Proof. unfold resetCounters. calls_step. Qed.

Lemma recordOpen_calls d key price (s : Sys W) :
  callsOnly P s (recordOpen d key price s).2.
Proof. unfold recordOpen. calls_step. Qed.

Lemma GetFullDecision_calls ctx (s : Sys W) :
  P (CallAI ctx) -> callsOnly P s (GetFullDecision ctx s).2.
Proof. intros HP. unfold GetFullDecision. calls_step. Qed.

(** The controller closes, and only the position it is looking at. *)

Lemma closeCall_long side symbol q :
  String.eqb side "long" = true ->
  closeCall side symbol q = CallCloseLong symbol q.
Proof. intros E. unfold closeCall. by rewrite E. Qed.

Lemma closeCall_short side symbol q :
  String.eqb side "long" = false ->
  closeCall side symbol q = CallCloseShort symbol q.
Proof. intros E. unfold closeCall. by rewrite E. Qed.

Lemma closeVenue_calls side symbol q (s : Sys W) :
  P (closeCall side symbol q) ->
  callsOnly P s
    ((if String.eqb side "long" then CloseLong symbol q
      else CloseShort symbol q) s).2.
Proof.
  intros HP. unfold closeCall in HP.
  destruct (String.eqb side "long"); by apply callsOnly_external.
Qed.

Lemma executeTrailingStop_calls pos (s : Sys W) :
  P (closeCall (pi_Side pos) (pi_Symbol pos) 0) ->
  callsOnly P s (executeTrailingStop pos s).2.
Proof.
  intros HP. unfold executeTrailingStop. cbv zeta.
  apply (step_bind (callsOnly P)); [by apply closeVenue_calls|].
  intros r s1 _. calls_step.
Qed.

Lemma executePartialTakeProfit_calls pos ratio (s : Sys W) :
  P (closeCall (pi_Side pos) (pi_Symbol pos) (pi_Quantity pos * ratio)) ->
  callsOnly P s (executePartialTakeProfit pos ratio s).2.
Proof.
  intros HP. unfold executePartialTakeProfit. cbv zeta.
  apply (step_bind (callsOnly P)); [by apply closeVenue_calls|].
  intros r s1 _. calls_step.
Qed.

Lemma checkTrailingStop_calls pos tr h (s : Sys W) :
  P (closeCall (pi_Side pos) (pi_Symbol pos) 0) ->
  callsOnly P s (checkTrailingStop pos tr h s).2.
Proof.
  intros HP. pose proof (executeTrailingStop_calls pos).
  unfold checkTrailingStop. calls_step.
Qed.

Lemma checkPartialTP_calls pos tr h (s : Sys W) :
  P (closeCall (pi_Side pos) (pi_Symbol pos) (pi_Quantity pos * 0.5)) ->
  callsOnly P s (checkPartialTP pos tr h s).2.
Proof.
  intros HP. pose proof (executePartialTakeProfit_calls pos 0.5).
  unfold checkPartialTP. calls_step.
Qed.

Lemma checkPosition_calls pos h (s : Sys W) :
  (forall c, controllerClose pos c -> P c) ->
  callsOnly P s (checkPosition pos h s).2.
Proof.
  intros HP.
  assert (H0 : P (closeCall (pi_Side pos) (pi_Symbol pos) 0))
    by (apply HP; by left).
  assert (H5 : P (closeCall (pi_Side pos) (pi_Symbol pos)
                    (pi_Quantity pos * 0.5)))
    by (apply HP; by right).
  pose proof (checkTrailingStop_calls pos).
  pose proof (checkPartialTP_calls pos).
  unfold checkPosition. calls_step.
Qed.

Lemma checkTrailingStopAndPartialTP_calls ctx h (s : Sys W) :
  (forall pos c, In pos (ctx_Positions ctx) -> controllerClose pos c -> P c) ->
  callsOnly P s (checkTrailingStopAndPartialTP ctx h s).2.
Proof.
  intros HP. unfold checkTrailingStopAndPartialTP.
  apply (step_forEach_In (callsOnly P)). intros pos acc s0 Hin.
  apply checkPosition_calls. intros c. by apply HP.
Qed.

(** The dispatch of one decision. *)

Lemma executeOpenLongWithRecord_calls d r (s : Sys W) :
  (forall c, isDispatchCall c = true -> P c) ->
  callsOnly P s (executeOpenLongWithRecord d r s).2.
Proof.
  intros HP. pose proof recordOpen_calls.
  unfold executeOpenLongWithRecord. calls_step.
Qed.

Lemma executeOpenShortWithRecord_calls d r (s : Sys W) :
  (forall c, isDispatchCall c = true -> P c) ->
  callsOnly P s (executeOpenShortWithRecord d r s).2.
Proof.
  intros HP. pose proof recordOpen_calls.
  unfold executeOpenShortWithRecord. calls_step.
Qed.

Lemma executeCloseLongWithRecord_calls d r (s : Sys W) :
  (forall c, isDispatchCall c = true -> P c) ->
  callsOnly P s (executeCloseLongWithRecord d r s).2.
Proof. intros HP. unfold executeCloseLongWithRecord. calls_step. Qed.

Lemma executeCloseShortWithRecord_calls d r (s : Sys W) :
  (forall c, isDispatchCall c = true -> P c) ->
  callsOnly P s (executeCloseShortWithRecord d r s).2.
Proof. intros HP. unfold executeCloseShortWithRecord. calls_step. Qed.

Lemma executeDecisionWithRecord_calls d r (s : Sys W) :
  (forall c, isDispatchCall c = true -> P c) ->
  callsOnly P s (executeDecisionWithRecord d r s).2.
Proof.
  intros HP.
  pose proof executeOpenLongWithRecord_calls.
  pose proof executeOpenShortWithRecord_calls.
  pose proof executeCloseLongWithRecord_calls.
  pose proof executeCloseShortWithRecord_calls.
  unfold executeDecisionWithRecord. calls_step.
Qed.

Lemma dispatchOne_calls d u (s : Sys W) :
  (forall c, isDispatchCall c = true -> P c) ->
  callsOnly P s (dispatchOne d u s).2.
Proof.
  intros HP. pose proof executeDecisionWithRecord_calls.
  unfold dispatchOne. calls_step.
Qed.

End CallsOf.

(** ** What each function leaves alone in the trader object *)

#[export] Instance onTrader_refl {W} (T : relation AutoTrader)
  `{!Reflexive T} : Reflexive (@onTrader W T).
Proof. intros s. unfold onTrader. reflexivity. Qed.

#[export] Instance onTrader_trans {W} (T : relation AutoTrader)
  `{!Transitive T} : Transitive (@onTrader W T).
Proof. intros s1 s2 s3. unfold onTrader. apply transitivity. Qed.

#[export] Instance mapsOnly_refl : Reflexive mapsOnly.
Proof. intros a. by constructor. Qed.

#[export] Instance mapsOnly_trans : Transitive mapsOnly.
Proof. intros a b c [] []. constructor; congruence. Qed.

#[export] Instance keepsWellTracked_refl : Reflexive keepsWellTracked.
Proof. intros a Ha. exact Ha. Qed.

#[export] Instance keepsWellTracked_trans : Transitive keepsWellTracked.
Proof. intros a b c Hab Hbc Ha. apply Hbc, Hab, Ha. Qed.

Section TraderSteps.

Context {W : Type} `{External W}.
Context (T : relation AutoTrader) `{!Reflexive T}.

Lemma onTrader_same (s s' : Sys W) : trader s' = trader s -> onTrader T s s'.
Proof. unfold onTrader. intros ->. reflexivity. Qed.

Lemma onTrader_external {A} c (op : W -> A * W) (s : Sys W) :
  onTrader T s (external c op s).2.
Proof.
  unfold external. destruct (op (world s)). by apply onTrader_same.
Qed.

Lemma onTrader_now (s : Sys W) : onTrader T s (now s).2.
Proof. unfold now. destruct (time_Now (world s)). by apply onTrader_same. Qed.

Lemma onTrader_modifyTrader f (s : Sys W) :
  T (trader s) (f (trader s)) -> onTrader T s (modifyTrader f s).2.
Proof. done. Qed.

End TraderSteps.

Lemma keepsWellTracked_same a a' :
  positionPnLTracking a' = positionPnLTracking a ->
  positionFirstSeenTime a' = positionFirstSeenTime a ->
  keepsWellTracked a a'.
Proof. intros E1 E2 Ha key. rewrite E1, E2. apply Ha. Qed.

(** A field update that leaves the other fields alone, or the two key maps. *)
Ltac field_update :=
  first [ constructor; reflexivity
        | apply keepsWellTracked_same; reflexivity ].

Ltac trader_leaf :=
  idtac;
  lazymatch goal with
  | |- onTrader ?T _ _ =>
      first
        [ apply (onTrader_same T); reflexivity
        | apply (onTrader_now T)
        | apply (onTrader_external T)
        | apply (onTrader_modifyTrader T); solve [field_update | auto]
        | solve [eauto] ]
  end.

Ltac trader_step :=
  unfold GetBalance, GetPositions, OpenLong, OpenShort, CloseLong,
    CloseShort, SetStopLoss, SetTakeProfit, marketGet, GetMergedCoinPool,
    appendAction, appendLog, failRecord, updateTracking, LogDecision;
  step trader_leaf.

(** The four position maps are the only fields these functions write. *)

Section MapsOnly.

Context {W : Type} `{External W}.

Lemma buildPosition_mapsOnly pos acc (s : Sys W) :
  onTrader mapsOnly s (buildPosition pos acc s).2.
Proof. unfold buildPosition. trader_step. Qed.

Lemma buildTradingContext_mapsOnly (s : Sys W) :
  onTrader mapsOnly s (buildTradingContext s).2.
Proof.
  pose proof buildPosition_mapsOnly.
  unfold buildTradingContext. trader_step.
Qed.

Lemma executeTrailingStop_mapsOnly pos (s : Sys W) :
  onTrader mapsOnly s (executeTrailingStop pos s).2.
Proof. unfold executeTrailingStop. trader_step. Qed.

Lemma executePartialTakeProfit_mapsOnly pos ratio (s : Sys W) :
  onTrader mapsOnly s (executePartialTakeProfit pos ratio s).2.
Proof. unfold executePartialTakeProfit. trader_step. Qed.

Lemma checkTrailingStop_mapsOnly pos tr h (s : Sys W) :
  onTrader mapsOnly s (checkTrailingStop pos tr h s).2.
Proof.
  pose proof executeTrailingStop_mapsOnly.
  unfold checkTrailingStop. trader_step.
Qed.

Lemma checkPartialTP_mapsOnly pos tr h (s : Sys W) :
  onTrader mapsOnly s (checkPartialTP pos tr h s).2.
Proof.
  pose proof executePartialTakeProfit_mapsOnly.
  unfold checkPartialTP. trader_step.
Qed.

Lemma checkPosition_mapsOnly pos h (s : Sys W) :
  onTrader mapsOnly s (checkPosition pos h s).2.
Proof.
  pose proof checkTrailingStop_mapsOnly. pose proof checkPartialTP_mapsOnly.
  unfold checkPosition. trader_step.
Qed.

Lemma checkTrailingStopAndPartialTP_mapsOnly ctx h (s : Sys W) :
  onTrader mapsOnly s (checkTrailingStopAndPartialTP ctx h s).2.
Proof.
  pose proof checkPosition_mapsOnly.
  unfold checkTrailingStopAndPartialTP. trader_step.
Qed.

Lemma recordOpen_mapsOnly d key price (s : Sys W) :
  onTrader mapsOnly s (recordOpen d key price s).2.
Proof. unfold recordOpen. trader_step. Qed.

Lemma executeOpenLongWithRecord_mapsOnly d r (s : Sys W) :
  onTrader mapsOnly s (executeOpenLongWithRecord d r s).2.
Proof.
  pose proof recordOpen_mapsOnly.
  unfold executeOpenLongWithRecord. trader_step.
Qed.

Lemma executeOpenShortWithRecord_mapsOnly d r (s : Sys W) :
  onTrader mapsOnly s (executeOpenShortWithRecord d r s).2.
Proof.
  pose proof recordOpen_mapsOnly.
  unfold executeOpenShortWithRecord. trader_step.
Qed.

Lemma executeCloseLongWithRecord_mapsOnly d r (s : Sys W) :
  onTrader mapsOnly s (executeCloseLongWithRecord d r s).2.
Proof. unfold executeCloseLongWithRecord. trader_step. Qed.

Lemma executeCloseShortWithRecord_mapsOnly d r (s : Sys W) :
  onTrader mapsOnly s (executeCloseShortWithRecord d r s).2.
Proof. unfold executeCloseShortWithRecord. trader_step. Qed.

Lemma executeDecisionWithRecord_mapsOnly d r (s : Sys W) :
  onTrader mapsOnly s (executeDecisionWithRecord d r s).2.
Proof.
  pose proof executeOpenLongWithRecord_mapsOnly.
  pose proof executeOpenShortWithRecord_mapsOnly.
  pose proof executeCloseLongWithRecord_mapsOnly.
  pose proof executeCloseShortWithRecord_mapsOnly.
  unfold executeDecisionWithRecord. trader_step.
Qed.

Lemma dispatchOne_mapsOnly d u (s : Sys W) :
  onTrader mapsOnly s (dispatchOne d u s).2.
Proof.
  pose proof executeDecisionWithRecord_mapsOnly.
  unfold dispatchOne. trader_step.
Qed.

Lemma GetFullDecision_mapsOnly ctx (s : Sys W) :
  onTrader mapsOnly s (GetFullDecision ctx s).2.
Proof. unfold GetFullDecision. trader_step. Qed.

Lemma solicitAndDispatch_mapsOnly ctx (s : Sys W) :
  onTrader mapsOnly s (solicitAndDispatch ctx s).2.
Proof.
  pose proof GetFullDecision_mapsOnly. pose proof dispatchOne_mapsOnly.
  unfold solicitAndDispatch. trader_step.
Qed.

End MapsOnly.

(** The dispatcher and the tracking entries: the bookkeeping of an accepted
    open is the only write. *)

#[export] Instance sameTracking_refl : Reflexive sameTracking.
Proof. intros a. reflexivity. Qed.

#[export] Instance sameTracking_trans : Transitive sameTracking.
Proof. intros a b c. unfold sameTracking. congruence. Qed.

#[export] Instance freshAt_refl d side key : Reflexive (freshAt d side key).
Proof. intros a. by left. Qed.

#[export] Instance freshAt_trans d side key : Transitive (freshAt d side key).
Proof.
  intros a b c Hab [Hbc|Hbc]; [|by right].
  destruct Hab as [Hab|(price & Hk & Hab)].
  - left. congruence.
  - right. exists price. split; [done|]. congruence.
Qed.

Section DispatchTracking.

Context {W : Type} `{External W}.

Lemma recordOpen_freshAt d side price key (s : Sys W) :
  onTrader (freshAt d side key) s
    (recordOpen d (posKeyOf (Symbol d) side) price s).2.
Proof.
  unfold recordOpen, bind, now, modifyTrader, onTrader, freshAt.
  destruct (time_Now (world s)) as [t w']. cbn [snd trader].
  cbn [positionPnLTracking withTracking withReasonings
         withInvalidationConditions withFirstSeen].
  destruct (decide (key = posKeyOf (Symbol d) side)) as [->|Hne].
  - right. exists price. split; [done|]. by rewrite lookup_insert_eq.
  - left. by rewrite lookup_insert_ne.
Qed.

Lemma executeOpenLongWithRecord_freshAt d r key (s : Sys W) :
  onTrader (freshAt d "long" key) s (executeOpenLongWithRecord d r s).2.
Proof.
  pose proof (fun price s => recordOpen_freshAt d "long" price key s) as Hr.
  change (posKeyOf (Symbol d) "long") with (Symbol d ++ "_long") in Hr.
  unfold executeOpenLongWithRecord. trader_step.
Qed.

Lemma executeOpenShortWithRecord_freshAt d r key (s : Sys W) :
  onTrader (freshAt d "short" key) s (executeOpenShortWithRecord d r s).2.
Proof.
  pose proof (fun price s => recordOpen_freshAt d "short" price key s) as Hr.
  change (posKeyOf (Symbol d) "short") with (Symbol d ++ "_short") in Hr.
  unfold executeOpenShortWithRecord. trader_step.
Qed.

Lemma executeCloseLongWithRecord_sameTracking d r (s : Sys W) :
  onTrader sameTracking s (executeCloseLongWithRecord d r s).2.
Proof. unfold executeCloseLongWithRecord. trader_step. Qed.

Lemma executeCloseShortWithRecord_sameTracking d r (s : Sys W) :
  onTrader sameTracking s (executeCloseShortWithRecord d r s).2.
Proof. unfold executeCloseShortWithRecord. trader_step. Qed.

(** What the dispatch of one decision does to the tracking entry of a key:
    nothing, or, when the decision is an open for the position of that key
    and the open was recorded, the entry is replaced by a fresh one. *)
Lemma dispatch_tracking d r key (s : Sys W) :
  let a' := trader (executeDecisionWithRecord d r s).2 in
  positionPnLTracking a' !! key = positionPnLTracking (trader s) !! key
  \/ exists side price,
       sideOfOpen (Action d) = Some side
       /\ key = posKeyOf (Symbol d) side
       /\ positionPnLTracking a' !! key = Some (freshTracking d price).
Proof.
  cbv zeta. unfold executeDecisionWithRecord, sideOfOpen.
  destruct (String.eqb (Action d) "open_long").
  { destruct (executeOpenLongWithRecord_freshAt d r key s)
      as [Hs|(price & Hk & Hf)]; [by left|].
    right. by exists "long", price. }
  destruct (String.eqb (Action d) "open_short").
  { destruct (executeOpenShortWithRecord_freshAt d r key s)
      as [Hs|(price & Hk & Hf)]; [by left|].
    right. by exists "short", price. }
  left.
  destruct (String.eqb (Action d) "close_long").
  { by rewrite (executeCloseLongWithRecord_sameTracking d r s). }
  destruct (String.eqb (Action d) "close_short").
  { by rewrite (executeCloseShortWithRecord_sameTracking d r s). }
  by destruct (_ || _).
Qed.

End DispatchTracking.

(** ** The trailing stop and the partial take-profit, step by step *)



(** The example above, evaluated: both stages are due and accepted. *)
Example overshoot_both_stages :
  due50 (infoBtc 2 56000) (freshTracking openedBtc 50000) = true
  /\ due100 (infoBtc 2 56000) (freshTracking openedBtc 50000) = true
  /\ (stage50 (infoBtc 2 56000) (freshTracking openedBtc 50000)
        worldOvershoot).1 = true
  /\ (stage100 (infoBtc 2 56000) (freshTracking openedBtc 50000)
        worldOvershoot).1 = true.
Proof. repeat split; vm_compute; reflexivity. Qed.


(** C6, as the code has it.  In a controller pass over a tracked position
    with the trailing stop enabled: when the profit percentage is at least
    the activation threshold (both in percent, as the code computes them in
    [float64]), the flag is raised by the end of the pass; after the pass
    over one position its flag is up exactly when it was up before or the
    threshold was reached.  A raised flag is still raised after the pass,
    and a key tracked before and after the per-cycle refresh has the same
    flag and a best profit that has not retreated.  When the refresh of a cycle fails, the cycle ends with that
    error and the pass does not run: the trader is as the failed refresh
    left it.  The dispatcher writes the tracking entry of a key only when
    it records an open for the position of that key: the entry is then a
    fresh one, with the flag down.  When the flag is raised (before the pass
    or by it) and best profit minus current profit is at least the
    distance, the full close of the position (quantity 0, that is all of
    it) is sent; otherwise the pass over the position sends nothing but the
    half closes of the partial take-profit.  With activation 5% and
    distance 3%, the path 4%, 6%, 15%, 3% raises the flag in the second
    cycle and sends the close in the fourth. *)
Theorem trailing_stop_one_shot :
  (forall (W : Type) (E : External W) ctx h (s : Sys W) pos tr,
      In pos (ctx_Positions ctx) ->
      positionPnLTracking (trader s) !! keyOf pos = Some tr ->
      EnableTrailingStop (config (trader s)) = true ->
      (fmul (TrailingStopActivation (config (trader s))) 100
       <= pi_UnrealizedPnLPct pos)%Q ->
      exists tr',
        positionPnLTracking
          (trader (checkTrailingStopAndPartialTP ctx h s).2) !! keyOf pos
        = Some tr'
        /\ TrailingStopActivated tr' = true)
  /\ (forall (W : Type) (E : External W) pos tr h (s : Sys W),
        positionPnLTracking (trader s) !! keyOf pos = Some tr ->
        exists tr',
          positionPnLTracking (trader (checkPosition pos h s).2) !! keyOf pos
          = Some tr'
          /\ TrailingStopActivated tr'
             = TrailingStopActivated tr
               || (EnableTrailingStop (config (trader s))
                   && fge (pi_UnrealizedPnLPct pos)
                        (fmul (TrailingStopActivation (config (trader s)))
                           100)))
  /\ (forall (W : Type) (E : External W) ctx h (s : Sys W) key tr,
        positionPnLTracking (trader s) !! key = Some tr ->
        TrailingStopActivated tr = true ->
        exists tr',
          positionPnLTracking
            (trader (checkTrailingStopAndPartialTP ctx h s).2) !! key
          = Some tr'
          /\ TrailingStopActivated tr' = true)
  /\ (forall (W : Type) (E : External W) (s : Sys W) key tr tr',
        positionPnLTracking (trader s) !! key = Some tr ->
        positionPnLTracking (trader (buildTradingContext s).2) !! key
        = Some tr' ->
        TrailingStopActivated tr' = TrailingStopActivated tr
        /\ (MaxProfitPct tr <= MaxProfitPct tr')%Q)
  /\ (forall (W : Type) (E : External W) (s s1 : Sys W) err,
        buildTradingContext s = (inl err, s1) ->
        (refreshAndProtect s).1 = inl (ErrBuildContext err)
        /\ trader (refreshAndProtect s).2 = trader s1)
  /\ (forall (W : Type) (E : External W) d r key (s : Sys W),
        positionPnLTracking (trader (executeDecisionWithRecord d r s).2)
          !! key
        = positionPnLTracking (trader s) !! key
        \/ exists side price,
             sideOfOpen (Action d) = Some side
             /\ key = posKeyOf (Symbol d) side
             /\ positionPnLTracking
                  (trader (executeDecisionWithRecord d r s).2) !! key
                = Some (freshTracking d price))
  /\ (forall (W : Type) (E : External W) ctx h (s : Sys W) pos tr,
        In pos (ctx_Positions ctx) ->
        positionPnLTracking (trader s) !! keyOf pos = Some tr ->
        EnableTrailingStop (config (trader s)) = true ->
        TrailingStopActivated tr = true
        \/ (fmul (TrailingStopActivation (config (trader s))) 100
            <= pi_UnrealizedPnLPct pos)%Q ->
        (TrailingStopDistance (config (trader s))
         <= fdiv (fsub (MaxProfitPct tr) (pi_UnrealizedPnLPct pos)) 100)%Q ->
        In (closeCall (pi_Side pos) (pi_Symbol pos) 0)
          (calls (checkTrailingStopAndPartialTP ctx h s).2))
  /\ (forall (W : Type) (E : External W) pos tr h (s : Sys W),
        positionPnLTracking (trader s) !! keyOf pos = Some tr ->
        trailingDue (config (trader s)) pos tr = false ->
        exists cs,
          calls (checkPosition pos h s).2 = (calls s ++ cs)%list
          /\ Forall (fun c => c = closeCall (pi_Side pos) (pi_Symbol pos)
                                 (pi_Quantity pos * 0.5)) cs)
  /\ map (fun mark => Qred (pnlPctOf "long" 100 mark 1)) [104; 106; 115; 103]%Q
     = [4; 6; 15; 3]%Q
  /\ map (fun n =>
            let s := cycles n (startSys trader0 worldPath) in
            (trailingFlag "BTCUSDT_long" (trader s), orderCalls (calls s)))
       [1; 2; 3; 4]%nat
     = [ (Some false, []); (Some true, []); (Some true, []);
         (None, [CallCloseLong "BTCUSDT" 0]) ].
Proof.
  split.
  { intros W E ctx h s pos tr Hin Hk Hen Hp.
    apply (pass_activates ctx h s pos tr Hin Hk Hen).
    unfold armed. apply orb_true_iff. right. by apply fge_true. }
  split.
  { intros W E pos tr h s Hk.
    by apply (checkPosition_trailing_flag pos tr h s). }
  split.
  { intros W E ctx h s key tr Hk Hf.
    destruct (cs_tracking _ _ (pass_step (ctx_Positions ctx) h s) _ _ Hk)
      as (tr' & Hk' & G).
    exists tr'. split; [exact Hk'|]. by apply (fg_trailing _ _ G). }
  split.
  { intros W E s key tr tr' Hk Hk'.
    pose proof (buildTradingContext_keeps s key tr tr' Hk Hk') as G.
    split; [apply (eg_trailing _ _ G)|apply (eg_maxProfit _ _ G)]. }
  split.
  { intros W E s s1 err Hb. unfold refreshAndProtect, bind. rewrite Hb.
    done. }
  split.
  { intros W E d r key s. apply (dispatch_tracking d r key s). }
  split.
  { intros W E ctx h s pos tr Hin Hk Hen Harm Hd.
    apply (pass_trailing_close ctx h s pos tr Hin Hk).
    unfold trailingDue, armed, drawdownHit. rewrite Hen. cbn [andb].
    apply andb_true_iff. split.
    - apply orb_true_iff. destruct Harm as [Hf|Hp]; [by left|].
      right. by apply fge_true.
    - by apply fge_true. }
  split.
  { intros W E pos tr h s Hk Hd.
    by apply (checkPosition_half_closes pos tr h s). }
  split; vm_compute; reflexivity.
Qed.

(** C6 on an example: armed, best profit 15%, now at 3%. *)
Lemma trailing_stop_one_shot_witness :
  In (closeCall "long" "BTCUSDT" 0)
    (calls (checkTrailingStopAndPartialTP
              (mkContext 1 (mkAccountInfo 1000 1000 0 0 0 0 1)
                 [infoBtc 1 51500] [] 10 5 3)
              false
              (startSys
                 (trackedLong (mkPnLTracking 15 0 0 0 50000 false false true)
                    trader0)
                 (worldHolding 51500))).2).
Proof.
  refine (proj1 (proj2 (proj2 (proj2 (proj2 (proj2 (proj2
                   trailing_stop_one_shot))))))
            Script scriptExternal
            (mkContext 1 (mkAccountInfo 1000 1000 0 0 0 0 1)
               [infoBtc 1 51500] [] 10 5 3)
            false
            (startSys
               (trackedLong (mkPnLTracking 15 0 0 0 50000 false false true)
                  trader0)
               (worldHolding 51500))
            (infoBtc 1 51500)
            (mkPnLTracking 15 0 0 0 50000 false false true)
            (or_introl eq_refl) eq_refl eq_refl (or_introl eq_refl) _).
  vm_compute. intros E. discriminate E.
Defined.

(** C6 as stated fails, in two ways.  The flag can go down while the
    position stays tracked: the long of [worldReopenLong] stands at 6% and
    its flag is raised in the first cycle; in the second cycle the AI
    proposes to open a long on the same symbol and the re-read of the
    positions at dispatch fails, so the open is sent and its bookkeeping
    replaces the tracking entry of the key: the flag is down at the end of
    that cycle.  And the flag is not raised in every cycle in which the
    profit is at least the threshold: when the coin pool fails, the refresh
    has recorded the profit of 6% as the best one, the cycle ends with the
    error of the refresh before the controller pass, and the flag is still
    down. *)
Lemma trailing_flag_lowered_or_not_raised :
  map (fun n =>
         let s := cycles n (startSys trader0 worldReopenLong) in
         (trailingFlag "BTCUSDT_long" (trader s), orderCalls (calls s)))
    [1; 2]%nat
  = [ (Some true, []);
      (Some false, [CallOpenLong "BTCUSDT" (100 / 106) 5]) ]
  /\ (fmul (TrailingStopActivation cfg0) 100
      <= pnlPctOf "long" 100 106 1)%Q
  /\ (let r := @runCycle PoolDown poolDownExternal
                 (startPoolDown trader0 (worldHolding 106)) in
      r.1 = Some (ErrBuildContext (ErrCoinPool "coin pool unavailable"))
      /\ positionPnLTracking (trader r.2) !! "BTCUSDT_long"
         = Some (mkPnLTracking (pnlPctOf "long" 100 106 1)
                   (pnlPctOf "long" 100 106 1) 0 0 0 false false false)).
Proof.
  split; [vm_compute; reflexivity|].
  split; [vm_compute; intros E; discriminate E|].
  split; vm_compute; reflexivity.
Qed.

(** The rounding of [float64] decides at the thresholds.  A long with entry
    40 and leverage 5 marked at 40.4 has a profit of 5% in exact
    arithmetic; the code computes a value just below 5 and does not raise
    the flag at the activation 5%.  And the first target of a long with
    entry 100.02 and target 150.02 is one step above the [float64] nearest
    to 125.02, so that a mark price of 125.02 has not reached it. *)
Example thresholds_in_float64 :
  fge (pnlPctOf "long" 40 (round64 40.4) 5) (fmul (round64 0.05) 100) = false
  /\ (pnlPctOf "long" 40 (round64 40.4) 5 < 5)%Q
  /\ Qred (fmul (round64 0.05) 100) = 5%Q
  /\ priceReached "long" (round64 125.02)
       (target50Of "long" (round64 100.02) (round64 150.02)) = false.
Proof. repeat split; vm_compute; reflexivity. Qed.

(** ** Every tracked key has a first-seen time *)

Lemma keepsWellTracked_firstSeen key t a :
  keepsWellTracked a
    (withFirstSeen (<[key := t]> (positionFirstSeenTime a)) a).
Proof.
  intros Ha k Hk.
  cbn [positionPnLTracking positionFirstSeenTime withTracking withFirstSeen
         withReasonings withInvalidationConditions] in *.
  destruct (decide (key = k)) as [<-|Hne].
  - rewrite lookup_insert_eq. by eexists.
  - rewrite lookup_insert_ne by done. by apply Ha.
Qed.

Lemma keepsWellTracked_alter f key a :
  keepsWellTracked a
    (withTracking (alter f key (positionPnLTracking a)) a).
Proof.
  intros Ha k Hk.
  cbn [positionPnLTracking positionFirstSeenTime withTracking] in *.
  apply Ha.
  destruct (decide (key = k)) as [<-|Hne].
  - rewrite lookup_alter_eq in Hk. destruct Hk as [x Hx].
    apply fmap_Some in Hx as (y & Hy & _). by eexists.
  - by rewrite lookup_alter_ne in Hk.
Qed.

Lemma keepsWellTracked_cleanUp keys symbols a :
  keepsWellTracked a (cleanUp keys symbols a).
Proof.
  intros Ha k [tr Hk]. unfold cleanUp in *. cbn in *.
  apply map_lookup_filter_Some in Hk as [Hk Hkeep]. cbn in Hkeep.
  destruct (Ha k) as [t Ht]; [by eexists|].
  exists t. apply map_lookup_filter_Some. split; [done|]. exact Hkeep.
Qed.

Lemma keepsWellTracked_open d key t price a :
  keepsWellTracked a
    (withTracking
       (<[key := freshTracking d price]> (positionPnLTracking a))
       (withReasonings
          (<[Symbol d := Reasoning d]> (positionReasonings a))
          (withInvalidationConditions
             (<[Symbol d := InvalidationCondition d]>
                (positionInvalidationConditions a))
             (withFirstSeen (<[key := t]> (positionFirstSeenTime a)) a)))).
Proof.
  intros Ha k Hk.
  cbn [positionPnLTracking positionFirstSeenTime withTracking withFirstSeen
         withReasonings withInvalidationConditions] in *.
  destruct (decide (key = k)) as [<-|Hne].
  - rewrite lookup_insert_eq. by eexists.
  - rewrite lookup_insert_ne by done.
    rewrite lookup_insert_ne in Hk by done. by apply Ha.
Qed.

Section WellTracked.

Context {W : Type} `{External W}.

Lemma buildPosition_wellTracked pos acc (s : Sys W) :
  onTrader keepsWellTracked s (buildPosition pos acc s).2.
Proof.
  unfold onTrader, buildPosition, bind, getTrader, ret, modifyTrader, now.
  cbn [trader world calls record].
  set (key := posKeyOf (rp_symbol pos) (rp_side pos)).
  intros Ha.
  destruct (positionFirstSeenTime (trader s) !! key) as [t0|] eqn:Hseen.
  - cbn [trader world calls record snd]. intros k Hk.
    cbn [positionPnLTracking positionFirstSeenTime withTracking] in *.
    destruct (decide (key = k)) as [<-|Hne]; [by eexists|].
    rewrite lookup_insert_ne in Hk by done. by apply Ha.
  - destruct (time_Now (world s)) as [t w'].
    cbn [trader world calls record snd]. intros k Hk.
    cbn [positionPnLTracking positionFirstSeenTime withTracking
           withFirstSeen] in *.
    destruct (decide (key = k)) as [<-|Hne].
    + rewrite lookup_insert_eq. by eexists.
    + rewrite lookup_insert_ne by done.
    rewrite lookup_insert_ne in Hk by done. by apply Ha.
Qed.

Lemma buildTradingContext_wellTracked (s : Sys W) :
  onTrader keepsWellTracked s (buildTradingContext s).2.
Proof.
  pose proof buildPosition_wellTracked. pose proof keepsWellTracked_cleanUp.
  unfold buildTradingContext. trader_step.
Qed.

Lemma checkStopLossKey_wellTracked keys decreased key u (s : Sys W) :
  onTrader keepsWellTracked s (checkStopLossKey keys decreased key u s).2.
Proof.
  unfold checkStopLossKey. trader_step.
Qed.

Lemma checkStopLossTriggered_wellTracked ctx (s : Sys W) :
  onTrader keepsWellTracked s (checkStopLossTriggered ctx s).2.
Proof.
  pose proof checkStopLossKey_wellTracked.
  unfold checkStopLossTriggered. trader_step.
Qed.

Lemma resetCounters_wellTracked (s : Sys W) :
  onTrader keepsWellTracked s (resetCounters s).2.
Proof. unfold resetCounters. trader_step. Qed.

Lemma executeTrailingStop_wellTracked pos (s : Sys W) :
  onTrader keepsWellTracked s (executeTrailingStop pos s).2.
Proof. unfold executeTrailingStop. trader_step. Qed.

Lemma executePartialTakeProfit_wellTracked pos ratio (s : Sys W) :
  onTrader keepsWellTracked s (executePartialTakeProfit pos ratio s).2.
Proof. unfold executePartialTakeProfit. trader_step. Qed.

Lemma checkTrailingStop_wellTracked pos tr h (s : Sys W) :
  onTrader keepsWellTracked s (checkTrailingStop pos tr h s).2.
Proof.
  pose proof executeTrailingStop_wellTracked.
  pose proof keepsWellTracked_alter.
  unfold checkTrailingStop. trader_step.
Qed.

Lemma checkPartialTP_wellTracked pos tr h (s : Sys W) :
  onTrader keepsWellTracked s (checkPartialTP pos tr h s).2.
Proof.
  pose proof executePartialTakeProfit_wellTracked.
  pose proof keepsWellTracked_alter.
  unfold checkPartialTP. trader_step.
Qed.

Lemma checkPosition_wellTracked pos h (s : Sys W) :
  onTrader keepsWellTracked s (checkPosition pos h s).2.
Proof.
  pose proof checkTrailingStop_wellTracked.
  pose proof checkPartialTP_wellTracked.
  unfold checkPosition. trader_step.
Qed.

Lemma checkTrailingStopAndPartialTP_wellTracked ctx h (s : Sys W) :
  onTrader keepsWellTracked s (checkTrailingStopAndPartialTP ctx h s).2.
Proof.
  pose proof checkPosition_wellTracked.
  unfold checkTrailingStopAndPartialTP. trader_step.
Qed.

Lemma recordOpen_wellTracked d key price (s : Sys W) :
  onTrader keepsWellTracked s (recordOpen d key price s).2.
Proof.
  pose proof keepsWellTracked_open.
  unfold recordOpen. trader_step.
Qed.

Lemma executeOpenLongWithRecord_wellTracked d r (s : Sys W) :
  onTrader keepsWellTracked s (executeOpenLongWithRecord d r s).2.
Proof.
  pose proof recordOpen_wellTracked.
  unfold executeOpenLongWithRecord. trader_step.
Qed.

Lemma executeOpenShortWithRecord_wellTracked d r (s : Sys W) :
  onTrader keepsWellTracked s (executeOpenShortWithRecord d r s).2.
Proof.
  pose proof recordOpen_wellTracked.
  unfold executeOpenShortWithRecord. trader_step.
Qed.

Lemma executeDecisionWithRecord_wellTracked d r (s : Sys W) :
  onTrader keepsWellTracked s (executeDecisionWithRecord d r s).2.
Proof.
  pose proof executeOpenLongWithRecord_wellTracked.
  pose proof executeOpenShortWithRecord_wellTracked.
  unfold executeDecisionWithRecord, executeCloseLongWithRecord,
    executeCloseShortWithRecord.
  trader_step.
Qed.

Lemma dispatchOne_wellTracked d u (s : Sys W) :
  onTrader keepsWellTracked s (dispatchOne d u s).2.
Proof.
  pose proof executeDecisionWithRecord_wellTracked.
  unfold dispatchOne. trader_step.
Qed.

Lemma solicitAndDispatch_wellTracked ctx (s : Sys W) :
  onTrader keepsWellTracked s (solicitAndDispatch ctx s).2.
Proof.
  pose proof dispatchOne_wellTracked.
  unfold solicitAndDispatch, GetFullDecision. trader_step.
Qed.

Lemma refreshAndProtect_wellTracked (s : Sys W) :
  onTrader keepsWellTracked s (refreshAndProtect s).2.
Proof.
  pose proof buildTradingContext_wellTracked.
  pose proof checkStopLossTriggered_wellTracked.
  pose proof checkTrailingStopAndPartialTP_wellTracked.
  unfold refreshAndProtect. trader_step.
Qed.

Lemma runCycle_wellTracked (s : Sys W) :
  onTrader keepsWellTracked s (runCycle s).2.
Proof.
  pose proof resetCounters_wellTracked.
  pose proof refreshAndProtect_wellTracked.
  pose proof solicitAndDispatch_wellTracked.
  unfold runCycle. trader_step.
Qed.

End WellTracked.

(** ** The refresh: what the context and the maps hold afterwards *)

Lemma updateExtrema_bounds pnl tr :
  (MaxLossPct (updateExtrema pnl tr) <= pnl)%Q
  /\ (pnl <= MaxProfitPct (updateExtrema pnl tr))%Q.
Proof.
  unfold updateExtrema.
  destruct (fgt pnl (MaxProfitPct tr)) eqn:E1;
    [apply fgt_true in E1|apply fgt_false in E1].
  - destruct (flt pnl (MaxLossPct (withMaxProfitPct pnl tr))) eqn:E2;
      [apply flt_true in E2|apply flt_false in E2]; cbn in *; lra.
  - destruct (flt pnl (MaxLossPct tr)) eqn:E2;
      [apply flt_true in E2|apply flt_false in E2]; cbn in *; lra.
Qed.

Lemma infoBounds_built symbol side entry mark amt leverage upnl pnl liq margin
    updateTime condition reason tr :
  infoBounds
    (mkPositionInfo symbol side entry mark
       (if flt amt 0 then (- amt)%Q else amt) leverage upnl pnl liq margin
       updateTime condition reason
       (MaxProfitPct (updateExtrema pnl tr))
       (MaxLossPct (updateExtrema pnl tr))
       (if fgt (MaxProfitPct (updateExtrema pnl tr)) 0
        then (MaxProfitPct (updateExtrema pnl tr) - pnl)%Q else 0%Q)
       (StopLossPrice (updateExtrema pnl tr))
       (TakeProfitPrice (updateExtrema pnl tr))).
Proof.
  destruct (updateExtrema_bounds pnl tr) as [B1 B2].
  constructor; cbn [pi_MaxLossPct pi_UnrealizedPnLPct pi_MaxProfitPct
                      pi_DrawdownFromPeakPct pi_Quantity]; try done.
  - destruct (fgt _ 0); lra.
  - destruct (flt amt 0) eqn:E;
      [apply flt_true in E|apply flt_false in E]; lra.
Qed.

Lemma keysAdded_refl a : keysAdded ∅ a a.
Proof. constructor; try done; by rewrite union_empty_l_L. Qed.

Lemma keysAdded_trans k1 k2 a b c :
  keysAdded k1 a b -> keysAdded k2 b c -> keysAdded (k1 ∪ k2) a c.
Proof.
  intros [F1 T1 C1 R1] [F2 T2 C2 R2]. constructor; try congruence.
  - rewrite F2, F1. rewrite (union_comm_L k1 k2). apply (assoc_L (∪)).
  - rewrite T2, T1. rewrite (union_comm_L k1 k2). apply (assoc_L (∪)).
Qed.

Section RefreshFacts.

Context {W : Type} `{External W}.

(** One turn of the position loop. *)
Lemma buildPosition_spec pos acc (s : Sys W) :
  exists info,
    acc_positionInfos (buildPosition pos acc s).1
    = (acc_positionInfos acc ++ [info])%list
    /\ acc_currentPositionKeys (buildPosition pos acc s).1
       = {[rawKey pos]} ∪ acc_currentPositionKeys acc
    /\ pi_Symbol info = rp_symbol pos
    /\ pi_Side info = rp_side pos
    /\ infoBounds info
    /\ keysAdded {[rawKey pos]} (trader s)
         (trader (buildPosition pos acc s).2).
Proof.
  unfold buildPosition, bind, getTrader, ret, modifyTrader, now, rawKey.
  cbn [trader world calls record].
  set (key := posKeyOf (rp_symbol pos) (rp_side pos)).
  set (pnl := pnlPctOf _ _ _ _).
  destruct (positionFirstSeenTime (trader s) !! key) as [t0|] eqn:Hseen.
  - cbn [trader world calls record fst snd acc_positionInfos
           acc_currentPositionKeys].
    eexists. split; [reflexivity|]. split; [done|]. split; [done|].
    split; [done|]. split.
    + apply infoBounds_built.
    + constructor; cbn [positionFirstSeenTime positionPnLTracking
                          positionInvalidationConditions positionReasonings
                          withTracking]; try done.
      * apply elem_of_dom_2 in Hseen.
        symmetry. apply subseteq_union_1_L. by apply singleton_subseteq_l.
      * by rewrite dom_insert_L.
  - destruct (time_Now (world s)) as [t w'].
    cbn [trader world calls record fst snd acc_positionInfos
           acc_currentPositionKeys].
    eexists. split; [reflexivity|]. split; [done|]. split; [done|].
    split; [done|]. split.
    + apply infoBounds_built.
    + constructor; cbn [positionFirstSeenTime positionPnLTracking
                          positionInvalidationConditions positionReasonings
                          withTracking withFirstSeen]; try done.
      * by rewrite dom_insert_L.
      * by rewrite dom_insert_L.
Qed.

(** The whole position loop. *)
Lemma buildPositions_spec positions : forall acc (s : Sys W),
  exists infos,
    acc_positionInfos (forEach positions buildPosition acc s).1
    = (acc_positionInfos acc ++ infos)%list
    /\ acc_currentPositionKeys (forEach positions buildPosition acc s).1
       = list_to_set (map rawKey positions) ∪ acc_currentPositionKeys acc
    /\ map pi_Symbol infos = map rp_symbol positions
    /\ map pi_Side infos = map rp_side positions
    /\ Forall infoBounds infos
    /\ keysAdded (list_to_set (map rawKey positions)) (trader s)
         (trader (forEach positions buildPosition acc s).2).
Proof.
  induction positions as [|pos rest IH]; intros acc s.
  - exists []. cbn [forEach ret fst snd map list_to_set].
    rewrite app_nil_r, union_empty_l_L.
    do 5 (split; [done|]). apply keysAdded_refl.
  - cbn [forEach]. unfold bind.
    destruct (buildPosition_spec pos acc s)
      as (info & Hi & Hk & Hsym & Hside & Hb & Hadd).
    destruct (buildPosition pos acc s) as [acc1 s1]. cbn [fst snd] in *.
    destruct (IH acc1 s1) as (infos & Hi2 & Hk2 & Hsym2 & Hside2 & Hb2 & Hadd2).
    exists (info :: infos). rewrite Hi2, Hk2, Hi, Hk.
    cbn [map list_to_set]. rewrite Hsym, Hside, Hsym2, Hside2.
    rewrite <- app_assoc. cbn [app].
    split; [done|]. split.
    { rewrite (assoc_L (∪)). f_equal. apply union_comm_L. }
    split; [done|]. split; [done|]. split; [by constructor|].
    eapply keysAdded_trans; [exact Hadd|exact Hadd2].
Qed.

(** The successful run of [buildTradingContext], step by step. *)
Lemma buildTradingContext_inv (s s' : Sys W) ctx :
  buildTradingContext s = (inr ctx, s') ->
  exists balance w1 positions w2 acc s1 candidateCoins w3,
    trader_GetBalance (world s) = (Ok balance, w1)
    /\ trader_GetPositions w1 = (Ok positions, w2)
    /\ forEach positions buildPosition (mkBuildAcc [] 0%Q ∅)
         (mkSys (trader s) w2
            (calls s ++ [CallGetBalance] ++ [CallGetPositions])%list
            (record s))
       = (acc, s1)
    /\ pool_GetMergedCoinPool 20 (world s1) = (Ok candidateCoins, w3)
    /\ s' = mkSys
              (cleanUp (acc_currentPositionKeys acc)
                 (list_to_set (map rp_symbol positions)) (trader s1))
              w3 (calls s1 ++ [CallCoinPool 20])%list (record s1)
    /\ ctx_Positions ctx = acc_positionInfos acc
    /\ TotalEquity (ctx_Account ctx)
       = (default 0%Q (rb_totalWalletBalance balance)
          + default 0%Q (rb_totalUnrealizedProfit balance))%Q
    /\ PositionCount (ctx_Account ctx)
       = Z.of_nat (length (acc_positionInfos acc)).
Proof.
  unfold buildTradingContext, bind, GetBalance, GetPositions,
    GetMergedCoinPool, external, ret, modifyTrader, getTrader.
  destruct (trader_GetBalance (world s)) as [[b|msg] w1] eqn:Hbal;
    cbn [trader world calls record]; [|discriminate].
  destruct (trader_GetPositions w1) as [[ps|msg] w2] eqn:Hpos;
    cbn [trader world calls record]; [|discriminate].
  rewrite <- app_assoc.
  destruct (forEach ps buildPosition _ _) as [acc s1] eqn:Hloop.
  cbn [trader world calls record].
  destruct (pool_GetMergedCoinPool 20 (world s1)) as [[cc|msg] w3] eqn:Hpool;
    cbn [trader world calls record]; [|discriminate].
  intros [= <- <-].
  exists b, w1, ps, w2, acc, s1, cc, w3. repeat split; done.
Qed.

End RefreshFacts.

Lemma map_keys_eq (infos : list PositionInfo) : forall positions,
  map pi_Symbol infos = map rp_symbol positions ->
  map pi_Side infos = map rp_side positions ->
  map keyOf infos = map rawKey positions.
Proof.
  induction infos as [|i infos IH]; intros [|p ps]; cbn; try done.
  intros [= E1 E2] [= E3 E4]. unfold keyOf at 1, rawKey at 1.
  rewrite E1, E3. f_equal. by apply IH.
Qed.

Lemma dom_cleanUp_firstSeen keys symbols a :
  keys ⊆ dom (positionFirstSeenTime a) ->
  dom (positionFirstSeenTime (cleanUp keys symbols a)) = keys.
Proof.
  intros Hsub. unfold cleanUp.
  cbn [positionFirstSeenTime withReasonings withInvalidationConditions
         withTracking withFirstSeen].
  apply set_eq. intros k. rewrite elem_of_dom. split.
  - intros [t Ht]. apply map_lookup_filter_Some in Ht as [Ht Hkeep].
    cbn in Hkeep. destruct (decide (k ∈ keys)) as [|Hn]; [done|].
    exfalso. apply Hkeep. split; [|done]. by apply elem_of_dom_2 in Ht.
  - intros Hk. pose proof (Hsub k Hk) as Hd.
    apply elem_of_dom in Hd as [t Ht]. exists t.
    apply map_lookup_filter_Some. split; [done|]. cbn. intros [_ Hn]. done.
Qed.

Lemma dom_cleanUp_tracking keys symbols a :
  keys ⊆ dom (positionPnLTracking a) ->
  keys ⊆ dom (positionPnLTracking (cleanUp keys symbols a)).
Proof.
  intros Hsub k Hk. unfold cleanUp.
  cbn [positionPnLTracking withReasonings withInvalidationConditions
         withTracking].
  pose proof (Hsub k Hk) as Hd. apply elem_of_dom in Hd as [t Ht].
  apply elem_of_dom. exists t.
  apply map_lookup_filter_Some. split; [done|]. cbn. intros [_ Hn]. done.
Qed.

Lemma dom_cleanUp_symbols keys symbols a :
  dom (positionInvalidationConditions (cleanUp keys symbols a)) ⊆ symbols
  /\ dom (positionReasonings (cleanUp keys symbols a)) ⊆ symbols.
Proof.
  unfold cleanUp.
  cbn [positionInvalidationConditions positionReasonings withReasonings
         withInvalidationConditions].
  split; intros k Hk; apply elem_of_dom in Hk as [v Hv];
    apply map_lookup_filter_Some in Hv as [_ Hin]; exact Hin.
Qed.

Section RefreshTheorems.

Context {W : Type} `{External W}.

(** The maps after a successful refresh. *)
Lemma refresh_maps (s s' : Sys W) ctx :
  buildTradingContext s = (inr ctx, s') ->
  dom (positionFirstSeenTime (trader s')) = liveKeys ctx
  /\ liveKeys ctx ⊆ dom (positionPnLTracking (trader s'))
  /\ dom (positionInvalidationConditions (trader s')) ⊆ liveSymbols ctx
  /\ dom (positionReasonings (trader s')) ⊆ liveSymbols ctx.
Proof.
  intros Hb.
  destruct (buildTradingContext_inv _ _ _ Hb)
    as (b & w1 & ps & w2 & acc & s1 & cc & w3
        & Hbal & Hpos & Hloop & Hpool & -> & Hctx & _ & _).
  destruct (buildPositions_spec ps (mkBuildAcc [] 0%Q ∅)
              (mkSys (trader s) w2
                 (calls s ++ [CallGetBalance] ++ [CallGetPositions])%list
                 (record s)))
    as (infos & Hi & Hk & Hsym & Hside & _ & [F T _ _]).
  rewrite Hloop in Hi, Hk, F, T. cbn [fst snd trader] in *.
  cbn [acc_positionInfos acc_currentPositionKeys app] in Hi, Hk.
  rewrite union_empty_r_L in Hk.
  assert (Hlive : liveKeys ctx = acc_currentPositionKeys acc).
  { unfold liveKeys. rewrite Hctx, Hi, Hk.
    fold keyOf. by rewrite (map_keys_eq infos ps). }
  assert (Hsyms : liveSymbols ctx = list_to_set (map rp_symbol ps)).
  { unfold liveSymbols. by rewrite Hctx, Hi, Hsym. }
  rewrite Hlive, Hsyms.
  split; [|split].
  - apply dom_cleanUp_firstSeen. rewrite F, Hk. apply union_subseteq_l.
  - apply dom_cleanUp_tracking. rewrite T, Hk. apply union_subseteq_l.
  - apply dom_cleanUp_symbols.
Qed.


(** X6.  After a successful [buildTradingContext] the first-seen map has
    exactly the keys of the positions in the context, each of them is
    tracked, and the invalidation conditions and reasonings that remain
    belong to symbols that are still held: what was recorded for a closed
    position is dropped. *)
Theorem buildTradingContext_forgets_closed_positions (s s' : Sys W) ctx :
  buildTradingContext s = (inr ctx, s') ->
  dom (positionFirstSeenTime (trader s')) = liveKeys ctx
  /\ liveKeys ctx ⊆ dom (positionPnLTracking (trader s'))
  /\ dom (positionInvalidationConditions (trader s')) ⊆ liveSymbols ctx
  /\ dom (positionReasonings (trader s')) ⊆ liveSymbols ctx.
Proof. apply refresh_maps. Qed.

End RefreshTheorems.

(** ** The circuit breaker inside a cycle *)

#[export] Instance noBackoffStarted_refl : Reflexive noBackoffStarted.
Proof. intros a Ha. auto. Qed.

#[export] Instance noBackoffStarted_trans : Transitive noBackoffStarted.
Proof.
  intros a b c Hab Hbc Ha.
  destruct (Hab Ha) as (Hb & E1 & E2 & E3).
  destruct (Hbc Hb) as (Hc & F1 & F2 & F3).
  split; [done|]. split; [congruence|]. split; [congruence|].
  destruct F3 as [F3|F3]; [|by right].
  destruct E3 as [E3|E3]; [left|right]; congruence.
Qed.

Lemma noBackoffStarted_maps a a' :
  mapsOnly a a' -> keepsWellTracked a a' -> noBackoffStarted a a'.
Proof.
  intros [] Hk Ha. split; [by apply Hk|]. split; [done|]. split; [done|].
  by left.
Qed.

Lemma wellTracked_empty a :
  positionPnLTracking a = ∅ -> wellTracked a.
Proof. intros E key [tr Hk]. rewrite E in Hk. done. Qed.

Lemma wellTracked_trackedLong tr a : wellTracked (trackedLong tr a).
Proof.
  intros key [x Hk]. unfold trackedLong in *.
  cbn [positionPnLTracking positionFirstSeenTime withTracking withFirstSeen]
    in *.
  apply lookup_singleton_Some in Hk as [<- _].
  rewrite lookup_singleton_eq. by eexists.
Qed.

Section BreakerInCycle.

Context {W : Type} `{External W}.

(** The loop of [checkStopLossTriggered] over keys that are all live. *)
Lemma checkStopLossKeys_live keys decreased keyList (s : Sys W) :
  Forall (fun key => key ∈ keys) keyList ->
  forEach keyList (checkStopLossKey keys decreased) tt s = (tt, s).
Proof.
  induction 1 as [|key rest Hin _ IH]; [done|].
  cbn [forEach]. unfold bind, checkStopLossKey at 1.
  destruct (decide (key ∈ keys)); [|done]. cbn. exact IH.
Qed.

Lemma checkStopLossTriggered_live ctx (s : Sys W) :
  dom (positionPnLTracking (trader s)) ⊆ liveKeys ctx ->
  checkStopLossTriggered ctx s
  = (tt,
     mkSys
       (if EnableExponentialBackoff (config (trader s))
        then withLastTotalEquity (TotalEquity (ctx_Account ctx)) (trader s)
        else trader s)
       (world s) (calls s) (record s)).
Proof.
  intros Hlive. unfold checkStopLossTriggered, bind, getTrader, ret.
  destruct (EnableExponentialBackoff (config (trader s))); cbn [negb].
  2:{ by destruct s. }
  fold (liveKeys ctx). rewrite checkStopLossKeys_live; [done|].
  apply Forall_forall. intros key Hkey.
  apply list_elem_of_fmap in Hkey as ([k tr] & -> & Hin).
  apply elem_of_map_to_list in Hin. apply Hlive.
  by apply elem_of_dom_2 in Hin.
Qed.

Lemma refresh_tracked_live (s s' : Sys W) ctx :
  buildTradingContext s = (inr ctx, s') ->
  wellTracked (trader s') ->
  dom (positionPnLTracking (trader s')) ⊆ liveKeys ctx.
Proof.
  intros Hb Hwt key Hk. destruct (refresh_maps _ _ _ Hb) as (<- & _).
  apply elem_of_dom. apply Hwt. by apply elem_of_dom.
Qed.

(** X7.  In a trader in which every tracked key has a first-seen time,
    the circuit breaker that runs right after a successful
    [buildTradingContext] finds nothing: the refresh has already deleted
    the tracking of every position that is gone, so
    [checkStopLossTriggered] asks for no price, counts no loss and starts
    no backoff; all it does is record the equity of the context (when the
    backoff is enabled). *)
Theorem breaker_finds_nothing_after_refresh (s s1 : Sys W) ctx :
  wellTracked (trader s) ->
  buildTradingContext s = (inr ctx, s1) ->
  checkStopLossTriggered ctx s1
  = (tt,
     mkSys
       (if EnableExponentialBackoff (config (trader s1))
        then withLastTotalEquity (TotalEquity (ctx_Account ctx)) (trader s1)
        else trader s1)
       (world s1) (calls s1) (record s1)).
Proof.
  intros Hwt Hb. apply checkStopLossTriggered_live.
  apply (refresh_tracked_live s); [done|].
  pose proof (buildTradingContext_wellTracked s) as Hk.
  unfold onTrader in Hk. rewrite Hb in Hk. by apply Hk.
Qed.

Lemma resetCounters_quiet (s : Sys W) :
  onTrader noBackoffStarted s (resetCounters s).2.
Proof.
  assert (H0 : forall a, noBackoffStarted a (withStopLossCount 0 a)).
  { intros a Ha. split; [exact Ha|]. split; [done|]. split; [done|].
    by right. }
  assert (H1 : forall t a, noBackoffStarted a (withDailyReset t a)).
  { intros t a Ha. split; [exact Ha|]. split; [done|]. split; [done|].
    by left. }
  unfold resetCounters. trader_step.
Qed.

Lemma buildTradingContext_quiet (s : Sys W) :
  onTrader noBackoffStarted s (buildTradingContext s).2.
Proof.
  apply noBackoffStarted_maps;
    [apply buildTradingContext_mapsOnly|apply buildTradingContext_wellTracked].
Qed.

Lemma controller_quiet ctx h (s : Sys W) :
  onTrader noBackoffStarted s (checkTrailingStopAndPartialTP ctx h s).2.
Proof.
  apply noBackoffStarted_maps;
    [apply checkTrailingStopAndPartialTP_mapsOnly
    |apply checkTrailingStopAndPartialTP_wellTracked].
Qed.

Lemma solicitAndDispatch_quiet ctx (s : Sys W) :
  onTrader noBackoffStarted s (solicitAndDispatch ctx s).2.
Proof.
  apply noBackoffStarted_maps;
    [apply solicitAndDispatch_mapsOnly|apply solicitAndDispatch_wellTracked].
Qed.

Lemma breaker_quiet_after_refresh (s s1 : Sys W) ctx :
  buildTradingContext s = (inr ctx, s1) ->
  onTrader noBackoffStarted s1 (checkStopLossTriggered ctx s1).2.
Proof.
  intros Hb Hwt.
  rewrite checkStopLossTriggered_live by by apply (refresh_tracked_live s).
  cbn [snd trader].
  destruct (EnableExponentialBackoff _);
    (split; [exact Hwt|]; split; [done|]; split; [done|]; by left).
Qed.

Lemma refreshAndProtect_quiet (s : Sys W) :
  onTrader noBackoffStarted s (refreshAndProtect s).2.
Proof.
  pose proof buildTradingContext_quiet.
  pose proof controller_quiet.
  pose proof breaker_quiet_after_refresh.
  unfold refreshAndProtect. trader_step.
Qed.

Lemma runCycle_quiet (s : Sys W) :
  onTrader noBackoffStarted s (runCycle s).2.
Proof.
  pose proof resetCounters_quiet.
  pose proof refreshAndProtect_quiet.
  pose proof solicitAndDispatch_quiet.
  assert (H3 : forall n a, noBackoffStarted a (withCallCount n a)).
  { intros n a Ha. split; [exact Ha|]. split; [done|]. split; [done|].
    by left. }
  unfold runCycle. trader_step.
Qed.

Lemma cycles_quiet n (s : Sys W) :
  onTrader noBackoffStarted s (cycles n s).
Proof.
  induction n as [|n IH]; [reflexivity|].
  unfold cycles in *. cbn [Nat.iter].
  etransitivity; [exact IH|apply runCycle_quiet].
Qed.

(** X8.  Through any number of cycles of [runCycle], a trader in which
    every tracked key has a first-seen time (the trader that
    [NewAutoTrader] builds is one, and every cycle keeps it so) never starts
    a backoff: [backoffUntil] and [lastStopLossTime] keep their values and
    the stop-loss counter is never raised (it keeps its value or is reset
    to 0). *)
Theorem runCycle_never_starts_backoff n (s : Sys W) :
  wellTracked (trader s) ->
  wellTracked (trader (cycles n s))
  /\ backoffUntil (trader (cycles n s)) = backoffUntil (trader s)
  /\ lastStopLossTime (trader (cycles n s)) = lastStopLossTime (trader s)
  /\ (stopLossCount (trader (cycles n s)) = stopLossCount (trader s)
      \/ stopLossCount (trader (cycles n s)) = 0).
Proof. apply (cycles_quiet n s). Qed.

End BreakerInCycle.

(** C7.  A position that vanished while the equity did not decrease is
    never counted as a loss.  [checkStopLossTriggered] leaves the stop-loss
    counter, the time of the last counted loss and the end of the backoff
    as they were whenever the equity of the context is not below the
    recorded one, whatever the tracked keys and the live snapshot are.  And
    over a whole cycle of [runCycle], from a trader in which every tracked
    key has a first-seen time (the trader that [NewAutoTrader] builds is
    one, and the cycle keeps it so) and the counter is not negative (it
    starts at 0), the counter is not raised and no backoff is started,
    whether a tracked key is absent from the live snapshot or not and
    whatever the equity is: the refresh of the cycle forgets the vanished
    keys before the breaker looks for them.  So no cycle increments the
    counter without the equity decrease and the price-side condition: no
    cycle increments it. *)
Theorem vanished_position_not_counted_without_equity_loss :
  forall (W : Type) (E : External W),
    (forall ctx (s : Sys W),
        (lastTotalEquity (trader s) <= TotalEquity (ctx_Account ctx))%Q ->
        breakerState (trader (checkStopLossTriggered ctx s).2)
        = breakerState (trader s))
    /\ (forall s : Sys W,
          wellTracked (trader s) ->
          0 <= stopLossCount (trader s) ->
          wellTracked (trader (runCycle s).2)
          /\ 0 <= stopLossCount (trader (runCycle s).2)
               <= stopLossCount (trader s)
          /\ backoffUntil (trader (runCycle s).2) = backoffUntil (trader s)
          /\ lastStopLossTime (trader (runCycle s).2)
             = lastStopLossTime (trader s)).
Proof.
  intros W E. split.
  - intros ctx s Hle.
    destruct (checkStopLossTriggered_spec ctx s) as [_ [Hs|(_ & Hd & _)]];
      [exact Hs|].
    unfold equityDecreasedOf in Hd. apply andb_true_iff in Hd as [_ Hd].
    apply flt_true in Hd. lra.
  - intros s Hwt Hc.
    destruct (runCycle_quiet s Hwt) as (Hwt' & Hb & Ht & Hn).
    split; [exact Hwt'|]. split; [|by split].
    destruct Hn as [-> | ->]; lia.
Qed.

(** ** One cycle: its calls and what it leaves alone *)

Lemma bind_post {W A B} (m : M W A) (k : A -> M W B) (s : Sys W)
    (Q : B * Sys W -> Prop) :
  (forall a s1, m s = (a, s1) -> Q (k a s1)) -> Q (bind m k s).
Proof. intros HQ. unfold bind. destruct (m s) as [a s1]. by apply HQ. Qed.

(** The outermost [bind] of the goal is run: its first part has produced
    [a] and the state [s1]. *)
Ltac peel a s1 E :=
  lazymatch goal with
  | |- context [bind ?m ?k ?s] =>
      pattern (bind m k s); apply bind_post; intros a s1 E; cbv beta
  end.

#[export] Instance sameSettings_refl : Reflexive sameSettings.
Proof. intros a. by constructor. Qed.

#[export] Instance sameSettings_trans : Transitive sameSettings.
Proof. intros a b c [] []. constructor; congruence. Qed.

Lemma sameSettings_maps a a' : mapsOnly a a' -> sameSettings a a'.
Proof. intros []. by constructor. Qed.

Section CycleCalls.

Context {W : Type} `{External W}.

Lemma endsWithLog_intro (s0 s : Sys W) :
  callsOnly (fun c => isLogCall c = false) s0 s ->
  endsWithLog s0 (LogDecision s).2.
Proof.
  intros (cs & E & F). exists cs. cbn [LogDecision snd calls record].
  split; [|done]. by rewrite E, app_assoc.
Qed.

Lemma refreshAndProtect_calls (P : Call -> Prop) (s : Sys W) :
  (forall c, isReadCall c = true -> P c) ->
  (forall c, isCloseCall c = true -> P c) ->
  (forall c, isLogCall c = true -> P c) ->
  callsOnly P s (refreshAndProtect s).2.
Proof.
  intros H1 H2 H3.
  pose proof (fun s => buildTradingContext_calls P s H1).
  pose proof (fun ctx s => checkStopLossTriggered_calls P ctx s H1).
  assert (forall ctx h s,
             callsOnly P s (checkTrailingStopAndPartialTP ctx h s).2).
  { intros ctx h s0. apply checkTrailingStopAndPartialTP_calls.
    intros pos c _ Hc. apply H2. unfold controllerClose, closeCall in Hc.
    by destruct (String.eqb (pi_Side pos) "long"), Hc as [-> | ->]. }
  unfold refreshAndProtect. calls_step.
Qed.

(** X9.  The profit and loss controller never opens a position and never
    reads or asks anything: every call it makes is a close of a position of
    the context it was given, for the whole position (quantity 0, the
    trailing stop) or for half of the quantity the context reports (a
    partial take-profit). *)
Theorem controller_only_closes_context_positions ctx h (s : Sys W) :
  callsOnly
    (fun c => exists pos, In pos (ctx_Positions ctx) /\ controllerClose pos c)
    s (checkTrailingStopAndPartialTP ctx h s).2.
Proof.
  apply checkTrailingStopAndPartialTP_calls. intros pos c Hin Hc.
  by exists pos.
Qed.

Lemma dispatch_calls (P : Call -> Prop) ds (s : Sys W) :
  (forall c, isDispatchCall c = true -> P c) ->
  callsOnly P s (forEach ds dispatchOne tt s).2.
Proof.
  intros HP. apply (step_forEach (callsOnly P)). intros d u s0.
  by apply dispatchOne_calls.
Qed.

Lemma solicitAndDispatch_logs ctx (s0 s : Sys W) :
  callsOnly (fun c => isLogCall c = false) s0 s ->
  endsWithLog s0 (solicitAndDispatch ctx s).2.
Proof.
  intros H0. unfold solicitAndDispatch.
  peel r s1 E.
  pose proof (GetFullDecision_calls (fun c => isLogCall c = false) ctx s
                eq_refl) as H1.
  rewrite E in H1. cbn [snd] in H1.
  destruct r as [err|ds].
  - peel u s2 E2. peel u' s3 E3. cbn [ret snd].
    replace s3 with (LogDecision s2).2 by by rewrite E3.
    apply endsWithLog_intro.
    unfold failRecord, modifyRecord in E2. injection E2 as _ <-.
    etransitivity; [exact H0|]. etransitivity; [exact H1|].
    by apply callsOnly_same.
  - cbv zeta. peel u s2 E2. peel u' s3 E3. cbn [ret snd].
    replace s3 with (LogDecision s2).2 by by rewrite E3.
    apply endsWithLog_intro.
    etransitivity; [exact H0|]. etransitivity; [exact H1|].
    pose proof (dispatch_calls (fun c => isLogCall c = false)
                  (sortDecisionsByPriority ds) s1) as H2.
    rewrite E2 in H2. apply H2. intros c Hc. by destruct c.
Qed.

Lemma refreshAndProtect_logs (s0 s : Sys W) :
  callsOnly (fun c => isLogCall c = false) s0 s ->
  match (refreshAndProtect s).1 with
  | inl _ => endsWithLog s0 (refreshAndProtect s).2
  | inr _ => callsOnly (fun c => isLogCall c = false) s0 (refreshAndProtect s).2
  end.
Proof.
  intros H0. unfold refreshAndProtect.
  peel c s1 E.
  assert (H1 : callsOnly (fun c => isLogCall c = false) s0 s1).
  { etransitivity; [exact H0|].
    pose proof (buildTradingContext_calls (fun c => isLogCall c = false) s)
      as H1.
    rewrite E in H1. apply H1. intros c0 Hc. by destruct c0. }
  destruct c as [err|ctx].
  - peel u s2 E2. peel u' s3 E3. cbn [ret fst snd].
    replace s3 with (LogDecision s2).2 by by rewrite E3.
    apply endsWithLog_intro.
    unfold failRecord, modifyRecord in E2. injection E2 as _ <-.
    etransitivity; [exact H1|]. by apply callsOnly_same.
  - peel u s2 E2. peel h s3 E3.
    assert (H3 : callsOnly (fun c => isLogCall c = false) s0 s3).
    { etransitivity; [exact H1|]. etransitivity.
      - pose proof (checkStopLossTriggered_calls
                      (fun c => isLogCall c = false) ctx s1) as H2.
        rewrite E2 in H2. apply H2. intros c0 Hc. by destruct c0.
      - pose proof (checkTrailingStopAndPartialTP_calls
                      (fun c => isLogCall c = false) ctx false s2) as H2.
        rewrite E3 in H2. apply H2. intros pos c0 _ Hc.
        unfold controllerClose, closeCall in Hc.
        by destruct (String.eqb (pi_Side pos) "long"), Hc as [-> | ->]. }
    destruct h; [|exact H3].
    peel c2 s4 E4.
    assert (H4 : callsOnly (fun c => isLogCall c = false) s0 s4).
    { etransitivity; [exact H3|].
      pose proof (buildTradingContext_calls (fun c => isLogCall c = false) s3)
        as H2.
      rewrite E4 in H2. apply H2. intros c0 Hc. by destruct c0. }
    destruct c2 as [err|ctx2]; [|exact H4].
    peel u5 s5 E5. peel u6 s6 E6. cbn [ret fst snd].
    replace s6 with (LogDecision s5).2 by by rewrite E6.
    apply endsWithLog_intro.
    unfold failRecord, modifyRecord in E5. injection E5 as _ <-.
    etransitivity; [exact H4|]. by apply callsOnly_same.
Qed.

(** X10.  Every cycle saves its record exactly once, and last: the calls of
    a cycle are calls that are not saves, followed by one [LogDecision]
    whose argument is the record the cycle ends with.  This holds for every
    outcome: a pause, a failed refresh, a failed or rejected AI answer, and
    a dispatched batch. *)
Theorem runCycle_saves_record_once (s : Sys W) :
  exists cs,
    calls (runCycle s).2
    = (calls s ++ cs ++ [CallLogDecision (record (runCycle s).2)])%list
    /\ Forall (fun c => isLogCall c = false) cs.
Proof.
  change (endsWithLog s (runCycle s).2). unfold runCycle.
  assert (Hnow : forall s1 t s2, now s1 = (t, s2) -> calls s2 = calls s1).
  { intros s1 t s2. unfold now. destruct (time_Now (world s1)).
    by intros [= _ <-]. }
  peel u s1 E1. unfold modifyTrader in E1. injection E1 as _ <-.
  peel u2 s2 E2. unfold modifyRecord in E2. injection E2 as _ <-.
  cbn [trader world calls record].
  peel a s3 E3. unfold getTrader in E3. injection E3 as <- <-.
  peel paused s4 E4.
  assert (H4 : callsOnly (fun c => isLogCall c = false) s s4).
  { apply callsOnly_same.
    destruct (EnableExponentialBackoff _).
    - revert E4. peel t s5 E5. unfold ret. intros [= _ <-].
      by rewrite (Hnow _ _ _ E5).
    - unfold ret in E4. by injection E4 as _ <-. }
  assert (Hpause : forall e (s5 : Sys W),
             callsOnly (fun c => isLogCall c = false) s s5 ->
             endsWithLog s
               ((let* _ := failRecord e in
                 let* _ := LogDecision in ret (None : option Error)) s5).2).
  { intros e s5 H5. peel u5 s6 E6. peel u6 s7 E7. cbn [ret snd].
    replace s7 with (LogDecision s6).2 by by rewrite E7.
    apply endsWithLog_intro.
    unfold failRecord, modifyRecord in E6. injection E6 as _ <-.
    etransitivity; [exact H5|]. by apply callsOnly_same. }
  destruct paused.
  - peel t s5 E5. apply Hpause.
    etransitivity; [exact H4|]. apply callsOnly_same. by eapply Hnow.
  - peel t s5 E5.
    assert (H5 : callsOnly (fun c => isLogCall c = false) s s5).
    { etransitivity; [exact H4|]. apply callsOnly_same. by eapply Hnow. }
    destruct (t <? _)%Z.
    + peel t' s6 E6. apply Hpause.
      etransitivity; [exact H5|]. apply callsOnly_same. by eapply Hnow.
    + peel u6 s6 E6.
      assert (H6 : callsOnly (fun c => isLogCall c = false) s s6).
      { etransitivity; [exact H5|].
        pose proof (resetCounters_calls (fun c => isLogCall c = false) s5)
          as H6.
        by rewrite E6 in H6. }
      peel c s7 E7.
      pose proof (refreshAndProtect_logs s s6 H6) as H7.
      rewrite E7 in H7. cbn [fst snd] in H7.
      destruct c as [err|ctx]; [exact H7|].
      by apply solicitAndDispatch_logs.
Qed.

End CycleCalls.

Section CycleFrame.

Context {W : Type} `{External W}.

Lemma solicitAndDispatch_error ctx (s : Sys W) e :
  (solicitAndDispatch ctx s).1 = Some e ->
  isCycleError e = true
  /\ callsOnly (fun c => isOpenCall c = false) s (solicitAndDispatch ctx s).2.
Proof.
  unfold solicitAndDispatch. peel r s1 E.
  pose proof (GetFullDecision_calls (fun c => isOpenCall c = false) ctx s
                eq_refl) as H1.
  rewrite E in H1. cbn [snd] in H1.
  destruct r as [err|ds].
  - peel u s2 E2. peel u' s3 E3. cbn [ret fst snd].
    intros [= <-]. split; [done|].
    etransitivity; [exact H1|].
    unfold failRecord, modifyRecord in E2. injection E2 as _ <-.
    unfold LogDecision in E3. injection E3 as _ <-.
    eexists [_]. split; [reflexivity|]. by constructor.
  - cbv zeta. peel u s2 E2. peel u' s3 E3. cbn [ret fst]. discriminate.
Qed.

Lemma refreshAndProtect_error (s : Sys W) err :
  (refreshAndProtect s).1 = inl err -> isCycleError err = true.
Proof.
  unfold refreshAndProtect. peel c s1 E. destruct c as [e|ctx].
  - peel u s2 E2. peel u' s3 E3. cbn [ret fst]. by intros [= <-].
  - peel u s2 E2. peel h s3 E3. destruct h; [|discriminate].
    peel c2 s4 E4. destruct c2 as [e|ctx2]; [|discriminate].
    peel u5 s5 E5. peel u6 s6 E6. cbn [ret fst]. by intros [= <-].
Qed.

(** X11.  [runCycle] returns an error in three cases only: the refresh
    failed, the refresh after a controller close failed, or no usable batch
    came back from the AI step.  In each of them no position was opened and
    no protective order was placed in that cycle; a pause and a dispatch in
    which orders failed both return [nil]. *)
Theorem runCycle_error_opens_nothing (s : Sys W) e :
  (runCycle s).1 = Some e ->
  isCycleError e = true
  /\ callsOnly (fun c => isOpenCall c = false /\ isProtectCall c = false)
       s (runCycle s).2.
Proof.
  assert (Hsplit : forall s',
             callsOnly (fun c => isOpenCall c = false) s s' ->
             callsOnly (fun c => isProtectCall c = false) s s' ->
             callsOnly (fun c => isOpenCall c = false
                                 /\ isProtectCall c = false) s s').
  { intros s' (c1 & E1 & F1) (c2 & E2 & F2). exists c1. split; [done|].
    rewrite E1 in E2. apply app_inv_head in E2 as <-.
    rewrite Forall_forall in *. auto. }
  intros He. split.
  - revert He. unfold runCycle.
    peel u s1 E1. peel u2 s2 E2. peel a s3 E3. peel paused s4 E4.
    destruct paused.
    { peel t s5 E5. peel u5 s6 E6. peel u6 s7 E7. discriminate. }
    peel t s5 E5. destruct (t <? _)%Z.
    { peel t' s6 E6. peel u6 s7 E7. peel u7 s8 E8. discriminate. }
    peel u6 s6 E6. peel c s7 E7. destruct c as [err|ctx].
    + cbn [ret fst]. intros [= <-].
      apply (refreshAndProtect_error s6). by rewrite E7.
    + intros He. by apply solicitAndDispatch_error in He as [? _].
  - cut (forall P : Call -> Prop,
            (forall c, isReadCall c = true -> P c) ->
            (forall c, isCloseCall c = true -> P c) ->
            (forall c, isLogCall c = true -> P c) ->
            (forall c, isAICall c = true -> P c) ->
            callsOnly P s (runCycle s).2).
    { intros Hcut. apply Hsplit; apply Hcut; intros c Hc; by destruct c. }
    intros P H1 H2 H3 H4. revert He. unfold runCycle.
    peel u s1 E1. unfold modifyTrader in E1. injection E1 as _ <-.
    peel u2 s2 E2. unfold modifyRecord in E2. injection E2 as _ <-.
    peel a s3 E3. unfold getTrader in E3. injection E3 as <- <-.
    peel paused s4 E4. destruct paused.
    { peel t s5 E5. peel u5 s6 E6. peel u6 s7 E7. discriminate. }
    peel t s5 E5. destruct (t <? _)%Z.
    { peel t' s6 E6. peel u6 s7 E7. peel u7 s8 E8. discriminate. }
    assert (Hnow : forall s1 t s2, now s1 = (t, s2) -> calls s2 = calls s1).
    { intros s1 t0 s2. unfold now. destruct (time_Now (world s1)).
      by intros [= _ <-]. }
    assert (H5 : callsOnly P s s5).
    { apply callsOnly_same. rewrite (Hnow _ _ _ E5).
      destruct (EnableExponentialBackoff _).
      - revert E4. peel t4 s4' E4'. unfold ret. intros [= _ <-].
        by rewrite (Hnow _ _ _ E4').
      - unfold ret in E4. by injection E4 as <-. }
    peel u6 s6 E6.
    assert (H6 : callsOnly P s s6).
    { etransitivity; [exact H5|].
      pose proof (resetCounters_calls P s5) as H6. by rewrite E6 in H6. }
    peel c s7 E7.
    assert (H7 : callsOnly P s s7).
    { etransitivity; [exact H6|].
      pose proof (refreshAndProtect_calls P s6 H1 H2 H3) as H7.
      by rewrite E7 in H7. }
    destruct c as [err|ctx]; [intros _; exact H7|].
    intros He. etransitivity; [exact H7|].
    clear - He H3 H4.
    revert He. unfold solicitAndDispatch. peel r s8 E8.
    pose proof (GetFullDecision_calls P ctx s7) as H8.
    rewrite E8 in H8. cbn [snd] in H8.
    destruct r as [err|ds].
    + peel u s9 E9. peel u' s10 E10. cbn [ret fst snd]. intros _.
      etransitivity; [apply H8; by apply H4|].
      unfold failRecord, modifyRecord in E9. injection E9 as _ <-.
      unfold LogDecision in E10. injection E10 as _ <-.
      eexists [_]. split; [reflexivity|]. constructor; [|done]. by apply H3.
    + cbv zeta. peel u s9 E9. peel u' s10 E10. cbn [ret fst]. discriminate.
Qed.

Lemma bind_modifyTrader {A} f (k : unit -> M W A) (s : Sys W) :
  bind (modifyTrader f) k s
  = k tt (mkSys (f (trader s)) (world s) (calls s) (record s)).
Proof. reflexivity. Qed.

Lemma resetCounters_settings (s : Sys W) :
  onTrader sameSettings s (resetCounters s).2.
Proof. unfold resetCounters. trader_step. Qed.

Lemma checkStopLossKey_settings keys decreased key u (s : Sys W) :
  onTrader sameSettings s (checkStopLossKey keys decreased key u s).2.
Proof. unfold checkStopLossKey. trader_step. Qed.

Lemma checkStopLossTriggered_settings ctx (s : Sys W) :
  onTrader sameSettings s (checkStopLossTriggered ctx s).2.
Proof.
  pose proof checkStopLossKey_settings.
  unfold checkStopLossTriggered. trader_step.
Qed.

Lemma refreshAndProtect_settings (s : Sys W) :
  onTrader sameSettings s (refreshAndProtect s).2.
Proof.
  pose proof checkStopLossTriggered_settings.
  assert (forall s : Sys W, onTrader sameSettings s (buildTradingContext s).2)
    by (intros; apply sameSettings_maps, buildTradingContext_mapsOnly).
  assert (forall ctx h (s : Sys W),
             onTrader sameSettings s
               (checkTrailingStopAndPartialTP ctx h s).2)
    by (intros; apply sameSettings_maps,
                  checkTrailingStopAndPartialTP_mapsOnly).
  unfold refreshAndProtect. trader_step.
Qed.

(** X12.  Whatever its outcome, a cycle raises the cycle counter by
    exactly one and changes neither the configuration, nor the initial
    balance, nor [stopUntil]: nothing in a cycle ever starts the
    risk-control pause that [runCycle] checks for. *)
Theorem runCycle_counts_and_keeps_settings (s : Sys W) :
  callCount (trader (runCycle s).2) = callCount (trader s) + 1
  /\ config (trader (runCycle s).2) = config (trader s)
  /\ initialBalance (trader (runCycle s).2) = initialBalance (trader s)
  /\ stopUntil (trader (runCycle s).2) = stopUntil (trader s).
Proof.
  pose proof resetCounters_settings.
  pose proof refreshAndProtect_settings.
  assert (forall ctx (s : Sys W),
             onTrader sameSettings s (solicitAndDispatch ctx s).2)
    by (intros; apply sameSettings_maps, solicitAndDispatch_mapsOnly).
  unfold runCycle. rewrite bind_modifyTrader.
  match goal with
  | |- context [snd (?k ?s0)] =>
      assert (Hrest : onTrader sameSettings s0 (k s0).2)
  end.
  { trader_step. }
  destruct Hrest as [Hc Hi Hs Hn]. cbn [trader] in Hc, Hi, Hs, Hn.
  rewrite Hc, Hi, Hs, Hn. done.
Qed.

End CycleFrame.

(** ** The dispatch of one decision *)

Lemma bind_inv {W A B} (m : M W A) (k : A -> M W B) (s s' : Sys W) b :
  bind m k s = (b, s') ->
  exists a s1, m s = (a, s1) /\ k a s1 = (b, s').
Proof. unfold bind. destruct (m s) as [a s1]. by exists a, s1. Qed.

(** The first part of a [bind] was built from the primitives of the monad:
    its equation is solved. *)
Ltac inv_prim E :=
  lazymatch type of E with
  | getTrader _ = _ => unfold getTrader in E; injection E as <- <-
  | modifyTrader _ _ = _ => unfold modifyTrader in E; injection E as _ <-
  | modifyRecord _ _ = _ => unfold modifyRecord in E; injection E as _ <-
  | LogDecision _ = _ => unfold LogDecision in E; injection E as _ <-
  | ret _ _ = _ => unfold ret in E; inversion E; subst; clear E
  | external _ _ _ = _ =>
      unfold external in E;
      lazymatch type of E with
      | context [match ?x with _ => _ end] =>
          let Hop := fresh "Hop" in
          destruct x eqn:Hop; injection E as <- <-
      end
  | now _ = _ =>
      unfold now in E;
      lazymatch type of E with
      | context [match ?x with _ => _ end] =>
          let Hop := fresh "Hnow" in
          destruct x eqn:Hop; injection E as <- <-
      end
  | bind _ _ _ = _ =>
      let a := fresh "a" in
      let s := fresh "s" in
      let E1 := fresh "E" in
      let E2 := fresh "E" in
      apply bind_inv in E; destruct E as (a & s & E1 & E2);
      inv_prim E1; cbv beta in E2; inv_prim E2
  | _ => idtac
  end.

Ltac run :=
  let a := fresh "a" in
  let s := fresh "s" in
  let E := fresh "E" in
  peel a s E; inv_prim E; cbn [trader world calls record].

(** The test of the next [if], or the answer of the last call. *)
Ltac case_if :=
  lazymatch goal with
  | |- context [(if ?b then _ else _) _] => destruct b eqn:?
  | |- context [bind (if ?b then _ else _)] => destruct b eqn:?
  end.

Tactic Notation "case_result" ident(x) :=
  lazymatch goal with
  | |- context [(match ?r with Ok _ => _ | Err _ => _ end) _] =>
      destruct r as [x|?]
  end.

(** The first part of the outermost [bind] is a call whose answer [H]
    gives. *)
Ltac run_with H :=
  let a := fresh "a" in
  let s := fresh "s" in
  let E := fresh "E" in
  peel a s E; unfold external in E; cbn [trader world calls record] in E;
  rewrite H in E; injection E as <- <-;
  cbn [trader world calls record].

Ltac unfold_calls :=
  unfold GetBalance, GetPositions, OpenLong, OpenShort, CloseLong,
    CloseShort, SetStopLoss, SetTakeProfit, marketGet, GetMergedCoinPool,
    appendAction, appendLog, failRecord, updateTracking.

Lemma sideOfClose_cases action side :
  sideOfClose action = Some side ->
  (action = "close_long" /\ side = "long")
  \/ (action = "close_short" /\ side = "short").
Proof.
  unfold sideOfClose.
  destruct (String.eqb_spec action "close_long") as [->|_].
  - intros [= <-]. by left.
  - destruct (String.eqb_spec action "close_short") as [->|_]; [|done].
    intros [= <-]. by right.
Qed.

Section DispatchOutcome.

Context {W : Type} `{External W}.

(** X13.  [executeDecisionWithRecord] has a case for six of the eleven
    actions the validator accepts.  An increase_long, increase_short,
    decrease_long, decrease_short or update_loss_profit intent, which
    [validateDecision] can accept, is answered with the unknown-action
    error: no call is made and nothing changes. *)
Theorem adjust_actions_are_not_dispatched d r (s : Sys W) :
  In (Action d) adjustActions ->
  isValidAction (Action d) = true
  /\ executeDecisionWithRecord d r s
     = ((Some (ErrUnknownAction (Action d)), r), s).
Proof.
  intros Hin. unfold executeDecisionWithRecord.
  cbn in Hin. destruct Hin as [<-|[<-|[<-|[<-|[<-|[]]]]]]; done.
Qed.

(** X14.  A close_long or close_short intent is dispatched without
    looking at the live positions: the market price is read and, when it is
    available, the venue is asked to close the whole position (quantity 0);
    when it is not, the venue is not called and the error is returned.  In
    every case the trader's maps are left as they are (the records of the
    position are dropped by the next refresh), and the result is [nil]
    exactly when the venue accepted the close. *)
Theorem close_dispatch_closes_whole_position d r (s : Sys W) side :
  sideOfClose (Action d) = Some side ->
  let res := executeDecisionWithRecord d r s in
  trader res.2 = trader s
  /\ record res.2 = record s
  /\ match market_Get (Symbol d) 3 (world s) with
     | (Err msg, _) =>
         res.1 = (Some (ErrExternal msg), r)
         /\ calls res.2 = (calls s ++ [CallMarketGet (Symbol d) 3])%list
     | (Ok price, w1) =>
         calls res.2
         = (calls s ++ [CallMarketGet (Symbol d) 3;
                        closeCall side (Symbol d) 0])%list
         /\ da_Price res.1.2 = price
         /\ (res.1.1 = None
             <-> exists oid, (closeOp side (Symbol d) 0 w1).1 = Ok oid)
     end.
Proof.
  intros Hside res. subst res.
  destruct (sideOfClose_cases _ _ Hside) as [[Ha ->]|[Ha ->]];
    unfold executeDecisionWithRecord; rewrite Ha;
    cbn [String.eqb Ascii.eqb Bool.eqb];
    unfold executeCloseLongWithRecord, executeCloseShortWithRecord,
      closeOp, closeCall, bind, marketGet, CloseLong, CloseShort, external,
      ret;
    cbn [String.eqb Ascii.eqb Bool.eqb];
    destruct (market_Get (Symbol d) 3 (world s)) as [[price|msg] w1];
    cbn [trader world calls record fst snd]; try done.
  - destruct (trader_CloseLong (Symbol d) 0 w1) as [[oid|msg] w2];
      cbn [trader world calls record fst snd]; rewrite <- app_assoc;
      (split; [done|]); (split; [done|]); (split; [done|]).
    + split; [by destruct oid|]. split; [by eexists|done].
    + split; [done|]. split; [done|]. by intros [? ?].
  - destruct (trader_CloseShort (Symbol d) 0 w1) as [[oid|msg] w2];
      cbn [trader world calls record fst snd]; rewrite <- app_assoc;
      (split; [done|]); (split; [done|]); (split; [done|]).
    + split; [by destruct oid|]. split; [by eexists|done].
    + split; [done|]. split; [done|]. by intros [? ?].
Qed.

Lemma recordOpen_recorded d side price (s : Sys W) :
  openRecorded d side price
    (trader (recordOpen d (posKeyOf (Symbol d) side) price s).2).
Proof.
  unfold recordOpen, bind, now, modifyTrader.
  destruct (time_Now (world s)) as [t w']. cbn [snd trader].
  constructor;
    cbn [positionPnLTracking positionFirstSeenTime
           positionInvalidationConditions positionReasonings withTracking
           withReasonings withInvalidationConditions withFirstSeen];
    rewrite lookup_insert_eq; by eauto.
Qed.

(** The end of the two open functions after the bookkeeping: the
    protective orders leave the trader alone. *)
Lemma protect_keeps_trader d SIDE quantity (x : option Error * DecisionAction)
    (s : Sys W) :
  trader
    ((let* _ := SetStopLoss (Symbol d) SIDE quantity (StopLoss d) in
      let* a := getTrader in
      let* _ :=
        if negb (EnablePartialTakeProfit (config a)) then
          let* _ := SetTakeProfit (Symbol d) SIDE quantity (TakeProfit d) in
          ret tt
        else ret tt in
      ret x) s).2
  = trader s.
Proof.
  unfold_calls. run. run. case_if; run; reflexivity.
Qed.

(** X15.  The outcome of an open_long or open_short dispatch.  When it
    fails (the position exists already, no market price, or the venue
    refuses the order) the trader is exactly as before: nothing is recorded
    for a position that was not opened.  When it succeeds, the position is
    recorded under its key: a first-seen time, the invalidation condition
    and the reasoning of the intent, and a tracking entry with the stop and
    the target of the intent, the market price read at dispatch as entry
    price (not the entry price of the intent), extrema 0 and the three
    one-shot flags down; the action record carries that price and the
    quantity size / price. *)
Theorem open_dispatch_outcome d r (s : Sys W) side :
  sideOfOpen (Action d) = Some side ->
  let res := executeDecisionWithRecord d r s in
  record res.2 = record s
  /\ match res.1.1 with
     | Some _ => trader res.2 = trader s
     | None =>
         exists price w w',
           market_Get (Symbol d) 3 w = (Ok price, w')
           /\ openRecorded d side price (trader res.2)
           /\ da_Price res.1.2 = price
           /\ da_Quantity res.1.2 = (PositionSizeUSD d / price)%Q
     end.
Proof.
  intros Hside res. subst res.
  assert (Hrec : forall q p oid,
             da_Price (withOrderID oid (withQuantityPrice q p r)) = p
             /\ da_Quantity (withOrderID oid (withQuantityPrice q p r)) = q)
    by (by intros q p [oid|]).
  destruct (sideOfOpen_cases _ _ Hside) as [[Ha ->]|[Ha ->]];
    unfold executeDecisionWithRecord; rewrite Ha;
    cbn [String.eqb Ascii.eqb Bool.eqb];
    unfold executeOpenLongWithRecord, executeOpenShortWithRecord.
  - cbv zeta. unfold GetPositions, marketGet, OpenLong.
    run. case_if; [cbn [ret fst snd]; done|].
    run. case_result price; [|cbn [ret fst snd]; done].
    run. case_result oid; [|cbn [ret fst snd]; done].
    peel u s1 E1.
    match type of E1 with
    | recordOpen _ _ _ ?s0 = _ =>
        pose proof (recordOpen_recorded d "long" price s0) as Hopen;
        assert (Hr1 : record s1 = record s0)
    end.
    { revert E1. unfold recordOpen. run. unfold modifyTrader.
      by intros [= _ <-]. }
    change (posKeyOf (Symbol d) "long") with (Symbol d ++ "_long") in Hopen.
    rewrite E1 in Hopen. cbn [snd record] in Hopen, Hr1.
    destruct (Hrec (PositionSizeUSD d / price)%Q price oid) as [Hp Hq].
    unfold_calls. run. run.
    case_if; run; cbn [ret fst snd trader record];
      (split; [done|]); eexists price, _, _; (split; [eassumption|]); done.
  - cbv zeta. unfold GetPositions, marketGet, OpenShort.
    run. case_if; [cbn [ret fst snd]; done|].
    run. case_result price; [|cbn [ret fst snd]; done].
    run. case_result oid; [|cbn [ret fst snd]; done].
    peel u s1 E1.
    match type of E1 with
    | recordOpen _ _ _ ?s0 = _ =>
        pose proof (recordOpen_recorded d "short" price s0) as Hopen;
        assert (Hr1 : record s1 = record s0)
    end.
    { revert E1. unfold recordOpen. run. unfold modifyTrader.
      by intros [= _ <-]. }
    change (posKeyOf (Symbol d) "short") with (Symbol d ++ "_short") in Hopen.
    rewrite E1 in Hopen. cbn [snd record] in Hopen, Hr1.
    destruct (Hrec (PositionSizeUSD d / price)%Q price oid) as [Hp Hq].
    unfold_calls. run. run.
    case_if; run; cbn [ret fst snd trader record];
      (split; [done|]); eexists price, _, _; (split; [eassumption|]); done.
Qed.

(** X16.  Once the venue has accepted the open order, the dispatch
    succeeds whatever the venue answers to the protective orders: a
    stop-loss order is always placed, for the quantity of the open and at
    the stop of the intent; a take-profit order at the target of the intent
    is placed only when the partial take-profit is disabled; an error of
    either order is not reported and the open is not undone. *)
Theorem open_places_protective_orders d r (s : Sys W) side ps w1 price w2
    oid w3 :
  sideOfOpen (Action d) = Some side ->
  trader_GetPositions (world s) = (ps, w1) ->
  match ps with
  | Ok positions => hasPosition positions (Symbol d) side = false
  | Err _ => True
  end ->
  market_Get (Symbol d) 3 w1 = (Ok price, w2) ->
  openOp side (Symbol d) (PositionSizeUSD d / price) (Leverage d) w2
  = (Ok oid, w3) ->
  let res := executeDecisionWithRecord d r s in
  let quantity := (PositionSizeUSD d / price)%Q in
  res.1.1 = None
  /\ calls res.2
     = (calls s ++
        [CallGetPositions; CallMarketGet (Symbol d) 3;
         openCall side (Symbol d) quantity (Leverage d);
         CallSetStopLoss (Symbol d) (sideUpper side) quantity (StopLoss d)]
        ++ (if EnablePartialTakeProfit (config (trader s)) then []
            else [CallSetTakeProfit (Symbol d) (sideUpper side) quantity
                    (TakeProfit d)]))%list.
Proof.
  intros Hside Hget Hfree Hprice Hopen res quantity. subst res quantity.
  assert (Hscan : match ps with
                  | Ok positions => hasPosition positions (Symbol d) side
                  | Err _ => false
                  end = false)
    by (destruct ps; [exact Hfree|reflexivity]).
  assert (Hcfg : forall key p (s0 : Sys W),
             config (trader (recordOpen d key p s0).2) = config (trader s0)
             /\ calls (recordOpen d key p s0).2 = calls s0).
  { intros key p s0. unfold recordOpen, bind, now, modifyTrader.
    by destruct (time_Now (world s0)). }
  destruct (sideOfOpen_cases _ _ Hside) as [[Ha ->]|[Ha ->]];
    unfold executeDecisionWithRecord; rewrite Ha;
    cbn [String.eqb Ascii.eqb Bool.eqb];
    unfold executeOpenLongWithRecord, executeOpenShortWithRecord, openOp,
      openCall, sideUpper in *;
    cbn [String.eqb Ascii.eqb Bool.eqb] in *;
    cbv zeta; unfold GetPositions, marketGet, OpenLong, OpenShort;
    run_with Hget; rewrite Hscan; cbv beta iota;
    run_with Hprice; cbv beta iota; run_with Hopen; cbv beta iota;
    peel u s1 E1;
    match type of E1 with
    | recordOpen _ ?key ?p ?s0 = _ =>
        destruct (Hcfg key p s0) as [Hc1 Hc2]
    end;
    rewrite E1 in Hc1, Hc2; cbn [snd trader calls config] in Hc1, Hc2;
    unfold_calls; run; run; rewrite Hc1, Hc2;
    destruct (EnablePartialTakeProfit (config (trader s))); cbn [negb];
    run; cbn [ret fst snd calls]; (split; [done|]);
    rewrite <- ?app_assoc; cbn [app]; reflexivity.
Qed.

(** The monadic code of the goal is run to its end, with a case for every
    test and every answer. *)
Ltac exec :=
  repeat first
    [ lazymatch goal with
      | |- context [bind (if ?b then _ else _)] => destruct b eqn:?
      | |- context [(if ?b then _ else _) _] => destruct b eqn:?
      | |- context [(match ?x with Ok _ => _ | Err _ => _ end) _] =>
          destruct x eqn:?
      end
    | run ];
  cbn [ret fst snd trader world calls record].

Lemma withOrderID_fields oid r :
  da_Action (withOrderID oid r) = da_Action r
  /\ da_Symbol (withOrderID oid r) = da_Symbol r
  /\ da_Leverage (withOrderID oid r) = da_Leverage r.
Proof. by destruct oid. Qed.

Lemma executeDecisionWithRecord_record d r (s : Sys W) :
  record (executeDecisionWithRecord d r s).2 = record s
  /\ da_Action (executeDecisionWithRecord d r s).1.2 = da_Action r
  /\ da_Symbol (executeDecisionWithRecord d r s).1.2 = da_Symbol r
  /\ da_Leverage (executeDecisionWithRecord d r s).1.2 = da_Leverage r.
Proof.
  unfold executeDecisionWithRecord, executeOpenLongWithRecord,
    executeOpenShortWithRecord, executeCloseLongWithRecord,
    executeCloseShortWithRecord, recordOpen.
  unfold_calls. cbv zeta. exec;
    repeat match goal with
           | |- context [withOrderID ?o ?x] =>
               destruct (withOrderID_fields o x) as (-> & -> & ->)
           end;
    done.
Qed.

Lemma dispatchOne_record d u (s : Sys W) :
  exists r,
    recordsDecision d r
    /\ rec_Decisions (record (dispatchOne d u s).2)
       = (rec_Decisions (record s) ++ [r])%list
    /\ length (rec_ExecutionLog (record (dispatchOne d u s).2))
       = S (length (rec_ExecutionLog (record s))).
Proof.
  unfold dispatchOne. peel res s1 E.
  destruct (executeDecisionWithRecord_record d (newActionRecord d) s)
    as (Hr & Ha & Hs & Hl).
  rewrite E in Hr, Ha, Hs, Hl. cbn [fst snd] in Hr, Ha, Hs, Hl.
  unfold_calls.
  destruct res as [[err|] r']; cbn [fst snd] in *; run;
    unfold modifyRecord;
    cbn [snd record rec_Decisions rec_ExecutionLog]; rewrite Hr;
    (eexists; split; [|split; [reflexivity|]]);
    [ | by rewrite length_app, Nat.add_1_r
      | | by rewrite length_app, Nat.add_1_r ];
    (split; [exact Ha|]; split; [exact Hs|]; split; [exact Hl|]); done.
Qed.

(** X17.  The dispatch loop of [runCycle] never stops early: it appends
    exactly one action record per decision of the ordered batch, in
    dispatch order, with the action, the symbol and the leverage of its
    decision; a decision whose dispatch fails gets a record with the error
    and the loop goes on with the next one.  A record is marked successful
    exactly when it carries no error, and one line is added to the
    execution log per decision. *)
Theorem dispatch_records_every_decision ds (s : Sys W) :
  exists rs,
    rec_Decisions (record (forEach ds dispatchOne tt s).2)
    = (rec_Decisions (record s) ++ rs)%list
    /\ Forall2 recordsDecision ds rs
    /\ length (rec_ExecutionLog (record (forEach ds dispatchOne tt s).2))
       = (length (rec_ExecutionLog (record s)) + length ds)%nat.
Proof.
  revert s. induction ds as [|d ds IH]; intros s.
  - exists []. cbn [forEach ret snd length]. rewrite app_nil_r, Nat.add_0_r.
    by repeat split.
  - cbn [forEach]. peel u s1 E. destruct u.
    destruct (dispatchOne_record d tt s) as (r & Hr & Hd & Hl).
    rewrite E in Hd, Hl. cbn [snd] in Hd, Hl.
    destruct (IH s1) as (rs & Hrs & HF & Hlen).
    exists (r :: rs). rewrite Hrs, Hd, Hlen, Hl, <- app_assoc.
    split; [done|]. split; [by constructor|]. cbn [length]. lia.
Qed.

End DispatchOutcome.

(** X13 on an example: the decrease of 50 USD passes the validator and is
    refused by the dispatcher. *)
Lemma adjust_actions_are_not_dispatched_witness :
  validateDecision decreaseFifty 1000 10 5 = None
  /\ (executeDecisionWithRecord decreaseFifty (newActionRecord decreaseFifty)
        (startSys trader0 (worldFlat true))).1.1
     = Some (ErrUnknownAction "decrease_long").
Proof.
  split; [reflexivity|].
  rewrite (proj2 (adjust_actions_are_not_dispatched decreaseFifty
                    (newActionRecord decreaseFifty)
                    (startSys trader0 (worldFlat true))
                    ltac:(cbn; tauto))).
  reflexivity.
Defined.

(** ** The length of a backoff *)

Lemma backoff_product_nonneg (n : nat) (m b : Q) :
  (0 <= m)%Q -> (0 <= b)%Q ->
  (0 <= Nat.iter n (fun x => fmul x m) b)%Q.
Proof.
  intros Hm Hb. induction n as [|n IH]; [exact Hb|].
  rewrite Nat.iter_succ. apply fmul_nonneg; assumption.
Qed.

Lemma truncZ_between (x : Q) (n : Z) :
  (0 <= x <= ofZ n)%Q -> 0 <= truncZ x <= n.
Proof.
  destruct x as [a b]. unfold truncZ, ofZ, inject_Z, Qle. cbn.
  intros [H0 H1]. rewrite Z.quot_div_nonneg by lia. split.
  - apply Z.div_pos; lia.
  - apply Z.div_le_upper_bound; lia.
Qed.

(** X18.  The length of a backoff.  With a base, a multiplier and a
    maximum that are not negative, the length in minutes that
    [checkStopLossTriggered] computes for any stop-loss count lies between 0
    and [BackoffMaxMinutes], and so does the whole number of minutes the
    pause lasts.  The length is the float64 product of the code, the
    multiplication being rounded at every step. *)
Theorem backoffMinutesOf_bounds cfg n :
  0 <= BackoffBaseMinutes cfg ->
  (0 <= BackoffMultiplier cfg)%Q ->
  0 <= BackoffMaxMinutes cfg ->
  (0 <= backoffMinutesOf cfg n <= ofZ (BackoffMaxMinutes cfg))%Q
  /\ 0 <= truncZ (backoffMinutesOf cfg n) <= BackoffMaxMinutes cfg.
Proof.
  intros Hb Hm Hx.
  assert (Hr : (0 <= backoffMinutesOf cfg n <= ofZ (BackoffMaxMinutes cfg))%Q).
  { unfold backoffMinutesOf.
    pose proof (backoff_product_nonneg (Z.to_nat (n - 1))
                  (BackoffMultiplier cfg) (ofZ (BackoffBaseMinutes cfg)) Hm)
      as Hg.
    assert (H0 : (0 <= ofZ (BackoffBaseMinutes cfg))%Q).
    { unfold ofZ. change 0%Q with (inject_Z 0). by rewrite <- Zle_Qle. }
    specialize (Hg H0).
    destruct (fgt _ (ofZ (BackoffMaxMinutes cfg))) eqn:E;
      [apply fgt_true in E|apply fgt_false in E].
    - split; [|lra]. unfold ofZ. change 0%Q with (inject_Z 0).
      by rewrite <- Zle_Qle.
    - split; assumption. }
  split; [exact Hr|]. apply truncZ_between, Hr.
Qed.

(** X18 on examples: base 45, multiplier 2.67 and at most 360 minutes; and
    the rounding at work: with the multiplier 2.8 the second backoff is the
    float64 product 125.99999999999999, that is 125 whole minutes. *)
Lemma backoffMinutesOf_bounds_witness :
  ((0 <= backoffMinutesOf cfg0 3 <= ofZ 360)%Q
   /\ 0 <= truncZ (backoffMinutesOf cfg0 3) <= 360)
  /\ truncZ (backoffMinutesOf cfg0 3) = 320
  /\ truncZ (fmul 45 (round64 2.8)) = 125.
Proof.
  split; [|split; vm_compute; reflexivity].
  apply (backoffMinutesOf_bounds cfg0 3);
    [cbn; lia|vm_compute; discriminate|cbn; lia].
Defined.

(** The rounding of [float64] decides in the breaker too.  The tolerance
    limit of a stop at 0.05 is the product 0.05 * 1.05 as the code computes
    it, one step above the [float64] nearest to 0.0525: a price at that
    limit is within the tolerance.  And 5 minutes times 1.2 is 6 minutes in
    the code, although the product of the two [float64] values is below
    6. *)
Example breaker_in_float64 :
  (round64 0.0525 < fmul (round64 0.05) (round64 1.05))%Q
  /\ classifyStopLoss true "long" (fmul (round64 0.05) (round64 1.05))
       (round64 0.05) 0 = true
  /\ (5 * round64 1.2 < 6)%Q
  /\ truncZ (fmul 5 (round64 1.2)) = 6.
Proof. repeat split; vm_compute; reflexivity. Qed.

(** ** Locating the JSON array *)

Example findMatchingBracket_nested :
  findMatchingBracket "x [1, [2, 3], 4] y" 2 = 15.
Proof. reflexivity. Qed.

Example findMatchingBracket_not_a_bracket :
  findMatchingBracket "x [1]" 0 = -1.
Proof. reflexivity. Qed.

(** A closing bracket inside a quoted text is counted like any other. *)
Example findMatchingBracket_inside_text :
  findMatchingBracket "[{'reasoning': 'range ] broken'}]" 0 = 22.
Proof. reflexivity. Qed.

Lemma get_dropBytes start : forall s k,
  String.get k (dropBytes start s) = String.get (start + k) s.
Proof.
  induction start as [|start IH]; intros s k; [by destruct s|].
  destruct s as [|c rest]; cbn [dropBytes].
  - by destruct k.
  - apply IH.
Qed.

Lemma length_dropBytes start : forall s c,
  String.get start s = Some c ->
  String.length s = (start + String.length (dropBytes start s))%nat.
Proof.
  induction start as [|start IH]; intros [|c0 rest] c Hget; try done.
  cbn in Hget. cbn [dropBytes String.length]. rewrite (IH rest c Hget).
  lia.
Qed.

Lemma dropBytes_head start s c :
  String.get start s = Some c ->
  exists rest, dropBytes start s = String c rest.
Proof.
  rewrite <- (Nat.add_0_r start) at 1. rewrite <- get_dropBytes.
  destruct (dropBytes start s) as [|c0 rest]; [done|].
  intros [= ->]. by exists rest.
Qed.

Lemma scanBracket_spec t : forall i d,
  1 <= d ->
  (scanBracket t i d = -1
   /\ forall m, (m < String.length t)%nat -> 0 < d + bracketBalance (S m) t)
  \/ (exists k,
        scanBracket t i d = i + Z.of_nat k
        /\ String.get k t = Some "]"%char
        /\ d + bracketBalance (S k) t = 0
        /\ forall m, (m < k)%nat -> 0 < d + bracketBalance (S m) t).
Proof.
  induction t as [|c rest IH]; intros i d Hd.
  - left. split; [done|]. cbn. lia.
  - cbn [scanBracket].
    assert (Hstep : forall m,
               bracketBalance (S (S m)) (String c rest)
               = bracketStep c + bracketBalance (S m) rest) by done.
    assert (Hone : bracketBalance 1 (String c rest) = bracketStep c).
    { cbn. destruct rest; lia. }
    assert (Hrec : forall d',
               d' = d + bracketStep c -> 1 <= d' ->
               (scanBracket rest (i + 1) d' = -1
                /\ forall m, (m < String.length (String c rest))%nat ->
                     0 < d + bracketBalance (S m) (String c rest))
               \/ (exists k,
                     scanBracket rest (i + 1) d' = i + Z.of_nat k
                     /\ String.get k (String c rest) = Some "]"%char
                     /\ d + bracketBalance (S k) (String c rest) = 0
                     /\ forall m, (m < k)%nat ->
                          0 < d + bracketBalance (S m) (String c rest))).
    { intros d' -> Hd'.
      destruct (IH (i + 1) _ Hd') as [[Hr Hall]|(k & Hr & Hg & Hz & Hall)].
      - left. split; [done|]. intros [|m] Hm.
        + rewrite Hone. lia.
        + rewrite Hstep. cbn in Hm. specialize (Hall m). lia.
      - right. exists (S k). split; [rewrite Hr; lia|]. split; [done|].
        split; [rewrite Hstep; lia|]. intros [|m] Hm.
        + rewrite Hone. lia.
        + rewrite Hstep. specialize (Hall m). lia. }
    unfold bracketStep in Hrec, Hone.
    destruct (Ascii.eqb c "[") eqn:E1.
    + apply Hrec; [done|lia].
    + destruct (Ascii.eqb_spec c "]") as [->|E2].
      * destruct (d - 1 =? 0)%Z eqn:E3.
        -- apply Z.eqb_eq in E3. right. exists O.
           split; [lia|]. split; [done|]. rewrite Hone.
           split; [lia|]. lia.
        -- apply Z.eqb_neq in E3. apply Hrec; lia.
      * apply Hrec; [lia|]. lia.
Qed.

(** X20.  [findMatchingBracket s start] answers [-1] when [s] has no
    opening bracket at [start], or when from [start] on some bracket is
    always left open; otherwise it answers the first index [r > start] at
    which the brackets opened since [start] are all closed, which holds a
    closing bracket.  Brackets are counted wherever they stand, inside
    quoted text too. *)
Theorem findMatchingBracket_spec s start :
  (findMatchingBracket s start = -1
   /\ (String.get start s <> Some "["%char \/ neverCloses s start))
  \/ (exists r,
        findMatchingBracket s start = Z.of_nat r
        /\ String.get start s = Some "["%char
        /\ closesAt s start r).
Proof.
  unfold findMatchingBracket.
  destruct (String.get start s) as [c|] eqn:Hget;
    [|left; split; [done|by left]].
  destruct (Ascii.eqb_spec c "[") as [->|Hc];
    [|left; split; [done|left; congruence]].
  destruct (dropBytes_head _ _ _ Hget) as [rest Hrest].
  pose proof (length_dropBytes _ _ _ Hget) as Hlen.
  rewrite Hrest in Hlen |- *. cbn [scanBracket Ascii.eqb Bool.eqb] in *.
  cbn [String.length] in Hlen.
  assert (Hstep : forall m,
             bracketBalance (S (S m)) (String "[" rest)
             = 1 + bracketBalance (S m) rest) by done.
  assert (Hone : bracketBalance 1 (String "[" rest) = 1).
  { cbn. destruct rest; lia. }
  destruct (scanBracket_spec rest (Z.of_nat start + 1) (0 + 1) ltac:(lia))
    as [[Hr Hall]|(k & Hr & Hg & Hz & Hall)].
  - left. split; [done|]. right. intros [|m] Hm; rewrite Hrest.
    + rewrite Hone. lia.
    + rewrite Hstep. specialize (Hall m). lia.
  - right. exists (start + S k)%nat. split; [rewrite Hr; lia|].
    split; [done|]. unfold closesAt. rewrite Hrest.
    replace (start + S k - start)%nat with (S k) by lia.
    split; [lia|]. split.
    { rewrite <- get_dropBytes, Hrest. done. }
    split; [rewrite Hstep; lia|]. intros [|m] Hm.
    + rewrite Hone. lia.
    + rewrite Hstep. specialize (Hall m). lia.
Qed.

(** ** A new trader *)

Example NewAutoTrader_defaults :
  NewAutoTrader identityBlank cfgUnset setupFine
  = inr (mkTraderIdentity "default_trader" "Default Trader" "deepseek" false
           "binance" 1000,
         mkAutoTrader cfg0 1000 0 1000 0 0 ∅ ∅ ∅ ∅ 0 0 0 0).
Proof. reflexivity. Qed.

Lemma NewAutoTrader_result identity cfg setup identity' a :
  NewAutoTrader identity cfg setup = inr (identity', a) ->
  startsClean a
  /\ wellTracked a
  /\ backoffSettingsPositive (config a)
  /\ In (cfg_Exchange identity') ["binance"; "hyperliquid"; "aster"].
Proof.
  unfold NewAutoTrader. cbv zeta.
  destruct (if String.eqb (cfg_AIModel (withIdentityDefaults identity))
                 "custom" then _ else _); [discriminate|].
  destruct (String.eqb_spec (cfg_Exchange (withIdentityDefaults identity))
              "binance") as [Hx|_].
  2: destruct (String.eqb_spec (cfg_Exchange (withIdentityDefaults identity))
                 "hyperliquid") as [Hx|_].
  3: destruct (String.eqb_spec (cfg_Exchange (withIdentityDefaults identity))
                 "aster") as [Hx|_]; [|discriminate].
  all: try match goal with
           | |- context [match ?o with Some _ => _ | None => _ end] =>
               destruct o; [discriminate|]
           end.
  all: destruct (fle _ 0) eqn:Hb; [discriminate|]; apply fle_false in Hb;
    intros [= <- <-]; rewrite Hx;
    (split; [by constructor|]); (split; [by apply wellTracked_empty|]);
    (split; [|cbn; tauto]).
  all: cbn [config]; unfold backoffSettingsPositive, withBackoffDefaults;
    destruct (EnableExponentialBackoff cfg) eqn:He; [|congruence];
    intros _;
    cbn [BackoffBaseMinutes BackoffMultiplier BackoffMaxMinutes
           BackoffResetHours];
    repeat split.
  all: try (destruct (Z.leb_spec (BackoffBaseMinutes cfg) 0); lia).
  all: try (destruct (Z.leb_spec (BackoffMaxMinutes cfg) 0); lia).
  all: try (destruct (Z.leb_spec (BackoffResetHours cfg) 0); lia).
  all: destruct (fle (BackoffMultiplier cfg) 0) eqn:E;
    [reflexivity|by apply fle_false in E].
Qed.

(** X21.  When [NewAutoTrader] succeeds, the trader it returns has a
    positive initial balance (a balance of 0 or less is refused), has run no
    cycle, holds no record of any position, has counted no loss and has no
    pause set; with the backoff enabled its four settings are positive (a
    setting of 0 or less is replaced by its default: 45 minutes, a factor of
    2.67, at most 360 minutes, reset after 24 hours), and the exchange is
    one of the three supported ones, binance when none was named. *)
Theorem NewAutoTrader_starts_clean identity cfg setup identity' a :
  NewAutoTrader identity cfg setup = inr (identity', a) ->
  startsClean a
  /\ wellTracked a
  /\ backoffSettingsPositive (config a)
  /\ In (cfg_Exchange identity') ["binance"; "hyperliquid"; "aster"].
Proof. apply NewAutoTrader_result. Qed.

(** X21 on an example: no name, no exchange and no backoff setting
    given. *)
Lemma NewAutoTrader_starts_clean_witness :
  backoffSettingsPositive cfg0.
Proof.
  exact (proj1 (proj2 (proj2
    (NewAutoTrader_starts_clean identityBlank cfgUnset setupFine _ _
       eq_refl)))).
Defined.

Section NewTraderCycles.

Context {W : Type} `{External W}.

(** X22.  The trader that [NewAutoTrader] returns never starts a backoff:
    after any number of cycles of [runCycle], in any world, the stop-loss
    counter is still 0 and neither the time of a loss nor the end of a
    backoff has been set.  The refresh at the start of a cycle deletes the
    tracking of a vanished position before [checkStopLossTriggered] looks
    for it. *)
Theorem new_trader_never_backs_off identity cfg setup identity' a (w : W)
    calls0 record0 n :
  NewAutoTrader identity cfg setup = inr (identity', a) ->
  let s := cycles n (mkSys a w calls0 record0) in
  stopLossCount (trader s) = 0
  /\ lastStopLossTime (trader s) = 0
  /\ backoffUntil (trader s) = 0.
Proof.
  intros Hnew s. subst s.
  destruct (NewAutoTrader_result _ _ _ _ _ Hnew) as ([] & Hwt & _).
  destruct (cycles_quiet n (mkSys a w calls0 record0) Hwt)
    as (_ & Hb & Hl & Hc).
  cbn [trader] in Hb, Hl, Hc.
  split; [destruct Hc; congruence|]. split; congruence.
Qed.

End NewTraderCycles.

(** X22 on an example: the new trader of [NewAutoTrader_defaults] over
    three cycles in the world of the stopped-out long. *)
Lemma new_trader_never_backs_off_witness :
  stopLossCount
    (trader (cycles 3 (startSys (mkAutoTrader cfg0 1000 0 1000 0 0 ∅ ∅ ∅ ∅
                                   0 0 0 0) worldStoppedOut))) = 0.
Proof.
  exact (proj1 (new_trader_never_backs_off identityBlank cfgUnset setupFine
                  _ _ worldStoppedOut [] (mkDecisionRecord true None [] [])
                  3 NewAutoTrader_defaults)).
Defined.

(** ** The properties above on example runs *)

Lemma refreshedTwo_eq :
  buildTradingContext (startSys traderStale worldTwoPositions)
  = (inr (contextOf refreshedTwo), refreshedTwo.2).
Proof. vm_compute. reflexivity. Qed.

Lemma refreshedAfterLoss_eq :
  buildTradingContext (startSys traderBeforeLoss worldStoppedOut)
  = (inr (contextOf refreshedAfterLoss), refreshedAfterLoss.2).
Proof. vm_compute. reflexivity. Qed.


(** X6 on the same example: what the trader remembered of its closed long
    on SOLUSDT is gone after the refresh. *)
Lemma buildTradingContext_forgets_closed_positions_witness :
  dom (positionFirstSeenTime (trader refreshedTwo.2))
  = liveKeys (contextOf refreshedTwo)
  /\ positionReasonings (trader refreshedTwo.2) !! "SOLUSDT" = None.
Proof.
  split; [|vm_compute; reflexivity].
  exact (proj1 (buildTradingContext_forgets_closed_positions
                  (startSys traderStale worldTwoPositions) refreshedTwo.2
                  (contextOf refreshedTwo) refreshedTwo_eq)).
Defined.

Lemma wellTracked_traderBeforeLoss : wellTracked traderBeforeLoss.
Proof.
  apply (keepsWellTracked_same
           (trackedLong (freshTracking openedBtc 50000) trader0));
    [reflexivity..|apply wellTracked_trackedLong].
Qed.

(** The position of [traderBeforeLoss] was stopped out at the venue: it is
    gone, the equity fell from 1000 to 800 and the price is below the stop.
    The breaker counts this loss when it sees the trader as it was. *)
Example loss_counted_before_refresh :
  stopLossCount
    (trader (checkStopLossTriggered (ctxFlat 800)
               (startSys traderBeforeLoss worldStoppedOut)).2)
  = 1.
Proof. vm_compute. reflexivity. Qed.

(** X7 on that example: after the refresh of the cycle the breaker counts
    nothing. *)
Lemma breaker_finds_nothing_after_refresh_witness :
  breakerState
    (trader (checkStopLossTriggered (contextOf refreshedAfterLoss)
               refreshedAfterLoss.2).2)
  = (0, 0, 0).
Proof.
  rewrite (breaker_finds_nothing_after_refresh
             (startSys traderBeforeLoss worldStoppedOut)
             refreshedAfterLoss.2 (contextOf refreshedAfterLoss)).
  - vm_compute. reflexivity.
  - exact wellTracked_traderBeforeLoss.
  - exact refreshedAfterLoss_eq.
Defined.

(** X8 on that example, over three cycles. *)
Lemma runCycle_never_starts_backoff_witness :
  backoffUntil
    (trader (cycles 3 (startSys traderBeforeLoss worldStoppedOut))) = 0
  /\ (stopLossCount
        (trader (cycles 3 (startSys traderBeforeLoss worldStoppedOut))) = 0
      \/ stopLossCount
           (trader (cycles 3 (startSys traderBeforeLoss worldStoppedOut)))
         = 0).
Proof.
  destruct (runCycle_never_starts_backoff 3
              (startSys traderBeforeLoss worldStoppedOut)
              wellTracked_traderBeforeLoss)
    as (_ & Hb & _ & Hc).
  split; [exact Hb|exact Hc].
Defined.

(** C7 on an example: the trader holds the long of [traderBeforeLoss] and
    saw an equity of 1000; in this cycle the venue reports no position and
    the same equity.  The breaker, given the context of that cycle, changes
    nothing, and after the whole cycle the counter is 0 and no backoff
    runs. *)
Lemma vanished_position_not_counted_witness :
  breakerState
    (trader (checkStopLossTriggered (ctxFlat 1000)
               (startSys traderBeforeLoss (worldAt 47000 []))).2)
  = breakerState traderBeforeLoss
  /\ 0 <= stopLossCount
            (trader (runCycle
                       (startSys traderBeforeLoss (worldAt 47000 []))).2)
       <= 0
  /\ backoffUntil
       (trader (runCycle (startSys traderBeforeLoss (worldAt 47000 []))).2)
     = 0.
Proof.
  pose proof (vanished_position_not_counted_without_equity_loss Script
                scriptExternal) as H.
  split.
  - apply (proj1 H). vm_compute. intros E. discriminate E.
  - destruct (proj2 H (startSys traderBeforeLoss (worldAt 47000 []))
                wellTracked_traderBeforeLoss ltac:(reflexivity))
      as (_ & Hc & Hb & _).
    split; [exact Hc|exact Hb].
Defined.

(** X11 on an example: the venue does not answer the balance request. *)
Lemma runCycle_error_opens_nothing_witness :
  isCycleError (ErrBuildContext (ErrGetBalance "timeout")) = true
  /\ callsOnly (fun c => isOpenCall c = false /\ isProtectCall c = false)
       (startSys trader0 worldDown)
       (runCycle (startSys trader0 worldDown)).2.
Proof.
  apply (runCycle_error_opens_nothing (startSys trader0 worldDown)).
  reflexivity.
Defined.

(** X14 on an example: a close_long on BTCUSDT, which the trader does not
    hold. *)
Lemma close_dispatch_closes_whole_position_witness :
  calls
    (executeDecisionWithRecord (intent "BTCUSDT" "close_long")
       (newActionRecord (intent "BTCUSDT" "close_long"))
       (startSys trader0 (worldFlat true))).2
  = [CallMarketGet "BTCUSDT" 3; CallCloseLong "BTCUSDT" 0].
Proof.
  pose proof (close_dispatch_closes_whole_position
                (intent "BTCUSDT" "close_long")
                (newActionRecord (intent "BTCUSDT" "close_long"))
                (startSys trader0 (worldFlat true)) "long" eq_refl) as H.
  cbv zeta in H. destruct H as (_ & _ & H). exact (proj1 H).
Defined.

(** X15 on two examples: the open_long of [openLongAt 104] when the venue
    accepts orders, and when it refuses them. *)
Lemma open_dispatch_outcome_witness :
  (exists price w w',
      market_Get "BTCUSDT" 3 w = (Ok price, w')
      /\ openRecorded (openLongAt 104) "long" price
           (trader
              (executeDecisionWithRecord (openLongAt 104)
                 (newActionRecord (openLongAt 104))
                 (startSys trader0 (worldFlat true))).2))
  /\ trader
       (executeDecisionWithRecord (openLongAt 104)
          (newActionRecord (openLongAt 104))
          (startSys trader0 (worldFlat false))).2
     = trader0.
Proof.
  split.
  - pose proof (open_dispatch_outcome (openLongAt 104)
                  (newActionRecord (openLongAt 104))
                  (startSys trader0 (worldFlat true)) "long" eq_refl) as H.
    cbv zeta in H. destruct H as (_ & H).
    destruct H as (price & w & w' & Hm & Ho & _).
    by exists price, w, w'.
  - pose proof (open_dispatch_outcome (openLongAt 104)
                  (newActionRecord (openLongAt 104))
                  (startSys trader0 (worldFlat false)) "long" eq_refl) as H.
    cbv zeta in H. destruct H as (_ & H). exact H.
Defined.

(** X16 on an example: the partial take-profit is enabled in [trader0], so
    no take-profit order is placed. *)
Lemma open_places_protective_orders_witness :
  calls
    (executeDecisionWithRecord (openLongAt 104)
       (newActionRecord (openLongAt 104))
       (startSys trader0 (worldFlat true))).2
  = [CallGetPositions; CallMarketGet "BTCUSDT" 3;
     CallOpenLong "BTCUSDT" (100 / 100) 5;
     CallSetStopLoss "BTCUSDT" "LONG" (100 / 100) 98].
Proof.
  exact (proj2 (open_places_protective_orders (openLongAt 104)
                  (newActionRecord (openLongAt 104))
                  (startSys trader0 (worldFlat true)) "long"
                  (Ok []) _ 100 _ None _ eq_refl eq_refl eq_refl eq_refl
                  eq_refl)).
Defined.

(** ** Indicators *)

Section IndicatorFacts.
Local Open Scope Q_scope.

(** A loop whose body keeps an invariant and never panics ends, with the
    invariant at the final counter. *)
Lemma forLoop_inv {A} (P : Z -> A -> Prop) (body : Z -> A -> option A)
    (n : nat) (i : Z) (acc : A) :
  P i acc ->
  (forall j a, (i <= j < i + Z.of_nat n)%Z -> P j a ->
     exists a', body j a = Some a' /\ P (j + 1)%Z a') ->
  exists r, forLoop n i body acc = Some r /\ P (i + Z.of_nat n)%Z r.
Proof.
  revert i acc. induction n as [|n IH]; intros i acc HP Hbody.
  - exists acc. split; [reflexivity|]. now replace (i + Z.of_nat 0)%Z with i by lia.
  - cbn [forLoop].
    destruct (Hbody i acc ltac:(lia) HP) as (a' & -> & HP').
    destruct (IH (i + 1)%Z a' HP') as (r & Hr & HPr).
    + intros j a Hj. apply Hbody. lia.
    + exists r. split; [exact Hr|].
      now replace (i + Z.of_nat (S n))%Z with (i + 1 + Z.of_nat n)%Z by lia.
Qed.

Lemma for_inv {A} (P : Z -> A -> Prop) (body : Z -> A -> option A)
    (from to : Z) (acc : A) :
  (from <= to)%Z ->
  P from acc ->
  (forall j a, (from <= j < to)%Z -> P j a ->
     exists a', body j a = Some a' /\ P (j + 1)%Z a') ->
  exists r, for_ from to body acc = Some r /\ P to r.
Proof.
  intros Hle HP Hbody. unfold for_.
  destruct (forLoop_inv P body (Z.to_nat (to - from)) from acc HP)
    as (r & Hr & HPr).
  - intros j a Hj. apply Hbody. lia.
  - exists r. split; [exact Hr|].
    replace (from + Z.of_nat (Z.to_nat (to - from)))%Z with to in HPr by lia.
    exact HPr.
Qed.

Lemma index_in_range {A} (s : list A) (i : Z) :
  (0 <= i < len s)%Z -> exists x, index s i = Some x /\ x ∈ s.
Proof.
  intros Hi. unfold index, len in *.
  destruct (Z.ltb_spec i 0) as [|_]; [lia|].
  destruct (lookup_lt_is_Some_2 s (Z.to_nat i) ltac:(lia)) as [x Hx].
  exists x. split; [exact Hx|]. eapply list_elem_of_lookup_2, Hx.
Qed.

Lemma index_Some_range {A} (s : list A) (i : Z) (x : A) :
  index s i = Some x -> (0 <= i < len s)%Z /\ x ∈ s.
Proof.
  unfold index, len. destruct (Z.ltb_spec i 0) as [|Hi]; [discriminate|].
  intros Hx. split.
  - apply lookup_lt_Some in Hx. lia.
  - eapply list_elem_of_lookup_2, Hx.
Qed.

Lemma ofZ_pos (n : Z) : (1 <= n)%Z -> 1 <= ofZ n.
Proof.
  intros Hn. unfold ofZ. change 1 with (inject_Z 1).
  rewrite <- Zle_Qle. exact Hn.
Qed.

Lemma ofZ_nonneg (n : Z) : (0 <= n)%Z -> 0 <= ofZ n.
Proof.
  intros Hn. unfold ofZ. change 0 with (inject_Z 0).
  rewrite <- Zle_Qle. exact Hn.
Qed.

Lemma ofZ_succ (n : Z) : ofZ (n + 1) == ofZ n + 1.
Proof. unfold ofZ. rewrite inject_Z_plus. reflexivity. Qed.


(** [x / p] lies between [lo] and [hi] when [x] lies between [p * lo] and
    [p * hi]. *)
Lemma div_between (x p lo hi : Q) :
  0 < p -> p * lo <= x <= p * hi -> lo <= x / p <= hi.
Proof.
  intros Hp [Hlo Hhi]. split.
  - apply Qle_shift_div_l; [exact Hp|]. rewrite Qmult_comm. exact Hlo.
  - apply Qle_shift_div_r; [exact Hp|]. rewrite Qmult_comm. exact Hhi.
Qed.

Lemma div_nonneg (x p : Q) : 0 < p -> 0 <= x -> 0 <= x / p.
Proof.
  intros Hp Hx. apply Qle_shift_div_l; [exact Hp|].
  rewrite Qmult_0_l. exact Hx.
Qed.

(** A step of the moving average stays between the bounds of its
    arguments. *)
Lemma ema_step_between (c e m lo hi : Q) :
  0 <= m <= 1 -> lo <= c <= hi -> lo <= e <= hi ->
  lo <= (c - e) * m + e <= hi.
Proof.
  intros [Hm0 Hm1] [Hc0 Hc1] [He0 He1]. split.
  - assert (H1 : 0 <= (c - lo) * m) by (apply Qmult_le_0_compat; lra).
    assert (H2 : 0 <= (e - lo) * (1 - m)) by (apply Qmult_le_0_compat; lra).
    lra.
  - assert (H1 : 0 <= (hi - c) * m) by (apply Qmult_le_0_compat; lra).
    assert (H2 : 0 <= (hi - e) * (1 - m)) by (apply Qmult_le_0_compat; lra).
    lra.
Qed.

Lemma multiplier_range (period : Z) :
  (1 <= period)%Z -> 0 <= 2 / ofZ (period + 1) <= 1.
Proof.
  intros Hp. pose proof (ofZ_pos period Hp) as H1.
  pose proof (ofZ_succ period) as H2.
  apply div_between; lra.
Qed.

(** X23 ([calculateEMA]): for a period of at least 1 the function does not
    panic; with fewer bars than the period it returns 0, and otherwise its
    result lies between any two bounds that hold all closes of the series
    (so the average of a constant series is that constant). *)
Theorem calculateEMA_within_closes (klines : list Kline) (period : Z)
    (lo hi : Q) :
  (1 <= period)%Z ->
  closesWithin lo hi klines ->
  exists ema, calculateEMA klines period = Some ema
    /\ if (len klines <? period)%Z then ema == 0 else lo <= ema <= hi.
Proof.
  intros Hp Hin. unfold closesWithin in Hin. rewrite Forall_forall in Hin.
  unfold calculateEMA.
  destruct (Z.ltb_spec (len klines) period) as [Hlen|Hlen].
  { exists 0. split; reflexivity. }
  destruct (for_inv (fun i sum => ofZ i * lo <= sum <= ofZ i * hi)
              (fun i sum => k ← index klines i; Some (sum + Close k))
              0%Z period 0) as (sum & -> & Hsum).
  - lia.
  - change (ofZ 0) with 0. lra.
  - intros j a Hj Ha.
    destruct (index_in_range klines j ltac:(lia)) as (k & -> & Hk).
    apply Hin in Hk. eexists. split; [reflexivity|].
    rewrite ofZ_succ. lra.
  - cbn [mbind option_bind].
    pose proof (ofZ_pos period Hp) as Hpos.
    apply (for_inv (fun _ ema => lo <= ema <= hi)); [exact Hlen| |].
    + apply div_between; lra.
    + intros j a Hj Ha.
      destruct (index_in_range klines j ltac:(lia)) as (k & -> & Hk).
      apply Hin in Hk. eexists. split; [reflexivity|].
      apply ema_step_between; [apply multiplier_range, Hp|exact Hk|exact Ha].
Qed.

Lemma closeChange_in_range (klines : list Kline) (i : Z) :
  (1 <= i < len klines)%Z -> exists c, closeChange klines i = Some c.
Proof.
  intros Hi. unfold closeChange.
  destruct (index_in_range klines i ltac:(lia)) as (k & -> & _).
  destruct (index_in_range klines (i - 1) ltac:(lia)) as (prev & -> & _).
  eexists. reflexivity.
Qed.

Lemma fgt_0_true (c : Q) : fgt c 0 = true -> 0 < c.
Proof.
  unfold fgt. intros H. apply negb_true_iff in H.
  apply Qnot_le_lt. intros Hle. apply Qle_bool_iff in Hle. congruence.
Qed.

Lemma fgt_0_false (c : Q) : fgt c 0 = false -> c <= 0.
Proof.
  unfold fgt. intros H. apply negb_false_iff in H.
  apply Qle_bool_iff. exact H.
Qed.

Lemma div_pos (x p : Q) : 0 < p -> 0 < x -> 0 < x / p.
Proof.
  intros Hp Hx. apply Qlt_shift_div_l; [exact Hp|].
  rewrite Qmult_0_l. exact Hx.
Qed.

Lemma div_zero (x p : Q) : x == 0 -> x / p == 0.
Proof. intros ->. unfold Qdiv. apply Qmult_0_l. Qed.

Lemma mult_zero (x y : Q) : x == 0 -> x * y == 0.
Proof. intros ->. apply Qmult_0_l. Qed.

Lemma calculateRSI_averages (klines : list Kline) (period : Z) :
  (1 <= period < len klines)%Z ->
  exists avgGain avgLoss,
    calculateRSI klines period
    = (if Qeq_bool avgLoss 0 then Some 100
       else Some (100 - 100 / (1 + avgGain / avgLoss)))
    /\ averagesOf klines avgGain avgLoss.
Proof.
  intros [Hp Hlen]. unfold calculateRSI.
  destruct (Z.leb_spec (len klines) period) as [|_]; [lia|].
  pose proof (ofZ_pos period Hp) as Hpos.
  assert (Hpred : 0 <= ofZ (period - 1)) by (apply ofZ_nonneg; lia).
  match goal with
  | |- context [for_ 1 (period + 1) ?b ?a] =>
      destruct (for_inv
        (fun i sums => 0 <= fst sums /\ 0 <= snd sums
           /\ (neverFalls klines -> snd sums == 0)
           /\ (alwaysFalls klines ->
               fst sums == 0 /\ ((1 < i)%Z -> 0 < snd sums)))
        b 1%Z (period + 1)%Z a) as (sums & -> & Hg & Hl & Hnf & Haf)
  end.
  - lia.
  - cbn [fst snd]. split; [lra|]. split; [lra|]. split; [reflexivity|].
    intros _. split; [reflexivity|lia].
  - intros j [g l] Hj (Hg & Hl & Hnf & Haf). cbn [fst snd] in *.
    destruct (closeChange_in_range klines j ltac:(lia)) as (c & Hc).
    rewrite Hc. cbn [mbind option_bind].
    destruct (fgt c 0) eqn:Hcmp; eexists; (split; [reflexivity|]);
      cbn [fst snd].
    + apply fgt_0_true in Hcmp.
      split; [lra|]. split; [exact Hl|]. split; [exact Hnf|].
      intros H. specialize (H j c Hc). lra.
    + apply fgt_0_false in Hcmp.
      split; [exact Hg|]. split; [lra|]. split.
      * intros H. pose proof (H j c Hc). specialize (Hnf H). lra.
      * intros H. split; [apply Haf, H|].
        intros _. specialize (H j c Hc). lra.
  - cbn [mbind option_bind].
    match goal with
    | |- context [for_ (period + 1) (len klines) ?b ?a] =>
        destruct (for_inv
          (fun _ avgs => averagesOf klines (fst avgs) (snd avgs))
          b (period + 1)%Z (len klines) a) as (avgs & -> & Havgs)
    end.
    + lia.
    + cbn [fst snd].
      split; [apply div_nonneg; lra|]. split; [apply div_nonneg; lra|].
      split.
      * intros H. apply div_zero, Hnf, H.
      * intros H. split; [apply div_zero, Haf, H|].
        apply div_pos; [lra|]. apply Haf; [exact H|lia].
    + intros j [g l] Hj (Hg' & Hl' & Hnf' & Haf'). cbn [fst snd] in *.
      destruct (closeChange_in_range klines j ltac:(lia)) as (c & Hc).
      rewrite Hc. cbn [mbind option_bind].
      pose proof (Qmult_le_0_compat _ _ Hg' Hpred) as Hgp.
      pose proof (Qmult_le_0_compat _ _ Hl' Hpred) as Hlp.
      destruct (fgt c 0) eqn:Hcmp; eexists; (split; [reflexivity|]);
        cbn [fst snd].
      * apply fgt_0_true in Hcmp.
        split; [apply div_nonneg; lra|]. split; [apply div_nonneg; lra|].
        split.
        -- intros H. apply div_zero, mult_zero, Hnf', H.
        -- intros H. specialize (H j c Hc). lra.
      * apply fgt_0_false in Hcmp.
        split; [apply div_nonneg; lra|]. split; [apply div_nonneg; lra|].
        split.
        -- intros H. pose proof (H j c Hc). apply div_zero.
           rewrite (mult_zero l _ (Hnf' H)). lra.
        -- intros H. split; [apply div_zero, mult_zero, Haf', H|].
           apply div_pos; [lra|]. specialize (H j c Hc). lra.
    + cbn [mbind option_bind]. exists (fst avgs), (snd avgs).
      split; [|exact Havgs].
      destruct (Qeq_bool (snd avgs) 0); reflexivity.
Qed.


(** X25 ([calculateRSI]): with more bars than the period, a series whose
    close never falls gives exactly 100; this includes a series that does
    not move at all. *)
Theorem calculateRSI_never_falling (klines : list Kline) (period : Z) :
  (1 <= period < len klines)%Z ->
  neverFalls klines ->
  calculateRSI klines period = Some 100.
Proof.
  intros Hp Hnf.
  destruct (calculateRSI_averages klines period Hp)
    as (g & l & -> & _ & _ & Hl & _).
  apply Hl in Hnf. apply Qeq_bool_iff in Hnf. rewrite Hnf. reflexivity.
Qed.

(** X26 ([calculateRSI]): with more bars than the period, a series whose
    close falls at every bar gives 0. *)
Theorem calculateRSI_always_falling (klines : list Kline) (period : Z) :
  (1 <= period < len klines)%Z ->
  alwaysFalls klines ->
  exists rsi, calculateRSI klines period = Some rsi /\ rsi == 0.
Proof.
  intros Hp Haf.
  destruct (calculateRSI_averages klines period Hp)
    as (g & l & -> & _ & _ & _ & Hgl).
  destruct (Hgl Haf) as [Hg Hl].
  destruct (Qeq_bool l 0) eqn:Hz.
  { apply Qeq_bool_iff in Hz. lra. }
  eexists. split; [reflexivity|].
  rewrite (div_zero g l Hg). reflexivity.
Qed.




Lemma closeChange_Some_range (klines : list Kline) (i : Z) (c : Q) :
  closeChange klines i = Some c -> (1 <= i < len klines)%Z.
Proof.
  unfold closeChange. intros H.
  destruct (index klines i) as [k|] eqn:Hk; [|discriminate].
  destruct (index klines (i - 1)) as [prev|] eqn:Hprev; [|discriminate].
  apply index_Some_range in Hk. apply index_Some_range in Hprev. lia.
Qed.

Lemma closesWithin_seriesMixed : closesWithin 10 13 seriesMixed.
Proof. repeat constructor; cbn; lra. Qed.


Lemma neverFalls_seriesFlatThenUp : neverFalls seriesFlatThenUp.
Proof.
  intros i c H. pose proof (closeChange_Some_range _ _ _ H) as Hi.
  change (len seriesFlatThenUp) with 4%Z in Hi.
  assert (Hcases : i = 1%Z \/ i = 2%Z \/ i = 3%Z) by lia.
  destruct Hcases as [-> | [-> | ->]]; vm_compute in H;
    injection H as <-; discriminate.
Qed.

Lemma alwaysFalls_seriesFalling : alwaysFalls seriesFalling.
Proof.
  intros i c H. pose proof (closeChange_Some_range _ _ _ H) as Hi.
  change (len seriesFalling) with 4%Z in Hi.
  assert (Hcases : i = 1%Z \/ i = 2%Z \/ i = 3%Z) by lia.
  destruct Hcases as [-> | [-> | ->]]; vm_compute in H;
    injection H as <-; reflexivity.
Qed.

Lemma calculateEMA_within_closes_witness :
  exists ema, calculateEMA seriesMixed 2 = Some ema
    /\ if (len seriesMixed <? 2)%Z then ema == 0 else 10 <= ema <= 13.
Proof.
  apply (calculateEMA_within_closes seriesMixed 2 10 13);
    [lia|exact closesWithin_seriesMixed].
Defined.


Lemma calculateRSI_never_falling_witness :
  calculateRSI seriesFlatThenUp 2 = Some 100.
Proof.
  apply (calculateRSI_never_falling seriesFlatThenUp 2);
    [vm_compute; split; [discriminate|reflexivity]
    |exact neverFalls_seriesFlatThenUp].
Defined.

Lemma calculateRSI_always_falling_witness :
  exists rsi, calculateRSI seriesFalling 2 = Some rsi /\ rsi == 0.
Proof.
  apply (calculateRSI_always_falling seriesFalling 2);
    [vm_compute; split; [discriminate|reflexivity]
    |exact alwaysFalls_seriesFalling].
Defined.


(** The series [10, 12, 11, 13] with period 2: the moving average is
    [37/3], the strength index [600/7], the average true range [11/4]. *)
Example indicators_of_seriesMixed :
  (exists ema, calculateEMA seriesMixed 2 = Some ema /\ ema == 37 # 3)
  /\ (exists rsi, calculateRSI seriesMixed 2 = Some rsi /\ rsi == 600 # 7)
  /\ (exists atr, calculateATR seriesMixed 2 = Some atr /\ atr == 11 # 4).
Proof.
  split; [|split]; eexists; (split; [vm_compute; reflexivity|]);
    vm_compute; reflexivity.
Qed.

End IndicatorFacts.
